(** * media-workflow: the traversal engine and the per-file transaction

    A shallow embedding of [src/core.py]: the [FileContext] class, which
    derives the staging and final output paths of one input file, and
    [traverse], which walks a directory and hands every matching file to a
    caller-supplied operation.

    Python strings are modelled as [string]; the POSIX file system the code
    talks to through [os], [os.path] and [pathlib] is modelled as a finite
    map from canonical locations (lists of entry names below the root) to
    nodes, together with a current working directory.

    The file system of the model holds directories and regular files.  It
    has no symbolic or hard links and no permission bits: every call the
    code makes is permitted, and a call fails only for what the tree holds
    (a missing entry, a file where a directory is needed, a directory
    where a file is needed).  Case folding and white space are those of
    ASCII; statements that depend on them assume [isascii] strings. *)

From stdpp Require Import gmap strings list fin_maps relations.
From Stdlib Require Import Ascii String.

Local Open Scope string_scope.
Local Open Scope list_scope.

(** ** Python [str] methods used by the code *)

Module Str.

(** [s.startswith(c)] for a one-character [c]. *)
Definition starts_with_char (c : ascii) (s : string) : bool :=
  match s with
  | String a _ => bool_decide (a = c)
  | EmptyString => false
  end.

(** [s.endswith(suf)]: some tail of [s] is [suf]. *)
Fixpoint endswith (s suf : string) : bool :=
  if bool_decide (s = suf) then true
  else match s with
       | String _ s' => endswith s' suf
       | EmptyString => false
       end.

(** [s.isascii()]: every character is below 128.  On such strings
    [lower] and [strip] are the ASCII functions modelled here. *)
Fixpoint isascii (s : string) : bool :=
  match s with
  | EmptyString => true
  | String a s' => (nat_of_ascii a <? 128)%nat && isascii s'
  end.

(** [s.lower()] on ASCII strings: case folding of [A-Z]; other characters
    are left alone. *)
Definition lower_ascii (a : ascii) : ascii :=
  let n := nat_of_ascii a in
  if (65 <=? n)%nat && (n <=? 90)%nat then ascii_of_nat (n + 32) else a.

Fixpoint lower (s : string) : string :=
  match s with
  | String a s' => String (lower_ascii a) (lower s')
  | EmptyString => EmptyString
  end.

(** [s.rsplit(c, 1)]: [Some (h, t)] stands for the two-element list
    [[h, t]] cut at the last [c]; [None] for the one-element list [[s]]. *)
Fixpoint rsplit1 (c : ascii) (s : string) : option (string * string) :=
  match s with
  | EmptyString => None
  | String a s' =>
      match rsplit1 c s' with
      | Some (h, t) => Some (String a h, t)
      | None => if bool_decide (a = c) then Some (EmptyString, s') else None
      end
  end.

(** [s.replace(c, r)] for a one-character [c]. *)
Fixpoint replace (c : ascii) (r : string) (s : string) : string :=
  match s with
  | EmptyString => EmptyString
  | String a s' =>
      if bool_decide (a = c) then r +:+ replace c r s'
      else String a (replace c r s')
  end.

(** [s.split(c)]: never empty, [""] splits to [[""]]. *)
Fixpoint split (c : ascii) (s : string) : list string :=
  match s with
  | EmptyString => [EmptyString]
  | String a s' =>
      if bool_decide (a = c) then EmptyString :: split c s'
      else match split c s' with
           | h :: t => String a h :: t
           | [] => [String a EmptyString]
           end
  end.

(** [c.join(parts)]. *)
Fixpoint join (c : string) (parts : list string) : string :=
  match parts with
  | [] => EmptyString
  | [p] => p
  | p :: ps => p +:+ c +:+ join c ps
  end.

(** [s.rstrip(c)]. *)
Fixpoint rstrip (c : ascii) (s : string) : string :=
  match s with
  | EmptyString => EmptyString
  | String a s' =>
      match rstrip c s' with
      | EmptyString => if bool_decide (a = c) then EmptyString
                       else String a EmptyString
      | r => String a r
      end
  end.

(** Every character of [s] is [c] (true of the empty string). *)
Fixpoint all_char (c : ascii) (s : string) : bool :=
  match s with
  | EmptyString => true
  | String a s' => bool_decide (a = c) && all_char c s'
  end.

(** [c in s]. *)
Fixpoint contains (c : ascii) (s : string) : bool :=
  match s with
  | EmptyString => false
  | String a s' => bool_decide (a = c) || contains c s'
  end.

End Str.

(** ** [os.path] (posixpath) *)

Module posixpath.

Definition sep : ascii := "/"%char.

(** [os.path.join(a, b)]. *)
Definition join (a b : string) : string :=
  if Str.starts_with_char sep b then b
  else if bool_decide (a = "") || Str.endswith a "/" then a +:+ b
  else a +:+ "/" +:+ b.

(** [os.path.basename(p)]: what follows the last slash. *)
Definition basename (p : string) : string :=
  match Str.rsplit1 sep p with
  | Some (_, t) => t
  | None => p
  end.

(** [os.path.dirname(p)]: the head up to and including the last slash,
    with trailing slashes stripped unless the head is slashes only. *)
Definition dirname (p : string) : string :=
  match Str.rsplit1 sep p with
  | Some (h, _) =>
      let head := h +:+ "/" in
      if Str.all_char sep head then head else Str.rstrip sep head
  | None => ""
  end.

End posixpath.

(** ** [pathlib.PurePosixPath]: parsing and printing *)

Module pathlib.

Record Path := { root : string; tail : list string }.

(** The root of a POSIX path: exactly two leading slashes are kept,
    any other number collapses to one. *)
Definition splitroot (p : string) : string :=
  match p with
  | String "/" (String "/" (String "/" _)) => "/"
  | String "/" (String "/" _) => "//"
  | String "/" _ => "/"
  | _ => ""
  end.

(** [Path(p)]: empty and [.] components are dropped, [..] is kept. *)
Definition parse (p : string) : Path :=
  {| root := splitroot p;
     tail := filter (fun x => x <> "" /\ x <> ".") (Str.split posixpath.sep p) |}.

(** [str(path)]. *)
Definition str (p : Path) : string :=
  let s := root p +:+ Str.join "/" (tail p) in
  if bool_decide (s = "") then "." else s.

(** The entry [name] of directory [p], as [iterdir] yields it. *)
Definition child (p : Path) (name : string) : Path :=
  {| root := root p; tail := tail p ++ [name] |}.

End pathlib.

(** ** Exceptions and results *)

Inductive exn :=
  | ValueError (msg : string)
  | FileNotFoundError (path : string)
  | FileExistsError (path : string)
  | NotADirectoryError (path : string)
  | IsADirectoryError (path : string)
  | PermissionError (path : string)
  | OSError (path : string)
  | OperationError (msg : string).

Inductive result (A : Type) :=
  | Ok (a : A)
  | Raise (e : exn).
Arguments Ok {A} a.
Arguments Raise {A} e.

(** ** The file system behind [os] and [pathlib]

    A location is the list of entry names leading from the root to a node.
    The root is always a directory.  There are no symbolic links and no
    permissions. *)

Module os.

Inductive node :=
  | File (data : string)
  | Directory.

Abbreviation location := (list string).

Record filesystem := { tree : gmap location node; cwd : location }.

Definition node_at (t : gmap location node) (loc : location) : option node :=
  match loc with
  | [] => Some Directory
  | _ => t !! loc
  end.

Definition with_tree (fs : filesystem) (t : gmap location node) : filesystem :=
  {| tree := t; cwd := cwd fs |}.

(** One step of path resolution from directory [cur]. *)
Definition step (cur : location) (c : string) : location :=
  if bool_decide (c = "" \/ c = ".") then cur
  else if bool_decide (c = "..") then removelast cur
  else cur ++ [c].

(** Resolve the components of a path from [cur]; every component, the empty
    one after a trailing slash included, is looked up in a directory. *)
Fixpoint walk (t : gmap location node) (cur : location) (comps : list string)
  : option location :=
  match comps with
  | [] => Some cur
  | c :: cs =>
      match node_at t cur with
      | Some Directory => walk t (step cur c) cs
      | _ => None
      end
  end.

Definition start (fs : filesystem) (p : string) : location :=
  if Str.starts_with_char posixpath.sep p then [] else cwd fs.

(** The location a path names, whether or not something is there. *)
Definition resolve (fs : filesystem) (p : string) : option location :=
  if bool_decide (p = "") then None
  else walk (tree fs) (start fs p) (Str.split posixpath.sep p).

(** Whether the walk comes to a stop at a regular file rather than at a
    missing entry. *)
Fixpoint stopped_by_file (t : gmap location node) (cur : location)
    (comps : list string) : bool :=
  match comps with
  | [] => false
  | c :: cs =>
      match node_at t cur with
      | Some Directory => stopped_by_file t (step cur c) cs
      | Some (File _) => true
      | None => false
      end
  end.

(** What a system call raises for a path that does not resolve: ENOTDIR
    when a regular file stands where a directory is needed, ENOENT
    otherwise. *)
Definition resolve_error (fs : filesystem) (p : string) : exn :=
  if negb (bool_decide (p = ""))
     && stopped_by_file (tree fs) (start fs p) (Str.split posixpath.sep p)
  then NotADirectoryError p else FileNotFoundError p.

(** [os.stat(p)], reduced to the kind of node found. *)
Definition stat (fs : filesystem) (p : string) : option node :=
  loc ← resolve fs p; node_at (tree fs) loc.

(** [os.path.exists], [os.path.isfile], [os.path.isdir]. *)
Definition path_exists (fs : filesystem) (p : string) : bool :=
  bool_decide (is_Some (stat fs p)).

Definition path_isfile (fs : filesystem) (p : string) : bool :=
  match stat fs p with
  | Some (File _) => true
  | _ => false
  end.

Definition path_isdir (fs : filesystem) (p : string) : bool :=
  match stat fs p with
  | Some Directory => true
  | _ => false
  end.

(** The name [k] has directly below [loc], if it lies there. *)
Definition child_name (loc k : location) : option string :=
  match drop (List.length loc) k with
  | [n] => if bool_decide (take (List.length loc) k = loc) then Some n else None
  | _ => None
  end.

(** The names in the directory at [loc], in the order the map yields them. *)
Definition entries (t : gmap location node) (loc : location) : list string :=
  omap (child_name loc) (map_to_list t).*1.

(** [os.listdir(p)]. *)
Definition listdir (fs : filesystem) (p : string) : result (list string) :=
  match resolve fs p with
  | Some loc =>
      match node_at (tree fs) loc with
      | Some Directory => Ok (entries (tree fs) loc)
      | Some (File _) => Raise (NotADirectoryError p)
      | None => Raise (FileNotFoundError p)
      end
  | None => Raise (resolve_error fs p)
  end.

(** A component that names an entry, as opposed to [""], ["."] and [".."]. *)
Definition named (c : string) : bool :=
  negb (bool_decide (c = "" \/ c = ".")) && negb (bool_decide (c = "..")).

(** Walk the components of [p] from [cur], creating every directory that is
    missing on the way.  [made] tells whether the directory the walk stands
    in was created by it; a walk that ends in a directory it did not create
    fails as [mkdir] does on an existing target.  What was created before a
    failure stays. *)
Fixpoint makedirs_walk (p : string) (t : gmap location node) (cur : location)
    (made : bool) (comps : list string) : gmap location node * result unit :=
  match comps with
  | [] => (t, if made then Ok tt else Raise (FileExistsError p))
  | c :: cs =>
      match node_at t cur with
      | Some Directory =>
          if named c then
            match node_at t (cur ++ [c]) with
            | Some _ => makedirs_walk p t (cur ++ [c]) false cs
            | None => makedirs_walk p (<[cur ++ [c] := Directory]> t) (cur ++ [c]) true cs
            end
          else makedirs_walk p t (step cur c) (made && negb (bool_decide (c = ".."))) cs
      | Some (File _) => (t, Raise (NotADirectoryError p))
      | None => (t, Raise (FileNotFoundError p))
      end
  end.

(** [os.makedirs(p)] with [exist_ok=False]. *)
Definition makedirs (p : string) (fs : filesystem) : filesystem * result unit :=
  if bool_decide (p = "") then (fs, Raise (FileNotFoundError p))
  else let '(t, r) := makedirs_walk p (tree fs) (start fs p) false
                        (Str.split posixpath.sep p) in
       (with_tree fs t, r).

(** [os.remove(p)]. *)
Definition remove (p : string) (fs : filesystem) : filesystem * result unit :=
  match resolve fs p with
  | Some loc =>
      match node_at (tree fs) loc with
      | Some (File _) => (with_tree fs (delete loc (tree fs)), Ok tt)
      | Some Directory => (fs, Raise (IsADirectoryError p))
      | None => (fs, Raise (FileNotFoundError p))
      end
  | None => (fs, Raise (resolve_error fs p))
  end.

(** Moving the subtree at [src] to [dst] re-roots every key below [src]. *)
Definition is_below (loc k : location) : bool :=
  bool_decide (take (List.length loc) k = loc).

Definition rekey (src dst k : location) : location :=
  if is_below src k then dst ++ drop (List.length src) k else k.

Definition move_tree (src dst : location) (t : gmap location node)
  : gmap location node :=
  list_to_map (prod_map (rekey src dst) id <$> map_to_list t).

(** [os.rename(src, dst)]: a file replaces a file or takes a free name; a
    directory replaces an empty directory or takes a free name outside
    itself.  A path that does not resolve gives ENOTDIR or ENOENT. *)
Definition rename (src dst : string) (fs : filesystem) : filesystem * result unit :=
  match resolve fs src with
  | None => (fs, Raise (resolve_error fs src))
  | Some sloc =>
      match node_at (tree fs) sloc with
      | None => (fs, Raise (FileNotFoundError src))
      | Some (File d) =>
          match resolve fs dst with
          | None => (fs, Raise (resolve_error fs dst))
          | Some dloc =>
              match node_at (tree fs) dloc with
              | Some Directory => (fs, Raise (IsADirectoryError dst))
              | _ => (with_tree fs (<[dloc := File d]> (delete sloc (tree fs))), Ok tt)
              end
          end
      | Some Directory =>
          match resolve fs dst with
          | None => (fs, Raise (resolve_error fs dst))
          | Some dloc =>
              if bool_decide (sloc = []) || bool_decide (dloc = []) || is_below sloc dloc
              then (fs, if bool_decide (sloc = dloc) then Ok tt else Raise (OSError dst))
              else match node_at (tree fs) dloc with
                   | Some (File _) => (fs, Raise (NotADirectoryError dst))
                   | Some Directory =>
                       if bool_decide (entries (tree fs) dloc = [])
                       then (with_tree fs (move_tree sloc dloc (delete dloc (tree fs))), Ok tt)
                       else (fs, Raise (OSError dst))
                   | None => (with_tree fs (move_tree sloc dloc (tree fs)), Ok tt)
                   end
          end
      end
  end.

End os.

(** ** [FileContext]: the per-file transaction *)

Module FileContext.

Record t := {
  original_file : string;
  temp_file : string;
  final_file : string;
  original_file_name : string;
  temp_file_name : string
}.

(** Escape spaces and single quotes for a shell command line. *)
Definition convert_file_name (name : string) : string :=
  Str.replace "'" "\'" (Str.replace " " "\ " name).

(** [FileContext(original_file)].  Unpacking the [rsplit] fails on a file
    name without a dot, before anything is created. *)
Definition init (original_file : string) (fs : os.filesystem)
  : os.filesystem * result t :=
  let file_dir := posixpath.dirname original_file in
  let file_name := posixpath.basename original_file in
  match Str.rsplit1 "." file_name with
  | None => (fs, Raise (ValueError "not enough values to unpack (expected 2, got 1)"))
  | Some (name, format) =>
      let compressed_dir := posixpath.join file_dir "compressed" in
      match (if negb (os.path_exists fs compressed_dir)
             then os.makedirs compressed_dir fs else (fs, Ok tt)) with
      | (fs', Raise e) => (fs', Raise e)
      | (fs', Ok _) =>
          let temp := posixpath.join compressed_dir (name +:+ "-temp." +:+ format) in
          (fs', Ok {| original_file := original_file;
                      temp_file := temp;
                      final_file := posixpath.join compressed_dir file_name;
                      original_file_name := convert_file_name original_file;
                      temp_file_name := convert_file_name temp |})
      end
  end.

(** [s.rsplit(".", 1)[0]]. *)
Definition rsplit_head (s : string) : string :=
  match Str.rsplit1 "." s with
  | Some (h, _) => h
  | None => s
  end.

(** [ctx.set_format(format)]. *)
Definition set_format (ctx : t) (format : string) : t :=
  let temp_name := rsplit_head (posixpath.basename (temp_file ctx)) in
  let compressed_dir := posixpath.dirname (temp_file ctx) in
  let temp := posixpath.join compressed_dir (temp_name +:+ "." +:+ format) in
  let final_name := rsplit_head (posixpath.basename (original_file ctx)) in
  {| original_file := original_file ctx;
     temp_file := temp;
     final_file := posixpath.join compressed_dir (final_name +:+ "." +:+ format);
     original_file_name := original_file_name ctx;
     temp_file_name := convert_file_name temp |}.

(** [ctx.archive_original_file()]: nothing happens. *)
Definition archive_original_file (ctx : t) (fs : os.filesystem)
  : os.filesystem * result unit := (fs, Ok tt).

(** [ctx.delete_original_file()]. *)
Definition delete_original_file (ctx : t) (fs : os.filesystem)
  : os.filesystem * result unit :=
  if os.path_exists fs (original_file ctx) then os.remove (original_file ctx) fs
  else (fs, Ok tt).

(** [ctx.rename_temp_file()]. *)
Definition rename_temp_file (ctx : t) (fs : os.filesystem)
  : os.filesystem * result unit :=
  os.rename (temp_file ctx) (final_file ctx) fs.

End FileContext.

(** ** [traverse]: the directory walker *)

(** What a run does, in order.  [Visit] and [Invoke] record the start of a
    directory listing and a call of the operation, with the transaction it
    is handed and the file system it is called on; the other events are
    the lines the code prints. *)
Inductive event :=
  | DirectoryNotFound (directory : string)
  | NotADirectory (directory : string)
  | Visit (directory : string)
  | SkippingGone (obj_relative_path : string)
  | Invoke (ctx : FileContext.t) (fs : os.filesystem)
  | ErrorProcessing (obj_relative_path : string) (e : exn)
  | CannotAccessDirectory (directory : string) (e : exn).

Section Traverse.

(** The opaque parameters [var1], [var2], [var3] and the operation.  The
    operation works on the file system and either returns or raises an
    [Exception]. *)
Context {V : Type}.

Definition operation : Type :=
  FileContext.t -> V -> V -> V -> os.filesystem -> os.filesystem * option exn.

(** [Path.exists()] and [Path.is_dir()], for the lookups of the model:
    one that fails does so for a missing entry or a file in the way, and
    the call answers [False]. *)
Definition Path_exists (fs : os.filesystem) (p : pathlib.Path) : bool :=
  os.path_exists fs (pathlib.str p).

Definition Path_is_dir (fs : os.filesystem) (p : pathlib.Path) : bool :=
  os.path_isdir fs (pathlib.str p).

Section Body.

Variables (dir format : string) (func : operation) (var1 var2 var3 : V)
          (recursive : bool).

(** The recursive call, as [traverse] makes it for a subdirectory. *)
Variable recurse : string -> os.filesystem -> option (os.filesystem * list event).

(** The body of the [for] loop for one entry of the listing. *)
Definition visit_entry (name : string) (fs : os.filesystem)
  : option (os.filesystem * list event) :=
  let obj := pathlib.child (pathlib.parse dir) name in
  let obj_relative_path := posixpath.join dir (pathlib.str obj) in
  if negb (os.path_exists fs obj_relative_path)
  then Some (fs, [SkippingGone obj_relative_path])
  else if negb (os.path_isfile fs obj_relative_path)
  then (if recursive then recurse obj_relative_path fs else Some (fs, []))
  else if Str.endswith (Str.lower obj_relative_path) (Str.lower format)
  then match FileContext.init obj_relative_path fs with
       | (fs1, Raise e) => Some (fs1, [ErrorProcessing obj_relative_path e])
       | (fs1, Ok ctx) =>
           match func ctx var1 var2 var3 fs1 with
           | (fs2, Some e) =>
               Some (fs2, [Invoke ctx fs1; ErrorProcessing obj_relative_path e])
           | (fs2, None) => Some (fs2, [Invoke ctx fs1])
           end
       end
  else Some (fs, []).

(** The [for] loop over the listing. *)
Fixpoint visit_entries (names : list string) (fs : os.filesystem)
  : option (os.filesystem * list event) :=
  match names with
  | [] => Some (fs, [])
  | name :: rest =>
      '(fs1, log1) ← visit_entry name fs;
      '(fs2, log2) ← visit_entries rest fs1;
      Some (fs2, log1 ++ log2)
  end.

End Body.

(** [traverse(dir, format, func, var1, var2, var3, recursive)].  The fuel
    bounds the depth of the Python recursion; [None] means it ran out. *)
Fixpoint traverse (fuel : nat) (dir format : string) (func : operation)
    (var1 var2 var3 : V) (recursive : bool) (fs : os.filesystem)
  : option (os.filesystem * list event) :=
  match fuel with
  | O => None
  | S fuel' =>
      let directory := pathlib.parse dir in
      if negb (Path_exists fs directory)
      then Some (fs, [DirectoryNotFound (pathlib.str directory)])
      else if negb (Path_is_dir fs directory)
      then Some (fs, [NotADirectory (pathlib.str directory)])
      else match os.listdir fs (pathlib.str directory) with
           | Raise e => Some (fs, [CannotAccessDirectory (pathlib.str directory) e])
           | Ok names =>
               '(fs', log) ← visit_entries dir format func var1 var2 var3 recursive
                               (fun d => traverse fuel' d format func var1 var2 var3 recursive)
                               names fs;
               Some (fs', Visit (pathlib.str directory) :: log)
           end
  end.

End Traverse.

(** ** [scripts/drone_video.py]: the prompt and the call of [traverse] *)

Module drone_video.

(** The ASCII white space that [str.strip()] removes. *)
Definition is_space (a : ascii) : bool :=
  let n := nat_of_ascii a in
  ((9 <=? n)%nat && (n <=? 13)%nat) || ((28 <=? n)%nat && (n <=? 32)%nat).

(** [s.lstrip(cs)], [s.rstrip(cs)] and [s.strip(cs)], the set [cs] given
    by its membership test. *)
Fixpoint lstrip (cs : ascii -> bool) (s : string) : string :=
  match s with
  | String a s' => if cs a then lstrip cs s' else s
  | EmptyString => EmptyString
  end.

Fixpoint rstrip (cs : ascii -> bool) (s : string) : string :=
  match s with
  | EmptyString => EmptyString
  | String a s' =>
      match rstrip cs s' with
      | EmptyString => if cs a then EmptyString else String a EmptyString
      | r => String a r
      end
  end.

Definition strip (cs : ascii -> bool) (s : string) : string :=
  rstrip cs (lstrip cs s).

Definition single_quote : ascii := "'"%char.
Definition double_quote : ascii := "034"%char.

(** The answer to the prompt, stripped of white space, then of single
    quotes, then of double quotes. *)
Definition clean (answer : string) : string :=
  strip (Ascii.eqb double_quote) (strip (Ascii.eqb single_quote) (strip is_space answer)).

(** How the script ends: [sys.exit(1)] after one of the two error
    messages, or the end of the file after the run. *)
Inductive outcome :=
  | ExitDirectoryNotFound (dir : string)
  | ExitNotADirectory (dir : string)
  | ProcessingCompleted (fs : os.filesystem) (log : list event).

Definition exit_status (o : outcome) : nat :=
  match o with
  | ProcessingCompleted _ _ => 0
  | _ => 1
  end.

(** The script, for the line typed at the prompt.  [compress_drone_video]
    is not part of the sources at hand and stays a parameter.  The call
    of [traverse] leaves [recursive] at its default. *)
Definition main (answer : string) (compress_drone_video : @operation (option string))
    (fs : os.filesystem) : option outcome :=
  let dir := clean answer in
  if negb (os.path_exists fs dir) then Some (ExitDirectoryNotFound dir)
  else if negb (os.path_isdir fs dir) then Some (ExitNotADirectory dir)
  else '(fs', log) ← traverse 1 dir ".mp4" compress_drone_video
                        (Some "1920:1080") (Some "15M") None false fs;
       Some (ProcessingCompleted fs' log).

End drone_video.

(** ** [scripts/extract_featured_raw.py]: copying the featured files *)

Module featured.

(** [shutil.copy2(src, dst)], its metadata apart, on a file system without
    links: the data of the file [src] is written to [dst], or into [dst]
    under the name of [src] when [dst] is a directory. *)
Definition copy2 (src dst : string) (fs : os.filesystem) : os.filesystem * result unit :=
  match os.resolve fs src with
  | None => (fs, Raise (os.resolve_error fs src))
  | Some sloc =>
      match os.node_at (os.tree fs) sloc with
      | None => (fs, Raise (FileNotFoundError src))
      | Some os.Directory => (fs, Raise (IsADirectoryError src))
      | Some (os.File data) =>
          let dst := if os.path_isdir fs dst
                     then posixpath.join dst (posixpath.basename src) else dst in
          match os.resolve fs dst with
          | None => (fs, Raise (os.resolve_error fs dst))
          | Some dloc =>
              if bool_decide (dloc = sloc) then (fs, Raise (OSError dst))
              else match os.node_at (os.tree fs) dloc with
                   | Some os.Directory => (fs, Raise (IsADirectoryError dst))
                   | _ => (os.with_tree fs (<[dloc := os.File data]> (os.tree fs)), Ok tt)
                   end
          end
      end
  end.

(** [Path(p).mkdir(exist_ok=True)]. *)
Definition mkdir_exist_ok (p : string) (fs : os.filesystem) : os.filesystem * result unit :=
  match os.resolve fs p with
  | None => (fs, Raise (os.resolve_error fs p))
  | Some loc =>
      match os.node_at (os.tree fs) loc with
      | None => (os.with_tree fs (<[loc := os.Directory]> (os.tree fs)), Ok tt)
      | Some os.Directory => (fs, Ok tt)
      | Some (os.File _) => (fs, Raise (FileExistsError p))
      end
  end.

(** [p.name]: the last component, empty for a bare root. *)
Definition name (p : pathlib.Path) : string := default "" (last (pathlib.tail p)).

(** [PurePath.stem] as Python has it up to 3.13: the name without its
    suffix, where a dot at the start or at the end of the name starts no
    suffix. *)
Definition stem (n : string) : string :=
  match Str.rsplit1 "." n with
  | Some (h, t) => if bool_decide (h = "") || bool_decide (t = "") then n else h
  | None => n
  end.

Definition is_file (fs : os.filesystem) (p : pathlib.Path) : bool :=
  os.path_isfile fs (pathlib.str p).

(** [p.iterdir()], read to the end. *)
Definition iterdir (fs : os.filesystem) (p : pathlib.Path) : result (list pathlib.Path) :=
  match os.listdir fs (pathlib.str p) with
  | Ok names => Ok (pathlib.child p <$> names)
  | Raise e => Raise e
  end.

Definition IMAGE_SUBDIRS : list string :=
  [""; "heif"; "hif"; "jpeg"; "jpg"; "HEIF"; "HIF"; "JPEG"; "JPG"].

(** The lower-cased stem of a regular file, unless it starts with a dot. *)
Definition file_stem (fs : os.filesystem) (file_path : pathlib.Path) : option string :=
  if is_file fs file_path then
    let s := Str.lower (stem (name file_path)) in
    if Str.starts_with_char "." s then None else Some s
  else None.

(** Step 1: the stems found in [raw/export]. *)
Definition scan (fs : os.filesystem) (files : list pathlib.Path) : gset string :=
  list_to_set (omap (file_stem fs) files).

(** Step 2, for one of [IMAGE_SUBDIRS]: the files whose stem was found. *)
Definition search (fs : os.filesystem) (base_dir : pathlib.Path)
    (raw_file_names : gset string) (subdir : string) : result (list pathlib.Path) :=
  let search_dir := if bool_decide (subdir = "") then base_dir
                    else pathlib.child base_dir subdir in
  if negb (Path_exists fs search_dir) || negb (Path_is_dir fs search_dir) then Ok []
  else if bool_decide (Str.lower (name search_dir) ∈ ["raw"; "featured"]) then Ok []
  else match iterdir fs search_dir with
       | Raise (PermissionError _) => Ok []
       | Raise e => Raise e
       | Ok files =>
           Ok (List.filter (fun f => match file_stem fs f with
                                     | Some s => bool_decide (s ∈ raw_file_names)
                                     | None => false
                                     end) files)
       end.

Fixpoint search_all (fs : os.filesystem) (base_dir : pathlib.Path)
    (raw_file_names : gset string) (subdirs : list string) : result (list pathlib.Path) :=
  match subdirs with
  | [] => Ok []
  | subdir :: rest =>
      match search fs base_dir raw_file_names subdir with
      | Raise e => Raise e
      | Ok found =>
          match search_all fs base_dir raw_file_names rest with
          | Raise e => Raise e
          | Ok more => Ok (found ++ more)
          end
      end
  end.

(** Step 3: the copy loop, counting the files copied. *)
Fixpoint copy_all (featured_dir : pathlib.Path) (matching_files : list pathlib.Path)
    (fs : os.filesystem) (copied_count : nat) : os.filesystem * nat :=
  match matching_files with
  | [] => (fs, copied_count)
  | file_path :: rest =>
      let destination := pathlib.child featured_dir (name file_path) in
      if Path_exists fs destination then copy_all featured_dir rest fs copied_count
      else match copy2 (pathlib.str file_path) (pathlib.str destination) fs with
           | (fs', Ok _) => copy_all featured_dir rest fs' (S copied_count)
           | (fs', Raise _) => copy_all featured_dir rest fs' copied_count
           end
  end.

(** [process_files(base_dir)]: the value returned, or the exception that
    leaves the function.  The three listings catch [PermissionError] only;
    whatever the copy step raises is caught. *)
Definition process_files (base_dir : pathlib.Path) (fs : os.filesystem)
  : os.filesystem * result bool :=
  let raw_dir := pathlib.child base_dir "raw" in
  let featured_dir := pathlib.child base_dir "featured" in
  if negb (Path_exists fs raw_dir) then (fs, Ok false)
  else match iterdir fs raw_dir with
  | Raise (PermissionError _) => (fs, Ok false)
  | Raise e => (fs, Raise e)
  | Ok subdirs =>
  match List.find (fun subdir => Path_is_dir fs subdir
                                 && bool_decide (Str.lower (name subdir) = "export"))
                  subdirs with
  | None => (fs, Ok false)
  | Some raw_export_dir =>
  match iterdir fs raw_export_dir with
  | Raise (PermissionError _) => (fs, Ok false)
  | Raise e => (fs, Raise e)
  | Ok files =>
  let raw_file_names := scan fs files in
  if bool_decide (raw_file_names = ∅) then (fs, Ok false)
  else match search_all fs base_dir raw_file_names IMAGE_SUBDIRS with
  | Raise e => (fs, Raise e)
  | Ok matching_files =>
  if bool_decide (matching_files = []) then (fs, Ok false)
  else match mkdir_exist_ok (pathlib.str featured_dir) fs with
  | (fs1, Raise _) => (fs1, Ok false)
  | (fs1, Ok _) =>
      let '(fs2, copied_count) := copy_all featured_dir matching_files fs1 0 in
      (fs2, Ok (bool_decide (0 < copied_count)%nat))
  end end end end end.

End featured.

(** * Vocabulary of the statements *)

Module spec.

Import os posixpath pathlib FileContext.

(** The exceptions of the [OSError] family: the file system errors. *)
Definition os_error (e : exn) : bool :=
  match e with
  | FileNotFoundError _ | FileExistsError _ | NotADirectoryError _
  | IsADirectoryError _ | PermissionError _ | OSError _ => true
  | _ => false
  end.

(** [t'] is [t] with some directories added at free locations. *)
Definition grown (t t' : gmap location node) : Prop :=
  forall q, node_at t' q = node_at t q \/
            (node_at t q = None /\ node_at t' q = Some Directory).

(** The directory path [d] (written [d/]) resolves to the directory [loc]. *)
Definition resolves_dir (fs : filesystem) (d : string) (loc : location) : Prop :=
  walk (tree fs) (start fs (d +:+ "/")) (Str.split sep d) = Some loc /\
  node_at (tree fs) loc = Some Directory.

(** The extension of a path: what follows the last dot of its base name. *)
Definition extension (p : string) : option string :=
  snd <$> Str.rsplit1 "." (basename p).

(** Staging and final path lie in one directory and carry one extension. *)
Definition paired (ctx : FileContext.t) : Prop :=
  dirname (temp_file ctx) = dirname (final_file ctx) /\
  extension (temp_file ctx) = extension (final_file ctx).

(** Both paths are names directly below the directory path [cd], with one
    extension. *)
Definition staged (cd : string) (ctx : FileContext.t) : Prop :=
  cd <> "" /\ Str.endswith cd "/" = false /\
  exists x y, Str.contains sep x = false /\ Str.contains sep y = false /\
    temp_file ctx = cd +:+ "/" +:+ x /\ final_file ctx = cd +:+ "/" +:+ y /\
    snd <$> Str.rsplit1 "." x = snd <$> Str.rsplit1 "." y.

(** The components [Path] keeps. *)
Definition kept (x : string) : Prop := x <> "" /\ x <> ".".

(** The components of a path lead from [s] to the directory [loc]. *)
Definition leads_to_dir (t : gmap location node) (s : location)
    (comps : list string) (loc : location) : Prop :=
  walk t s comps = Some loc /\ node_at t loc = Some Directory.

(** The root [dir] of a run resolves to the directory [loc]. *)
Definition dir_loc (fs : filesystem) (dir : string) (loc : location) : Prop :=
  leads_to_dir (tree fs) (start fs dir) (tail (parse dir)) loc.

(** [fs'] is [fs] with some directories added: same working directory,
    nothing that existed changed or removed. *)
Definition only_dirs_added (fs fs' : filesystem) : Prop :=
  cwd fs' = cwd fs /\ grown (tree fs) (tree fs').

(** The path [traverse] computes for the entry [name] of [dir]. *)
Definition obj_relative_path (dir name : string) : string :=
  join dir (str (child (parse dir) name)).

(** A name a directory entry can have. *)
Definition valid_name (n : string) : Prop :=
  n <> "" /\ n <> "." /\ n <> ".." /\ Str.contains sep n = false.

(** Every location of the tree is made of entry names. *)
Definition wf_names (t : gmap location node) : Prop :=
  map_Forall (fun q _ => Forall valid_name q) t.

(** Every entry name of the tree is an ASCII string. *)
Definition ascii_names (t : gmap location node) : bool :=
  forallb (fun kv => forallb Str.isascii kv.1) (map_to_list t).

(** Both nothing, both a file, or both a directory. *)
Definition same_kind (a b : option node) : Prop :=
  match a, b with
  | Some (File _), Some (File _) => True
  | Some Directory, Some Directory => True
  | None, None => True
  | _, _ => False
  end.

Definition is_file (o : option node) : bool :=
  match o with
  | Some (File _) => true
  | _ => false
  end.

(** The paths of the original files the operation was called for. *)
Definition invoked (log : list event) : list string :=
  omap (fun e => match e with
                 | Invoke ctx _ => Some (original_file ctx)
                 | _ => None
                 end) log.

(** The transaction of the entry [n] of the directory path [d], whose name
    splits into [name] and [ext] at the last dot. *)
Definition child_ctx (d n name ext : string) : FileContext.t :=
  let temp := (d +:+ "/" +:+ "compressed") +:+ "/" +:+ (name +:+ "-temp." +:+ ext) in
  {| original_file := d +:+ "/" +:+ n;
     temp_file := temp;
     final_file := (d +:+ "/" +:+ "compressed") +:+ "/" +:+ n;
     original_file_name := convert_file_name (d +:+ "/" +:+ n);
     temp_file_name := convert_file_name temp |}.

(** The file system once [compressed] is ensured below [loc]. *)
Definition with_compressed (fs : filesystem) (loc : location) : filesystem :=
  match tree fs !! (loc ++ ["compressed"]) with
  | Some _ => fs
  | None => with_tree fs (<[loc ++ ["compressed"] := Directory]> (tree fs))
  end.

(** The path [r] below [P]. *)
Definition descend (P : Path) (r : list string) : Path :=
  {| root := root P; tail := tail P ++ r |}.

(** An absolute path in the form [Path] prints: a root of one or two
    slashes and components that [parse] keeps. *)
Definition normal (P : Path) : Prop :=
  (root P = "/" \/ root P = "//") /\
  Forall kept (tail P) /\ Forall (fun x => Str.contains sep x = false) (tail P).

(** The directories whose listing the run started, in order. *)
Definition visited (log : list event) : list string :=
  omap (fun e => match e with
                 | Visit d => Some d
                 | _ => None
                 end) log.

(** The name ends with the filter, case-insensitively, and has a dot for
    the constructor to split at. *)
Definition matches (format n : string) : bool :=
  Str.endswith (Str.lower n) (Str.lower format) && Str.contains "." n.

(** [q] lies strictly below [loc]. *)
Definition below (loc q : location) : Prop := exists n r, q = loc ++ n :: r.

(** The contract of a Transform Operation, for the calls a run makes
    (with the transaction [ctx] of a regular file [p], on the file system
    [fs] its construction left): it stays in its working directory,
    removes or replaces no directory, and creates, removes or replaces
    entries only at its original file and at or below its staging
    directory. *)
Definition polite {V : Type} (func : @operation V) (var1 var2 var3 : V) : Prop :=
  forall p fs0 ctx fs,
    path_isfile fs0 p = true ->
    init p fs0 = (fs, Ok ctx) ->
    cwd (func ctx var1 var2 var3 fs).1 = cwd fs /\
    (forall q, node_at (tree fs) q = Some Directory ->
               node_at (tree (func ctx var1 var2 var3 fs).1) q = Some Directory) /\
    (forall q, resolve fs (original_file ctx) <> Some q ->
               (forall s, resolve fs (dirname (temp_file ctx)) = Some s ->
                          ~ s `prefix_of` q) ->
               same_kind (node_at (tree fs) q)
                         (node_at (tree (func ctx var1 var2 var3 fs).1) q)).

(** From [fs] to [fs'] directories stayed and nothing changed kind except
    strictly below [loc]. *)
Definition confined (loc : location) (fs fs' : filesystem) : Prop :=
  cwd fs' = cwd fs /\
  (forall q, node_at (tree fs) q = Some Directory ->
             node_at (tree fs') q = Some Directory) /\
  (forall q, ~ below loc q ->
             same_kind (node_at (tree fs) q) (node_at (tree fs') q)).

(** In the tree [t0], [r] leads from [loc] to a file the run has to hand to
    the operation: a matching file, directly below [loc] unless the run is
    recursive. *)
Definition target (t0 : gmap location node) (format : string) (recursive : bool)
    (loc : location) (r : list string) : Prop :=
  exists r' n, r = r' ++ [n] /\ (recursive = true \/ r' = []) /\
    is_file (t0 !! (loc ++ r)) = true /\ matches format n = true.

(** Every non-root entry of the tree lies in a directory. *)
Definition parents_ok (t0 : gmap location node) : Prop :=
  forall q n, is_Some (t0 !! (q ++ [n])) -> node_at t0 q = Some Directory.

(** What the log of a run over the directory [P] at [loc] has to satisfy,
    for the entries whose first component is in [S]: one call per target,
    calls for targets only, and no directory listed twice. *)
Definition log_ok (t0 : gmap location node) (format : string) (recursive : bool)
    (P : Path) (loc : location) (S : string -> Prop) (log : list event) : Prop :=
  (forall n r, S n -> target t0 format recursive loc (n :: r) ->
     count_occ string_dec (invoked log) (str (descend P (n :: r))) = 1) /\
  (forall p, p ∈ invoked log ->
     exists n r, S n /\ target t0 format recursive loc (n :: r) /\
                 p = str (descend P (n :: r))) /\
  NoDup (visited log) /\
  (forall v, v ∈ visited log ->
     exists n r, S n /\ Forall valid_name (n :: r) /\ v = str (descend P (n :: r))).

(** The same for a whole run, the listing of the root included. *)
Definition run_ok (t0 : gmap location node) (format : string) (recursive : bool)
    (P : Path) (loc : location) (log : list event) : Prop :=
  (forall r, target t0 format recursive loc r ->
     count_occ string_dec (invoked log) (str (descend P r)) = 1) /\
  (forall p, p ∈ invoked log ->
     exists r, target t0 format recursive loc r /\ p = str (descend P r)) /\
  NoDup (visited log) /\
  (forall v, v ∈ visited log ->
     exists r, Forall valid_name r /\ v = str (descend P r)).

(** Enough fuel for the tree below [loc]. *)
Definition fits (t0 : gmap location node) (loc : location) (fuel : nat) : Prop :=
  (0 < fuel)%nat /\
  forall r, is_Some (t0 !! (loc ++ r)) -> (List.length r < fuel)%nat.

(** No entry named [compressed] below [loc]. *)
Definition fresh (t0 : gmap location node) (loc : location) : Prop :=
  forall r, is_Some (t0 !! (loc ++ r)) -> "compressed" ∉ r.

(** Every call that raised, on the file system it was made on, has its
    error line, with the path of the file the call was for. *)
Definition failures_logged {V : Type} (func : @operation V) (var1 var2 var3 : V)
    (log : list event) : Prop :=
  forall ctx fs1, Invoke ctx fs1 ∈ log ->
    forall e, (func ctx var1 var2 var3 fs1).2 = Some e ->
              ErrorProcessing (original_file ctx) e ∈ log.


(** Executable forms of the conditions on a tree. *)
Definition valid_nameb (n : string) : bool :=
  negb (bool_decide (n = "")) && negb (bool_decide (n = ".")) &&
  negb (bool_decide (n = "..")) && negb (Str.contains sep n).

Definition wf_namesb (t : gmap location node) : bool :=
  forallb (fun kv => forallb valid_nameb kv.1) (map_to_list t).

Definition parents_okb (t : gmap location node) : bool :=
  forallb (fun kv => match node_at t (removelast kv.1) with
                     | Some Directory => true
                     | _ => false
                     end)
          (map_to_list t).

Definition fitsb (t : gmap location node) (loc : location) (fuel : nat) : bool :=
  bool_decide (0 < fuel)%nat &&
  forallb (fun kv => negb (is_below loc kv.1) ||
                     bool_decide (List.length kv.1 - List.length loc < fuel)%nat)
          (map_to_list t).

Definition freshb (t : gmap location node) (loc : location) : bool :=
  forallb (fun kv => negb (is_below loc kv.1) ||
                     negb (bool_decide ("compressed" ∈ drop (List.length loc) kv.1)))
          (map_to_list t).

(** The failed construction for the file at [p] was logged. *)
Definition unpack_logged (p : string) (log : list event) : Prop :=
  exists msg, ErrorProcessing p (ValueError msg) ∈ log.

(** A call of the operation is for a path that ends with the filter, with
    the transaction the constructor built for that path, on the file system
    the constructor left. *)
Definition handed_ok (format : string) (e : event) : Prop :=
  match e with
  | Invoke ctx fs1 =>
      Str.endswith (Str.lower (original_file ctx)) (Str.lower format) = true /\
      exists fs0, init (original_file ctx) fs0 = (fs1, Ok ctx)
  | _ => True
  end.

(** Where the files of the search directory [subdir] lie below the base. *)
Definition subloc (subdir : string) : location :=
  if bool_decide (subdir = "") then [] else [subdir].

(** In [fs], below the base directory at [bloc]: the file [n] with the
    data [x] lies in one of the search directories, and its stem is, up to
    case, the stem of a regular file of an [export] directory below
    [raw]. *)
Definition copied_from (fs : filesystem) (bloc : location) (n x : string) : Prop :=
  exists subdir e m y,
    subdir ∈ featured.IMAGE_SUBDIRS /\
    tree fs !! (bloc ++ subloc subdir ++ [n]) = Some (File x) /\
    Str.lower e = "export" /\
    tree fs !! (bloc ++ ["raw"; e]) = Some Directory /\
    tree fs !! (bloc ++ ["raw"; e; m]) = Some (File y) /\
    Str.lower (featured.stem m) = Str.lower (featured.stem n) /\
    Str.starts_with_char "." (Str.lower (featured.stem n)) = false.

(** A file of the list to copy, as the loop finds it in [fs]; [Src] tells
    where name and data come from. *)
Definition ready (Src : string -> string -> Prop) (fs : filesystem) (f : Path) : Prop :=
  valid_name (featured.name f) /\
  exists sloc x, resolve fs (str f) = Some sloc /\
                 node_at (tree fs) sloc = Some (File x) /\ Src (featured.name f) x.

(** One step of what a run does to the file system: the constructor at
    work for a regular file [p] that ends with the filter, or a call of
    the operation with a transaction [ctx] on the file system [fs] that
    the construction of [ctx] left. *)
Inductive engine_step {V : Type} (format : string) (func : @operation V)
    (var1 var2 var3 : V) : filesystem -> filesystem -> Prop :=
  | staging_step (p : string) (fs : filesystem) :
      path_isfile fs p = true ->
      Str.endswith (Str.lower p) (Str.lower format) = true ->
      engine_step format func var1 var2 var3 fs (init p fs).1
  | operation_step (p : string) (fs0 fs : filesystem) (ctx : FileContext.t) :
      init p fs0 = (fs, Ok ctx) ->
      engine_step format func var1 var2 var3 fs (func ctx var1 var2 var3 fs).1.

End spec.

(** * Concrete file systems *)

Module examples.
Import os.

(** [/d/clip.MOV] alone. *)
Definition fs_clip : filesystem :=
  {| tree := list_to_map [(["d"], Directory); (["d"; "clip.MOV"], File "raw")];
     cwd := [] |}.

(** [/d/clip.MOV] next to a regular file named [compressed]. *)
Definition fs_blocked : filesystem :=
  {| tree := list_to_map [(["d"], Directory); (["d"; "clip.MOV"], File "raw");
                          (["d"; "compressed"], File "notes")];
     cwd := [] |}.

(** An operation that does nothing and never raises. *)
Definition noop : @operation unit := fun _ _ _ _ fs => (fs, None).

(** Working directory [/home] with [a/x.mp4] and [a/a/x.mp4] below it. *)
Definition fs_nested : filesystem :=
  {| tree := list_to_map [(["home"], Directory); (["home"; "a"], Directory);
                          (["home"; "a"; "x.mp4"], File "outer");
                          (["home"; "a"; "a"], Directory);
                          (["home"; "a"; "a"; "x.mp4"], File "inner")];
     cwd := ["home"] |}.
(** Working directory [/home] with the single file [a/x.mp4] below it. *)
Definition fs_relative : filesystem :=
  {| tree := list_to_map [(["home"], Directory); (["home"; "a"], Directory);
                          (["home"; "a"; "x.mp4"], File "clip")];
     cwd := ["home"] |}.

(** Working directory [/home] with [a/A.mp4] and [a/B.mp4] below it. *)
Definition fs_relative_pair : filesystem :=
  {| tree := list_to_map [(["home"], Directory); (["home"; "a"], Directory);
                          (["home"; "a"; "A.mp4"], File "first");
                          (["home"; "a"; "B.mp4"], File "second")];
     cwd := ["home"] |}.

(** Working directory [/home] with [a/x.mp4] and [a/sub/y.mp4] below it. *)
Definition fs_relative_deep : filesystem :=
  {| tree := list_to_map [(["home"], Directory); (["home"; "a"], Directory);
                          (["home"; "a"; "x.mp4"], File "top");
                          (["home"; "a"; "sub"], Directory);
                          (["home"; "a"; "sub"; "y.mp4"], File "deep")];
     cwd := ["home"] |}.

(** [/d] with two clips, a text file and a subdirectory with a third clip. *)
Definition fs_batch : filesystem :=
  {| tree := list_to_map [(["d"], Directory); (["d"; "a.mp4"], File "first");
                          (["d"; "B.MP4"], File "second");
                          (["d"; "notes.txt"], File "text");
                          (["d"; "sub"], Directory);
                          (["d"; "sub"; "c.mp4"], File "third")];
     cwd := [] |}.

(** [/d/README] alone. *)
Definition fs_readme : filesystem :=
  {| tree := list_to_map [(["d"], Directory); (["d"; "README"], File "text")];
     cwd := [] |}.

(** [/d/sub/README] alone. *)
Definition fs_deep : filesystem :=
  {| tree := list_to_map [(["d"], Directory); (["d"; "sub"], Directory);
                          (["d"; "sub"; "README"], File "text")];
     cwd := [] |}.

(** An operation that raises for the file at [p] and does nothing else. *)
Definition fails_on (p : string) : @operation unit :=
  fun ctx _ _ _ fs =>
    (fs, if bool_decide (FileContext.original_file ctx = p)
         then Some (OperationError "encoder failed") else None).

(** [/d/clip.MOV] with the staged output [/d/compressed/clip-temp.MOV]. *)
Definition fs_staged : filesystem :=
  {| tree := list_to_map [(["d"], Directory); (["d"; "clip.MOV"], File "raw");
                          (["d"; "compressed"], Directory);
                          (["d"; "compressed"; "clip-temp.MOV"], File "encoded")];
     cwd := [] |}.

(** An operation that discards the original file and never raises. *)
Definition discard : @operation unit :=
  fun ctx _ _ _ fs => ((FileContext.delete_original_file ctx fs).1, None).

(** Working directory [/home] with the single file [x.mp4] in it. *)
Definition fs_here : filesystem :=
  {| tree := list_to_map [(["home"], Directory); (["home"; "x.mp4"], File "clip")];
     cwd := ["home"] |}.

(** A compressor that does nothing. *)
Definition noop_compress : @operation (option string) := fun _ _ _ _ fs => (fs, None).

(** A shoot: two exported raws, their jpegs in two places, one extra. *)
Definition fs_shoot : filesystem :=
  {| tree := list_to_map
       [(["p"], Directory); (["p"; "raw"], Directory);
        (["p"; "raw"; "Export"], Directory);
        (["p"; "raw"; "Export"; "IMG_1.dng"], File "r1");
        (["p"; "raw"; "Export"; "img_2.DNG"], File "r2");
        (["p"; "raw"; "Export"; ".DS_Store"], File "junk");
        (["p"; "IMG_1.jpg"], File "base1");
        (["p"; "IMG_3.jpg"], File "base3");
        (["p"; "jpg"], Directory);
        (["p"; "jpg"; "IMG_1.jpg"], File "sub1");
        (["p"; "jpg"; "IMG_2.JPG"], File "sub2")];
     cwd := [] |}.
End examples.

(** * Properties *)

(** ** Strings and paths *)

Section StringFacts.

Lemma append_cons (a : ascii) (s t : string) :
  String a s +:+ t = String a (s +:+ t).
Proof. reflexivity. Qed.

Lemma append_nil_l (s : string) : "" +:+ s = s.
Proof. reflexivity. Qed.

Lemma append_nil_r (s : string) : s +:+ "" = s.
Proof.
  induction s as [|a s IH]; [done|]. by rewrite append_cons, IH.
Qed.

Lemma append_assoc (x y z : string) : (x +:+ y) +:+ z = x +:+ (y +:+ z).
Proof.
  induction x as [|a x IH]; [done|]. by rewrite !append_cons, IH.
Qed.

Lemma append_eq_nil (x y : string) : x +:+ y = "" -> x = "" /\ y = "".
Proof. destruct x; [done | discriminate]. Qed.

Lemma rsplit1_none (c : ascii) (s : string) :
  Str.rsplit1 c s = None <-> Str.contains c s = false.
Proof.
  induction s as [|a s IH]; simpl; [done|].
  destruct (Str.rsplit1 c s) as [[h t]|].
  - split; [done|]. intros [_ H]%orb_false_iff. apply IH in H. done.
  - case_bool_decide; simpl; [done|]. split; [intros _; by apply IH | done].
Qed.

(** Cutting [x ++ c ++ y] at the last [c]. *)
Lemma rsplit1_app (c : ascii) (x y : string) :
  Str.rsplit1 c (x +:+ String c y) =
  match Str.rsplit1 c y with
  | Some (h, t) => Some (x +:+ String c h, t)
  | None => Some (x, y)
  end.
Proof.
  induction x as [|a x IH].
  - rewrite append_nil_l. simpl.
    destruct (Str.rsplit1 c y) as [[h t]|]; [done|].
    by rewrite bool_decide_eq_true_2.
  - rewrite append_cons. simpl. rewrite IH.
    by destruct (Str.rsplit1 c y) as [[h t]|].
Qed.

Lemma endswith_char_app (c : ascii) (x y : string) :
  y <> "" -> Str.endswith (x +:+ y) (String c "") = Str.endswith y (String c "").
Proof.
  intros Hy. induction x as [|a x IH]; [done|].
  rewrite append_cons. simpl.
  rewrite bool_decide_eq_false_2; [done|].
  intros [= _ H]. by apply append_eq_nil in H as [_ ?].
Qed.

Lemma endswith_refl (s : string) : Str.endswith s s = true.
Proof. destruct s; simpl; try done; by case_bool_decide. Qed.

Lemma endswith_char_snoc (c : ascii) (x : string) :
  Str.endswith (x +:+ String c "") (String c "") = true.
Proof. rewrite endswith_char_app; [apply endswith_refl | done]. Qed.

(** A string that does not end with [c] loses nothing when a trailing [c]
    is appended and stripped again. *)
Lemma rstrip_snoc (c : ascii) (s : string) :
  s <> "" -> Str.endswith s (String c "") = false ->
  Str.rstrip c (s +:+ String c "") = s /\ Str.all_char c (s +:+ String c "") = false.
Proof.
  induction s as [|a s IH]; [done|]. intros _ H. simpl in H.
  case_bool_decide as Heq; [done|].
  destruct s as [|b s].
  - rewrite append_cons, append_nil_l. simpl.
    rewrite (bool_decide_eq_true_2 (c = c)) by done.
    assert (a <> c) by (intros ->; done).
    by rewrite !bool_decide_eq_false_2.
  - destruct IH as [IH1 IH2]; [done | done |].
    rewrite append_cons. cbn [Str.rstrip Str.all_char]. rewrite IH1, IH2.
    split; [done | by rewrite andb_false_r].
Qed.

Lemma starts_with_char_app (c : ascii) (x y : string) :
  x <> "" -> Str.starts_with_char c (x +:+ y) = Str.starts_with_char c x.
Proof. by destruct x. Qed.

End StringFacts.

(** ** Derived paths of a transaction *)

Section PathFacts.

Import posixpath.

(** [dirname] and [basename] of [d/n] for a directory path [d] without a
    trailing slash and a name [n] without a slash. *)
Lemma basename_child (d n : string) :
  Str.contains sep n = false -> basename (d +:+ "/" +:+ n) = n.
Proof.
  intros Hn. unfold basename. change ("/" +:+ n) with (String sep n).
  rewrite rsplit1_app. by apply rsplit1_none in Hn as ->.
Qed.

Lemma dirname_child (d n : string) :
  d <> "" -> Str.endswith d "/" = false -> Str.contains sep n = false ->
  dirname (d +:+ "/" +:+ n) = d.
Proof.
  intros Hd He Hn. unfold dirname. change ("/" +:+ n) with (String sep n).
  rewrite rsplit1_app. apply rsplit1_none in Hn as ->. cbv beta iota zeta.
  destruct (rstrip_snoc sep d Hd He) as [H1 H2].
  change ("/") with (String sep ""). by rewrite H2, H1.
Qed.

Lemma join_plain (a b : string) :
  a <> "" -> Str.endswith a "/" = false -> Str.starts_with_char sep b = false ->
  join a b = a +:+ "/" +:+ b.
Proof.
  intros Ha He Hb. unfold join. rewrite Hb, He.
  by rewrite bool_decide_eq_false_2.
Qed.

End PathFacts.

Section MorePathFacts.
Import posixpath.

Lemma all_char_snoc (c : ascii) (s : string) :
  Str.all_char c s = true -> Str.all_char c (s +:+ String c "") = true.
Proof.
  induction s as [|a s IH]; simpl.
  - intros _. change (bool_decide (c = c) && true = true).
    by rewrite bool_decide_eq_true_2.
  - intros [Ha Hs]%andb_true_iff. by rewrite Ha, IH.
Qed.

Lemma all_char_endswith (c : ascii) (s : string) :
  Str.all_char c s = true -> s = "" \/ Str.endswith s (String c "") = true.
Proof.
  induction s as [|a s IH]; [by left|]. simpl.
  intros [Ha%bool_decide_eq_true Hs]%andb_true_iff. right. subst a.
  destruct (IH Hs) as [-> | ->]; [by rewrite bool_decide_eq_true_2|].
  by case_bool_decide.
Qed.

(** [join(dirname(d/n), m)] is [d/m]: the sibling [m] of [d/n]. *)
Lemma join_dirname_child (d n m : string) :
  Str.all_char sep d = true \/ Str.endswith d "/" = false ->
  Str.contains sep n = false -> Str.starts_with_char sep m = false ->
  join (dirname (d +:+ "/" +:+ n)) m = d +:+ "/" +:+ m.
Proof.
  intros Hd Hn Hm.
  destruct (Str.all_char sep d) eqn:Hall.
  - unfold dirname. change ("/" +:+ n) with (String sep n).
    rewrite rsplit1_app. apply rsplit1_none in Hn as ->. cbv beta iota zeta.
    change "/" with (String sep "").
    rewrite (all_char_snoc _ _ Hall).
    unfold join. rewrite Hm, endswith_char_snoc, orb_true_r.
    by rewrite append_assoc.
  - destruct Hd as [Hd|Hd]; [done|].
    rewrite dirname_child; [| by intros -> | done | done].
    apply join_plain; [by intros -> | done | done].
Qed.

Lemma endswith_slash_child (d n : string) :
  n <> "" -> Str.endswith n "/" = false -> Str.endswith (d +:+ "/" +:+ n) "/" = false.
Proof.
  intros Hn He. rewrite <- append_assoc.
  rewrite (endswith_char_app sep); done.
Qed.

End MorePathFacts.

(** ** Path resolution *)

Section ResolveFacts.
Import os.

Lemma split_nonempty (c : ascii) (s : string) : Str.split c s <> [].
Proof.
  destruct s as [|a s]; simpl; [done|].
  case_bool_decide; [done|]. by destruct (Str.split c s).
Qed.

Lemma split_app (c : ascii) (x y : string) :
  Str.split c (x +:+ String c y) = Str.split c x ++ Str.split c y.
Proof.
  induction x as [|a x IH].
  - rewrite append_nil_l. simpl. by rewrite bool_decide_eq_true_2.
  - rewrite append_cons. simpl. rewrite IH.
    case_bool_decide; [done|].
    pose proof (split_nonempty c x). by destruct (Str.split c x).
Qed.

Lemma split_plain (c : ascii) (n : string) :
  Str.contains c n = false -> Str.split c n = [n].
Proof.
  induction n as [|a n IH]; simpl; [done|].
  intros [Ha Hn]%orb_false_iff. rewrite Ha, IH; done.
Qed.

Lemma walk_app t cur xs ys :
  walk t cur (xs ++ ys) = walk t cur xs ≫= fun loc => walk t loc ys.
Proof.
  revert cur. induction xs as [|c xs IH]; intros cur; simpl; [done|].
  destruct (node_at t cur) as [[]|]; simpl; auto.
Qed.

(** A walk keeps succeeding when directories stay directories. *)
Lemma walk_mono t t' cur comps loc :
  (forall q, node_at t q = Some Directory -> node_at t' q = Some Directory) ->
  walk t cur comps = Some loc -> walk t' cur comps = Some loc.
Proof.
  intros Hm. revert cur. induction comps as [|c cs IH]; intros cur; simpl; [done|].
  destruct (node_at t cur) as [[]|] eqn:E; try done.
  rewrite (Hm _ E). apply IH.
Qed.

Lemma walk_start_node t cur comps loc :
  walk t cur comps = Some loc -> is_Some (node_at t loc) -> is_Some (node_at t cur).
Proof.
  destruct comps as [|c cs]; simpl; [by intros [= ->]|].
  destruct (node_at t cur) as [[]|]; done.
Qed.

Lemma step_named cur c : named c = true -> step cur c = cur ++ [c].
Proof.
  unfold named, step. intros [H1 H2]%andb_true_iff.
  apply negb_true_iff in H1, H2. by rewrite H1, H2.
Qed.

Lemma node_at_insert_ne t k q x :
  k <> q -> k <> [] -> node_at (<[k := x]> t) q = node_at t q.
Proof.
  intros Hne Hk. destruct q; simpl; [done|]. by rewrite lookup_insert_ne.
Qed.

Lemma node_at_insert t k x : k <> [] -> node_at (<[k := x]> t) k = Some x.
Proof. intros Hk. destruct k; [done|]. simpl. by rewrite lookup_insert_eq. Qed.

Lemma node_at_snoc t cur c : node_at t (cur ++ [c]) = t !! (cur ++ [c]).
Proof. by destruct cur. Qed.

End ResolveFacts.

(** ** Creating directories *)

Section MakedirsFacts.
Import os spec.

Lemma grown_refl t : grown t t.
Proof. intros q. by left. Qed.

Lemma grown_trans t1 t2 t3 : grown t1 t2 -> grown t2 t3 -> grown t1 t3.
Proof.
  intros H12 H23 q. destruct (H12 q) as [E|[E1 E2]], (H23 q) as [F|[F1 F2]].
  - left. congruence.
  - right. split; congruence.
  - right. split; congruence.
  - congruence.
Qed.

Lemma grown_insert t k :
  node_at t k = None -> grown t (<[k := Directory]> t).
Proof.
  intros Hk q. assert (k <> []) by (by intros ->).
  destruct (decide (k = q)) as [<-|Hne].
  - right. by rewrite node_at_insert.
  - left. by apply node_at_insert_ne.
Qed.

Lemma grown_keeps t t' q x : grown t t' -> node_at t q = Some x -> node_at t' q = Some x.
Proof. intros H E. destruct (H q) as [->|[? ?]]; congruence. Qed.

Lemma grown_file t t' q d :
  grown t t' -> node_at t' q = Some (File d) -> node_at t q = Some (File d).
Proof. intros H E. destruct (H q) as [<-|[? ?]]; congruence. Qed.

Lemma makedirs_walk_grown p t cur made comps t' r :
  makedirs_walk p t cur made comps = (t', r) -> grown t t'.
Proof.
  revert t cur made. induction comps as [|c cs IH]; intros t cur made; simpl.
  - intros [= <- _]. apply grown_refl.
  - destruct (node_at t cur) as [[]|]; try (intros [= <- _]; apply grown_refl).
    destruct (named c).
    + destruct (node_at t (cur ++ [c])) eqn:E; [apply IH|].
      intros H%IH. eapply grown_trans; [|exact H]. by apply grown_insert.
    + apply IH.
Qed.

(** A successful walk ends in a directory that the resolution of the same
    components reaches. *)
Lemma makedirs_walk_ok p t cur made comps t' :
  makedirs_walk p t cur made comps = (t', Ok tt) ->
  (made = true -> node_at t cur = Some Directory) ->
  exists loc, walk t' cur comps = Some loc /\ node_at t' loc = Some Directory.
Proof.
  revert t cur made. induction comps as [|c cs IH]; intros t cur made; simpl.
  - destruct made; [|done]. intros [= <-] H. eauto.
  - destruct (node_at t cur) as [[]|] eqn:Ecur; try done.
    intros Hw Hmade.
    assert (Hcur : node_at t' cur = Some Directory).
    { eapply grown_keeps; [|exact Ecur]. revert Hw.
      destruct (named c); [destruct (node_at t (cur ++ [c])) eqn:E|];
        intros Hw; try (by eapply makedirs_walk_grown).
      eapply grown_trans; [|by eapply makedirs_walk_grown].
      by apply grown_insert. }
    rewrite Hcur. destruct (named c) eqn:Hn.
    + rewrite (step_named _ _ Hn).
      destruct (node_at t (cur ++ [c])) eqn:E.
      * eapply IH; [exact Hw | done].
      * eapply IH; [exact Hw |]. intros _. apply node_at_insert.
        by destruct cur.
    + eapply IH; [exact Hw|]. intros [Hm Hc]%andb_true_iff.
      apply negb_true_iff, bool_decide_eq_false in Hc.
      unfold step. unfold named in Hn.
      rewrite (bool_decide_eq_false_2 (c = "..")) in * by done.
      rewrite andb_true_r in Hn. apply negb_false_iff in Hn. rewrite Hn. auto.
Qed.

(** Along a path that exists already nothing is created. *)
Lemma makedirs_walk_follow p t cur made xs ys loc :
  walk t cur xs = Some loc -> is_Some (node_at t loc) ->
  exists made', makedirs_walk p t cur made (xs ++ ys) = makedirs_walk p t loc made' ys.
Proof.
  revert cur made. induction xs as [|c xs IH]; intros cur made; simpl.
  - intros [= ->] _. eauto.
  - destruct (node_at t cur) as [[]|] eqn:Ecur; try done. intros Hw Hloc.
    pose proof (walk_start_node _ _ _ _ Hw Hloc) as [x Hx].
    destruct (named c) eqn:Hn.
    + rewrite (step_named _ _ Hn) in *. rewrite Hx. by apply IH.
    + by apply IH.
Qed.

End MakedirsFacts.

(** ** Entries of an existing directory *)

Section ChildFacts.
Import os spec posixpath.

Lemma start_child fs d x : start fs (d +:+ "/" +:+ x) = start fs (d +:+ "/").
Proof. unfold start. by destruct d. Qed.

Lemma split_child d n :
  Str.split sep (d +:+ "/" +:+ n) = Str.split sep d ++ Str.split sep n.
Proof. change ("/" +:+ n) with (String sep n). apply split_app. Qed.

Lemma isdir_slash fs d :
  path_isdir fs (d +:+ "/") = true <-> exists loc, resolves_dir fs d loc.
Proof.
  unfold path_isdir, stat, resolve, resolves_dir.
  rewrite bool_decide_eq_false_2 by (by destruct d).
  change "/" with (String sep "") at 2. rewrite split_app. simpl Str.split.
  rewrite walk_app.
  destruct (walk (tree fs) (start fs (d +:+ "/")) (Str.split sep d)) as [loc|];
    simpl; [|split; [done | by intros (? & ? & ?)]].
  destruct (node_at (tree fs) loc) as [[]|] eqn:E; simpl.
  - split; [done|]. intros (? & [= <-] & ?). congruence.
  - unfold step. simpl. rewrite E. split; [eauto|done].
  - split; [done|]. intros (? & [= <-] & ?). congruence.
Qed.

Lemma resolve_child fs d loc n :
  resolves_dir fs d loc -> Str.contains sep n = false ->
  resolve fs (d +:+ "/" +:+ n) = Some (step loc n).
Proof.
  intros [Hw Hd] Hn. unfold resolve.
  rewrite bool_decide_eq_false_2 by (by destruct d).
  rewrite split_child, walk_app, (start_child fs d n).
  rewrite Hw. simpl. rewrite (split_plain _ _ Hn). simpl. by rewrite Hd.
Qed.

Lemma stat_child fs d loc n :
  resolves_dir fs d loc -> Str.contains sep n = false -> named n = true ->
  stat fs (d +:+ "/" +:+ n) = tree fs !! (loc ++ [n]).
Proof.
  intros Hr Hn Hnamed. unfold stat. rewrite (resolve_child _ _ _ _ Hr Hn). simpl.
  by rewrite (step_named _ _ Hnamed), node_at_snoc.
Qed.

(** What the constructor's [if not exists: makedirs] does next to an
    existing directory: the entry [m] is there afterwards, created as a
    directory if it was missing. *)
Lemma ensure_dir fs d loc m :
  resolves_dir fs d loc -> Str.contains sep m = false -> named m = true ->
  (if negb (path_exists fs (d +:+ "/" +:+ m))
   then makedirs (d +:+ "/" +:+ m) fs else (fs, Ok tt)) =
  match tree fs !! (loc ++ [m]) with
  | Some _ => (fs, Ok tt)
  | None => (with_tree fs (<[loc ++ [m] := Directory]> (tree fs)), Ok tt)
  end.
Proof.
  intros Hr Hm Hnamed. unfold path_exists.
  rewrite (stat_child _ _ _ _ Hr Hm Hnamed).
  destruct (tree fs !! (loc ++ [m])) as [x|] eqn:E.
  - by rewrite bool_decide_eq_true_2.
  - rewrite bool_decide_eq_false_2 by (by intros [? ?]). simpl.
    unfold makedirs. rewrite bool_decide_eq_false_2 by (by destruct d).
    rewrite split_child.
    destruct Hr as [Hw Hd].
    rewrite (split_plain _ _ Hm).
    destruct (makedirs_walk_follow (d +:+ "/" +:+ m) (tree fs)
                (start fs (d +:+ "/" +:+ m)) false (Str.split sep d) [m] loc)
      as [made' ->]; [by rewrite (start_child fs d m) | by rewrite Hd |].
    simpl. rewrite Hd, Hnamed, node_at_snoc, E. done.
Qed.

End ChildFacts.

(** ** Staging and final path *)

Section TransactionFacts.
Import os spec posixpath FileContext.

Lemma contains_app c x y :
  Str.contains c (x +:+ y) = Str.contains c x || Str.contains c y.
Proof.
  induction x as [|a x IH]; [done|]. rewrite append_cons. simpl.
  by rewrite IH, orb_assoc.
Qed.

Lemma rsplit1_recompose c s h t :
  Str.rsplit1 c s = Some (h, t) ->
  s = h +:+ String c t /\ Str.contains c t = false.
Proof.
  revert h. induction s as [|a s IH]; intros h; simpl; [done|].
  destruct (Str.rsplit1 c s) as [[h' t']|] eqn:E.
  - intros [= <- <-]. destruct (IH h' eq_refl) as [-> ?]. done.
  - case_bool_decide; [|done]. intros [= <- <-]. subst a.
    split; [done | by apply rsplit1_none].
Qed.

Lemma contains_starts c n :
  Str.contains c n = false -> Str.starts_with_char c n = false.
Proof. destruct n; simpl; [done|]. by intros [? ?]%orb_false_iff. Qed.

Lemma basename_no_sep p : Str.contains sep (basename p) = false.
Proof.
  unfold basename. destruct (Str.rsplit1 sep p) as [[h t]|] eqn:E.
  - by apply rsplit1_recompose in E as [_ ?].
  - by apply rsplit1_none.
Qed.

Lemma rsplit_head_no_sep s :
  Str.contains sep s = false -> Str.contains sep (rsplit_head s) = false.
Proof.
  unfold rsplit_head. destruct (Str.rsplit1 "." s) as [[h t]|] eqn:E; [|done].
  apply rsplit1_recompose in E as [-> _]. rewrite contains_app.
  by intros [? _]%orb_false_iff.
Qed.

(** A name put below a directory path that does not end with a slash. *)
Lemma join_below (cd x : string) :
  cd <> "" -> Str.endswith cd "/" = false -> Str.contains sep x = false ->
  join cd x = cd +:+ "/" +:+ x.
Proof. intros. apply join_plain; auto using contains_starts. Qed.

Lemma join_compressed a :
  let cd := join a "compressed" in cd <> "" /\ Str.endswith cd "/" = false.
Proof.
  unfold join. simpl Str.starts_with_char. cbv iota.
  destruct (bool_decide (a = "") || Str.endswith a "/").
  - split; [by destruct a|]. by rewrite (endswith_char_app sep).
  - split; [by destruct a|]. rewrite <- append_assoc.
    by rewrite (endswith_char_app sep).
Qed.

Lemma init_ok p fs fs' ctx :
  init p fs = (fs', Ok ctx) ->
  exists name format,
    Str.rsplit1 "." (basename p) = Some (name, format) /\
    let cd := join (dirname p) "compressed" in
    ctx = {| original_file := p;
             temp_file := join cd (name +:+ "-temp." +:+ format);
             final_file := join cd (basename p);
             original_file_name := convert_file_name p;
             temp_file_name := convert_file_name (join cd (name +:+ "-temp." +:+ format)) |}.
Proof.
  unfold init. destruct (Str.rsplit1 "." (basename p)) as [[name format]|]; [|done].
  destruct (if negb _ then _ else _) as [fs1 [[]|e]]; [|done].
  intros [= _ <-]. eauto.
Qed.

Lemma init_staged p fs fs' ctx :
  init p fs = (fs', Ok ctx) -> staged (join (dirname p) "compressed") ctx.
Proof.
  intros (name & format & Hrs & ->)%init_ok.
  destruct (join_compressed (dirname p)) as [Hcd He].
  split; [done|]. split; [done|].
  pose proof (basename_no_sep p) as Hb.
  destruct (rsplit1_recompose _ _ _ _ Hrs) as [Hn Hf].
  assert (Hx : Str.contains sep (name +:+ "-temp." +:+ format) = false).
  { rewrite Hn in Hb. rewrite contains_app in Hb. simpl in Hb.
    apply orb_false_iff in Hb as [Hb1 Hb2].
    rewrite !contains_app, Hb1. simpl. done. }
  exists (name +:+ "-temp." +:+ format), (basename p). simpl.
  split; [done|]. split; [done|].
  split; [by apply join_below|]. split; [by apply join_below|].
  rewrite Hrs.
  replace (name +:+ "-temp." +:+ format)
    with ((name +:+ "-temp") +:+ String "." format)
    by (by rewrite append_assoc).
  rewrite rsplit1_app. by apply rsplit1_none in Hf as ->.
Qed.

Lemma set_format_paths cd ctx x fmt :
  cd <> "" -> Str.endswith cd "/" = false -> Str.contains sep x = false ->
  Str.contains sep fmt = false ->
  temp_file ctx = cd +:+ "/" +:+ x ->
  temp_file (set_format ctx fmt) = cd +:+ "/" +:+ (rsplit_head x +:+ "." +:+ fmt) /\
  final_file (set_format ctx fmt) =
    cd +:+ "/" +:+ (rsplit_head (basename (original_file ctx)) +:+ "." +:+ fmt).
Proof.
  intros Hcd He Hx Hf Ht. unfold set_format. simpl. rewrite Ht.
  rewrite basename_child, dirname_child by done.
  split; apply join_below; try done; rewrite !contains_app; simpl; rewrite Hf.
  - by rewrite rsplit_head_no_sep.
  - by rewrite rsplit_head_no_sep by apply basename_no_sep.
Qed.

Lemma set_format_staged cd ctx fmt :
  Str.contains sep fmt = false -> staged cd ctx -> staged cd (set_format ctx fmt).
Proof.
  intros Hf (Hcd & He & x & y & Hx & Hy & Ht & _ & _).
  destruct (set_format_paths cd ctx x fmt Hcd He Hx Hf Ht) as [H1 H2].
  split; [done|]. split; [done|].
  eexists _, _. split; [|split; [|split; [exact H1|split; [exact H2|]]]].
  - rewrite !contains_app. simpl. by rewrite Hf, rsplit_head_no_sep.
  - rewrite !contains_app. simpl.
    by rewrite Hf, rsplit_head_no_sep by apply basename_no_sep.
  - change ("." +:+ fmt) with (String "." fmt). rewrite !rsplit1_app.
    by destruct (Str.rsplit1 "." fmt) as [[? ?]|].
Qed.

Lemma staged_paired cd ctx : staged cd ctx -> paired ctx.
Proof.
  intros (Hcd & He & x & y & Hx & Hy & Ht & Hfin & Hext).
  unfold paired, extension. rewrite Ht, Hfin.
  by rewrite !dirname_child, !basename_child.
Qed.

End TransactionFacts.

(** ** The transaction's paths (C4, C5, C6, C8) *)

Section TransactionTheorems.
Import os spec posixpath FileContext.

Lemma resolves_dir_grown fs fs' d loc :
  grown (tree fs) (tree fs') -> cwd fs' = cwd fs ->
  resolves_dir fs d loc -> resolves_dir fs' d loc.
Proof.
  intros Hg Hc [Hw Hd]. split; [|by eapply grown_keeps].
  unfold start in *. rewrite Hc.
  eapply walk_mono; [|exact Hw]. intros q. by apply grown_keeps.
Qed.

Lemma init_clip fs dir loc :
  Str.endswith dir "/" = false -> resolves_dir fs dir loc ->
  init (dir +:+ "/clip.MOV") fs =
  (match tree fs !! (loc ++ ["compressed"]) with
   | Some _ => fs
   | None => with_tree fs (<[loc ++ ["compressed"] := Directory]> (tree fs))
   end,
   Ok {| original_file := dir +:+ "/clip.MOV";
         temp_file := dir +:+ "/compressed/clip-temp.MOV";
         final_file := dir +:+ "/compressed/clip.MOV";
         original_file_name := convert_file_name (dir +:+ "/clip.MOV");
         temp_file_name := convert_file_name (dir +:+ "/compressed/clip-temp.MOV") |}).
Proof.
  intros He Hr. unfold init.
  change (dir +:+ "/clip.MOV") with (dir +:+ "/" +:+ "clip.MOV").
  rewrite basename_child by done.
  change (Str.rsplit1 "." "clip.MOV") with (Some ("clip", "MOV")). cbv beta iota zeta.
  rewrite join_dirname_child by auto.
  rewrite (ensure_dir fs dir loc "compressed" Hr) by done.
  assert (Hj : forall x, Str.contains sep x = false ->
            join (dir +:+ "/" +:+ "compressed") x = dir +:+ "/compressed/" +:+ x).
  { intros x Hx. rewrite join_below; [| by destruct dir | by apply endswith_slash_child | done].
    by rewrite !append_assoc. }
  rewrite !Hj by done.
  by destruct (tree fs !! (loc ++ ["compressed"])).
Qed.

(** Constructing a File Transaction for [<dir>/clip.MOV], where [<dir>] is
    an existing directory written without a trailing slash, returns with
    staging path [<dir>/compressed/clip-temp.MOV] and final path
    [<dir>/compressed/clip.MOV]; [<dir>/compressed] exists afterwards, and
    it is a directory unless a regular file of that name was there
    before. *)
Lemma FileContext_init_clip (fs : filesystem) (dir : string) :
  Str.endswith dir "/" = false ->
  path_isdir fs (dir +:+ "/") = true ->
  exists fs' ctx,
    init (dir +:+ "/clip.MOV") fs = (fs', Ok ctx) /\
    temp_file ctx = dir +:+ "/compressed/clip-temp.MOV" /\
    final_file ctx = dir +:+ "/compressed/clip.MOV" /\
    path_exists fs' (dir +:+ "/compressed") = true /\
    (path_isfile fs (dir +:+ "/compressed") = false ->
     path_isdir fs' (dir +:+ "/compressed") = true).
Proof.
  intros He [loc Hr]%isdir_slash.
  eexists _, _. split; [by apply init_clip|]. simpl.
  split; [done|]. split; [done|].
  change (dir +:+ "/compressed") with (dir +:+ "/" +:+ "compressed").
  unfold path_exists, path_isfile, path_isdir.
  rewrite (stat_child fs dir loc "compressed" Hr) by done.
  destruct (tree fs !! (loc ++ ["compressed"])) as [x|] eqn:E.
  - rewrite (stat_child fs dir loc "compressed" Hr), E by done.
    split; [by rewrite bool_decide_eq_true_2|]. by destruct x.
  - set (fs' := with_tree fs _).
    assert (Hr' : resolves_dir fs' dir loc).
    { apply (resolves_dir_grown fs fs' dir loc); [|done|exact Hr].
      apply grown_insert. by rewrite node_at_snoc. }
    rewrite (stat_child fs' dir loc "compressed" Hr') by done.
    subst fs'. simpl. rewrite lookup_insert_eq.
    split; [by rewrite bool_decide_eq_true_2 | done].
Qed.

Lemma FileContext_init_clip_witness :
  exists fs' ctx,
    init "/d/clip.MOV" examples.fs_clip = (fs', Ok ctx) /\
    temp_file ctx = "/d/compressed/clip-temp.MOV" /\
    final_file ctx = "/d/compressed/clip.MOV" /\
    path_exists fs' "/d/compressed" = true /\
    (path_isfile examples.fs_clip "/d/compressed" = false ->
     path_isdir fs' "/d/compressed" = true).
Proof.
  apply (FileContext_init_clip examples.fs_clip "/d"); vm_compute; reflexivity.
Defined.

(** C4.  With a regular file named [compressed] in the way the guard
    [os.path.exists] holds, no directory is made, construction returns and
    [<dir>/compressed] is not a directory. *)
Lemma FileContext_init_compressed_file :
  exists fs' ctx,
    init "/d/clip.MOV" examples.fs_blocked = (fs', Ok ctx) /\
    temp_file ctx = "/d/compressed/clip-temp.MOV" /\
    final_file ctx = "/d/compressed/clip.MOV" /\
    path_isdir fs' "/d/compressed" = false.
Proof.
  eexists _, _. split; [apply (init_clip _ "/d" ["d"]); [done|] |].
  - split; vm_compute; reflexivity.
  - vm_compute. auto.
Qed.

(** C5.  After [set_format("mp4")] on the transaction of [<dir>/clip.MOV]
    the staging path is [<dir>/compressed/clip-temp.mp4], its escaped form
    is recomputed from it, and the final path is
    [<dir>/compressed/clip.mp4]. *)
Theorem set_format_mp4 (fs fs' : filesystem) (dir : string) (ctx : FileContext.t) :
  Str.endswith dir "/" = false ->
  init (dir +:+ "/clip.MOV") fs = (fs', Ok ctx) ->
  temp_file (set_format ctx "mp4") = dir +:+ "/compressed/clip-temp.mp4" /\
  temp_file_name (set_format ctx "mp4") =
    convert_file_name (dir +:+ "/compressed/clip-temp.mp4") /\
  final_file (set_format ctx "mp4") = dir +:+ "/compressed/clip.mp4".
Proof.
  intros He (name & format & Hrs & ->)%init_ok.
  change (dir +:+ "/clip.MOV") with (dir +:+ "/" +:+ "clip.MOV") in *.
  rewrite basename_child in Hrs by done. injection Hrs as <- <-.
  assert (Hcd : join (dirname (dir +:+ "/" +:+ "clip.MOV")) "compressed"
                = (dir +:+ "/compressed")) by (rewrite join_dirname_child; auto).
  assert (Hne : dir +:+ "/compressed" <> "") by (by destruct dir).
  assert (Hns : Str.endswith (dir +:+ "/compressed") "/" = false)
    by (by apply (endswith_slash_child dir "compressed")).
  cbv zeta. rewrite Hcd.
  set (c := {| original_file := _ |}).
  destruct (set_format_paths (dir +:+ "/compressed") c "clip-temp.MOV" "mp4")
    as [H1 H2]; try done.
  { subst c. simpl. by apply join_below. }
  assert (Ht : temp_file (set_format c "mp4") = dir +:+ "/compressed/clip-temp.mp4").
  { rewrite H1. by rewrite !append_assoc. }
  split; [exact Ht|]. split.
  - change (temp_file_name (set_format c "mp4"))
      with (convert_file_name (temp_file (set_format c "mp4"))).
    by rewrite Ht.
  - rewrite H2. subst c. simpl. rewrite basename_child by done.
    by rewrite !append_assoc.
Qed.

Lemma set_format_mp4_witness :
  temp_file (set_format
    {| original_file := "/d/clip.MOV";
       temp_file := "/d/compressed/clip-temp.MOV";
       final_file := "/d/compressed/clip.MOV";
       original_file_name := "/d/clip.MOV";
       temp_file_name := "/d/compressed/clip-temp.MOV" |} "mp4")
    = "/d/compressed/clip-temp.mp4" /\
  temp_file_name (set_format
    {| original_file := "/d/clip.MOV";
       temp_file := "/d/compressed/clip-temp.MOV";
       final_file := "/d/compressed/clip.MOV";
       original_file_name := "/d/clip.MOV";
       temp_file_name := "/d/compressed/clip-temp.MOV" |} "mp4")
    = convert_file_name "/d/compressed/clip-temp.mp4" /\
  final_file (set_format
    {| original_file := "/d/clip.MOV";
       temp_file := "/d/compressed/clip-temp.MOV";
       final_file := "/d/compressed/clip.MOV";
       original_file_name := "/d/clip.MOV";
       temp_file_name := "/d/compressed/clip-temp.MOV" |} "mp4")
    = "/d/compressed/clip.mp4".
Proof.
  apply (set_format_mp4 examples.fs_clip
           (with_tree examples.fs_clip
              (<[["d"; "compressed"] := Directory]> (tree examples.fs_clip))) "/d");
    [reflexivity | vm_compute; reflexivity].
Defined.

Lemma foldl_set_format_staged cd formats ctx :
  Forall (fun f => Str.contains sep f = false) formats ->
  staged cd ctx -> staged cd (foldl set_format ctx formats).
Proof.
  intros Hf. revert ctx. induction Hf as [|f fs Hf _ IH]; intros ctx Hs; simpl.
  - done.
  - apply IH. by apply set_format_staged.
Qed.

(** C6 (amended).  Right after construction, and after any sequence of
    [set_format] calls whose formats contain no slash, the staging path and
    the final path have the same parent directory and the same extension. *)
Theorem paired_after_set_format (fs fs' : filesystem) (p : string)
    (ctx : FileContext.t) (formats : list string) :
  init p fs = (fs', Ok ctx) ->
  Forall (fun f => Str.contains sep f = false) formats ->
  paired (foldl set_format ctx formats).
Proof.
  intros Hi Hf. eapply staged_paired, foldl_set_format_staged; [done|].
  by eapply init_staged.
Qed.

Lemma paired_after_set_format_witness :
  paired (foldl set_format
    {| original_file := "/d/clip.MOV";
       temp_file := "/d/compressed/clip-temp.MOV";
       final_file := "/d/compressed/clip.MOV";
       original_file_name := "/d/clip.MOV";
       temp_file_name := "/d/compressed/clip-temp.MOV" |} ["mp4"; "tar.gz"]).
Proof.
  apply (paired_after_set_format examples.fs_clip
           (with_tree examples.fs_clip
              (<[["d"; "compressed"] := Directory]> (tree examples.fs_clip)))
           "/d/clip.MOV");
    [vm_compute; reflexivity | repeat constructor].
Defined.

(** C6, as stated, fails for a format that contains a slash: the two paths
    end up in different directories. *)
Lemma set_format_slash_unpaired :
  exists fs' ctx,
    init "/d/clip.MOV" examples.fs_clip = (fs', Ok ctx) /\
    dirname (temp_file (set_format ctx "a/b")) = "/d/compressed/clip-temp.a" /\
    dirname (final_file (set_format ctx "a/b")) = "/d/compressed/clip.a" /\
    ~ paired (set_format ctx "a/b").
Proof.
  eexists _, _. split; [apply (init_clip _ "/d" ["d"]); [done|] |].
  - split; vm_compute; reflexivity.
  - split; [vm_compute; reflexivity|]. split; [vm_compute; reflexivity|].
    intros [H _]. vm_compute in H. discriminate H.
Qed.



End TransactionTheorems.

(** ** Parsed paths *)

Section PathlibFacts.
Import os spec posixpath pathlib.

Lemma leads_to_dir_start t s comps loc :
  leads_to_dir t s comps loc -> node_at t s = Some Directory.
Proof.
  intros [Hw Hd]. destruct comps as [|c cs]; simpl in Hw.
  - by injection Hw as ->.
  - by destruct (node_at t s) as [[]|].
Qed.

(** Empty and [.] components do not matter for reaching a directory. *)
Lemma leads_to_dir_filter t s comps loc :
  leads_to_dir t s comps loc <-> leads_to_dir t s (filter kept comps) loc.
Proof.
  revert s. induction comps as [|c cs IH]; intros s; [done|].
  rewrite filter_cons. destruct (decide (kept c)) as [Hk|Hk].
  - unfold leads_to_dir in *. simpl.
    destruct (node_at t s) as [[]|]; try (split; intros [? ?]; done).
    apply IH.
  - rewrite <- IH. unfold leads_to_dir. simpl.
    assert (step s c = s) as ->.
    { unfold step. rewrite bool_decide_eq_true_2; [done|].
      unfold kept in Hk. destruct (decide (c = "")); [by left|].
      destruct (decide (c = ".")); [by right|]. tauto. }
    split.
    + destruct (node_at t s) as [[]|]; try (intros [? ?]; done).
    + intros H. by rewrite (leads_to_dir_start _ _ _ _ H).
Qed.

Lemma split_no_sep c s : Forall (fun x => Str.contains c x = false) (Str.split c s).
Proof.
  induction s as [|a s IH]; simpl; [by repeat constructor|].
  case_bool_decide as Ha; [by constructor|].
  destruct (Str.split c s) as [|h l]; [by repeat constructor; simpl; rewrite bool_decide_eq_false_2|].
  inversion IH; subst. constructor; [|done]. simpl.
  by rewrite bool_decide_eq_false_2.
Qed.

Lemma split_join l :
  Forall (fun x => Str.contains sep x = false) l -> l <> [] ->
  Str.split sep (Str.join "/" l) = l.
Proof.
  induction 1 as [|x l Hx Hl IH]; [done|]. intros _.
  destruct l as [|y l].
  - by apply split_plain.
  - change (Str.join "/" (x :: y :: l)) with (x +:+ "/" +:+ Str.join "/" (y :: l)).
    rewrite split_child, (split_plain _ _ Hx), IH; done.
Qed.

Lemma tail_no_sep p : Forall (fun x => Str.contains sep x = false) (tail (parse p)).
Proof.
  unfold parse. simpl. apply Forall_forall. intros x [_ Hx]%list_elem_of_filter.
  revert x Hx. apply Forall_forall, split_no_sep.
Qed.

Lemma tail_kept p : Forall kept (tail (parse p)).
Proof.
  unfold parse. simpl. apply Forall_forall. by intros x [Hx _]%list_elem_of_filter.
Qed.

Lemma splitroot_cases p :
  (splitroot p = "" /\ Str.starts_with_char sep p = false) \/
  ((splitroot p = "/" \/ splitroot p = "//") /\ Str.starts_with_char sep p = true).
Proof.
  destruct p as [|a p]; [by left|]. simpl.
  destruct (decide (a = sep)) as [->|Hne].
  - right. split; [|done].
    destruct p as [|b p]; [by left|].
    destruct (decide (b = sep)) as [->|Hb].
    + destruct p as [|c p]; [by right|].
      destruct (decide (c = sep)) as [->|Hc]; [by left|].
      right. unfold sep in *.
      destruct c as [[] [] [] [] [] [] [] []]; done.
    + left. unfold sep in *. destruct b as [[] [] [] [] [] [] [] []]; done.
  - left. rewrite bool_decide_eq_false_2 by done. split; [|done].
    unfold sep in *. destruct a as [[] [] [] [] [] [] [] []]; done.
Qed.

Lemma join_kept_nonempty l :
  Forall kept l -> l <> [] ->
  Str.join "/" l <> "" /\ (Forall (fun x => Str.contains sep x = false) l ->
                          Str.starts_with_char sep (Str.join "/" l) = false).
Proof.
  intros Hl Hne. destruct Hl as [|x l [Hx _] _]; [done|].
  assert (Hj : exists r, Str.join "/" (x :: l) = x +:+ r).
  { destruct l; [exists ""; by rewrite append_nil_r | by eexists]. }
  destruct Hj as [r ->]. split; [by destruct x|].
  intros Hs. inversion Hs as [|? ? Hxs _]; subst.
  rewrite starts_with_char_app by done. by apply contains_starts.
Qed.

(** Printing a parsed path and splitting it again gives the kept
    components back, behind the empty components of the root. *)
Lemma split_str_parse dir :
  filter kept (Str.split sep (str (parse dir))) = tail (parse dir) /\
  Str.starts_with_char sep (str (parse dir)) = Str.starts_with_char sep dir /\
  str (parse dir) <> "".
Proof.
  pose proof (tail_kept dir) as Hk. pose proof (tail_no_sep dir) as Hs.
  assert (Hf : filter kept (tail (parse dir)) = tail (parse dir)).
  { clear Hs. induction Hk as [|x l Hx Hl IH]; [done|].
    by rewrite filter_cons_True, IH. }
  unfold str. change (root (parse dir)) with (splitroot dir).
  destruct (decide (tail (parse dir) = [])) as [He|Hne].
  - rewrite He. simpl Str.join. rewrite append_nil_r.
    destruct (splitroot_cases dir) as [[-> ->]|[[->| ->] ->]]; done.
  - destruct (join_kept_nonempty _ Hk Hne) as [Hj1 Hj2]. specialize (Hj2 Hs).
    destruct (splitroot_cases dir) as [[-> ->]|[[->| ->] ->]].
    + rewrite append_nil_l, bool_decide_eq_false_2 by done.
      by rewrite split_join.
    + rewrite bool_decide_eq_false_2 by done.
      change ("/" +:+ Str.join "/" (tail (parse dir)))
        with ("" +:+ "/" +:+ Str.join "/" (tail (parse dir))).
      rewrite split_child, split_join by done. done.
    + rewrite bool_decide_eq_false_2 by done.
      change ("//" +:+ Str.join "/" (tail (parse dir)))
        with ("/" +:+ "/" +:+ Str.join "/" (tail (parse dir))).
      rewrite split_child, split_join by done. done.
Qed.

Lemma start_str_parse fs dir : start fs (str (parse dir)) = start fs dir.
Proof.
  unfold start. by destruct (split_str_parse dir) as (_ & -> & _).
Qed.

Lemma path_isdir_iff fs p :
  p <> "" ->
  path_isdir fs p = true <->
  exists loc, leads_to_dir (tree fs) (start fs p) (Str.split sep p) loc.
Proof.
  intros Hp. unfold path_isdir, stat, resolve, leads_to_dir.
  rewrite bool_decide_eq_false_2 by done.
  destruct (walk _ _ _) as [loc|]; simpl.
  - destruct (node_at (tree fs) loc) as [[]|] eqn:E.
    + split; [done|]. intros (? & [= <-] & ?). congruence.
    + split; [eauto|done].
    + split; [done|]. intros (? & [= <-] & ?). congruence.
  - split; [done|]. by intros (? & ? & ?).
Qed.

(** The root of a run, as [traverse] checks it. *)
Lemma Path_is_dir_iff fs dir :
  Path_is_dir fs (parse dir) = true <-> exists loc, dir_loc fs dir loc.
Proof.
  destruct (split_str_parse dir) as (Hf & _ & Hne).
  unfold Path_is_dir. rewrite (path_isdir_iff _ _ Hne).
  unfold dir_loc. rewrite start_str_parse.
  split; intros [loc H]; exists loc.
  - apply leads_to_dir_filter in H. by rewrite Hf in H.
  - apply leads_to_dir_filter. by rewrite Hf.
Qed.

(** [Path(dir).is_dir()] agrees with [os.path.isdir(dir)], except on the
    empty string, which [Path] reads as the current directory. *)
Lemma Path_is_dir_raw fs dir :
  dir <> "" -> Path_is_dir fs (parse dir) = path_isdir fs dir.
Proof.
  intros Hd. apply eq_true_iff_eq.
  rewrite Path_is_dir_iff, (path_isdir_iff _ _ Hd). unfold dir_loc.
  split; intros [loc H]; exists loc;
    by apply (leads_to_dir_filter _ _ (Str.split sep dir)).
Qed.

Lemma dir_loc_stat fs dir loc :
  dir_loc fs dir loc ->
  resolve fs (str (parse dir)) = Some loc /\
  stat fs (str (parse dir)) = Some Directory.
Proof.
  intros H. destruct (split_str_parse dir) as (Hf & _ & Hne).
  unfold dir_loc in H. rewrite <- Hf, <- start_str_parse in H.
  apply leads_to_dir_filter in H as [Hw Hd].
  unfold stat, resolve. rewrite bool_decide_eq_false_2 by done.
  by rewrite Hw.
Qed.

End PathlibFacts.

(** ** Effects of construction and the root checks (C9, C10) *)

Section EngineEffects.
Import os spec posixpath pathlib.
Context {V : Type}.
Implicit Types (func : @operation V) (fs : filesystem).

Lemma makedirs_only_dirs p fs fs' r :
  makedirs p fs = (fs', r) -> only_dirs_added fs fs'.
Proof.
  unfold makedirs. case_bool_decide.
  - intros [= <- _]. split; [done | apply grown_refl].
  - destruct (makedirs_walk _ _ _ _ _) as [t r'] eqn:E. intros [= <- _].
    split; [done|]. by eapply makedirs_walk_grown.
Qed.

Lemma init_only_dirs p fs fs' r :
  FileContext.init p fs = (fs', r) -> only_dirs_added fs fs'.
Proof.
  unfold FileContext.init.
  destruct (Str.rsplit1 "." (basename p)) as [[name format]|].
  - destruct (negb _).
    + destruct (makedirs _ fs) as [fs1 [[]|e]] eqn:E; intros [= <- _];
        by eapply makedirs_only_dirs.
    + intros [= <- _]. split; [done | apply grown_refl].
  - intros [= <- _]. split; [done | apply grown_refl].
Qed.

(** A root other than the empty string whose lookup finds nothing, or
    finds a regular file, is reported in one line; the run returns with
    the file system untouched and without calling the operation. *)
Lemma traverse_bad_root (fuel : nat) (dir format : string)
    (func : @operation V) (var1 var2 var3 : V) (recursive : bool)
    (fs : filesystem) :
  dir <> "" ->
  path_exists fs dir = false \/ path_isdir fs dir = false ->
  exists report,
    traverse (S fuel) dir format func var1 var2 var3 recursive fs
      = Some (fs, [report]) /\
    (report = DirectoryNotFound (str (parse dir)) \/
     report = NotADirectory (str (parse dir))).
Proof.
  intros Hd H.
  assert (Hn : path_isdir fs dir = false).
  { destruct H as [H|H]; [|done]. unfold path_exists in H. unfold path_isdir.
    destruct (stat fs dir); [|done]. by rewrite bool_decide_eq_true_2 in H. }
  rewrite <- (Path_is_dir_raw _ _ Hd) in Hn. simpl.
  destruct (Path_exists fs (parse dir)); simpl; [|eauto].
  rewrite Hn. simpl. eauto.
Qed.

End EngineEffects.

Section EngineEffectsExamples.
Import os spec posixpath pathlib.


Lemma traverse_bad_root_example :
  exists report,
    traverse 1 "/nowhere" ".mp4" examples.noop tt tt tt true examples.fs_clip
      = Some (examples.fs_clip, [report]) /\
    (report = DirectoryNotFound (str (parse "/nowhere")) \/
     report = NotADirectory (str (parse "/nowhere"))).
Proof.
  apply (traverse_bad_root 0 "/nowhere" ".mp4" examples.noop tt tt tt true
           examples.fs_clip); [discriminate | left; vm_compute; reflexivity].
Defined.

(** C9.  The root [""] does not exist for [os.path.exists], yet [Path]
    reads it as the current directory: the run lists it and calls the
    operation. *)
Lemma empty_root_is_walked :
  path_exists examples.fs_here "" = false /\
  exists fs' ctx fs1,
    traverse 1 "" ".mp4" examples.noop tt tt tt false examples.fs_here
      = Some (fs', [Visit "."; Invoke ctx fs1]) /\
    FileContext.original_file ctx = "x.mp4".
Proof.
  split; [reflexivity|]. eexists _, _, _. split; [vm_compute; reflexivity|]. reflexivity.
Qed.

End EngineEffectsExamples.

(** ** The recomputed entry path (C3) *)

Section RecomputedPath.
Import os spec posixpath pathlib.
Context {V : Type}.

Lemma join_snoc l n :
  l <> [] -> Str.join "/" (l ++ [n]) = Str.join "/" l +:+ "/" +:+ n.
Proof.
  induction l as [|x l IH]; [done|]. intros _.
  destruct l as [|y l]; [done|].
  change (Str.join "/" ((x :: y :: l) ++ [n]))
    with (x +:+ "/" +:+ Str.join "/" ((y :: l) ++ [n])).
  rewrite IH by done.
  change (Str.join "/" (x :: y :: l)) with (x +:+ "/" +:+ Str.join "/" (y :: l)).
  by rewrite !append_assoc.
Qed.

Lemma root_parse dir :
  (root (parse dir) = "" /\ Str.starts_with_char sep dir = false) \/
  ((root (parse dir) = "/" \/ root (parse dir) = "//") /\
   Str.starts_with_char sep dir = true).
Proof. apply splitroot_cases. Qed.

(** The printed form of an entry [n] of an absolute or non-trivial
    directory path. *)
Lemma str_child dir n :
  tail (parse dir) <> [] ->
  str (child (parse dir) n) = str (parse dir) +:+ "/" +:+ n.
Proof.
  intros Hne. unfold str, child. cbn [root tail].
  rewrite join_snoc by done.
  destruct (join_kept_nonempty _ (tail_kept dir) Hne) as [Hj _].
  rewrite !bool_decide_eq_false_2.
  - by rewrite append_assoc.
  - intros [_ ?]%append_eq_nil. done.
  - intros [_ H]%append_eq_nil. by apply append_eq_nil in H as [? _].
Qed.

Lemma str_child_root dir n :
  tail (parse dir) = [] -> n <> "" ->
  str (child (parse dir) n) = root (parse dir) +:+ n.
Proof.
  intros He Hn. unfold str, child. cbn [root tail]. rewrite He. simpl.
  rewrite bool_decide_eq_false_2; [done|].
  intros [_ ?]%append_eq_nil. done.
Qed.

(** For an absolute root the join gives the entry's own path back. *)
Lemma obj_relative_path_absolute dir n :
  Str.starts_with_char sep dir = true ->
  obj_relative_path dir n = str (child (parse dir) n).
Proof.
  intros Ha. unfold obj_relative_path, join.
  assert (Str.starts_with_char sep (str (child (parse dir) n)) = true) as ->; [|done].
  unfold str, child. cbn [root tail].
  destruct (root_parse dir) as [[_ ?]|[[-> | ->] _]]; [congruence| |];
    by rewrite bool_decide_eq_false_2.
Qed.

(** For a relative root of at least one component the root is there twice. *)
Lemma obj_relative_path_relative dir n :
  Str.starts_with_char sep dir = false -> tail (parse dir) <> [] ->
  obj_relative_path dir n = join dir (str (parse dir)) +:+ "/" +:+ n.
Proof.
  intros Hr Hne. unfold obj_relative_path. rewrite (str_child _ _ Hne).
  destruct (split_str_parse dir) as (_ & Hs & Hnn). rewrite Hr in Hs.
  unfold join. rewrite Hs.
  rewrite starts_with_char_app by done. rewrite Hs.
  destruct (bool_decide (dir = "") || Str.endswith dir "/");
    by rewrite !append_assoc.
Qed.

Section Skipped.

Variables (dir format : string) (func : @operation V) (var1 var2 var3 : V)
          (recursive : bool).
Variable recurse : string -> filesystem -> option (filesystem * list event).

(** Entries with nothing at the recomputed path are skipped one by one. *)
Lemma visit_entries_all_gone names fs :
  Forall (fun n => path_exists fs (obj_relative_path dir n) = false) names ->
  visit_entries dir format func var1 var2 var3 recursive recurse names fs
  = Some (fs, map (fun n => SkippingGone (obj_relative_path dir n)) names).
Proof.
  induction 1 as [|n names Hn _ IH]; [done|].
  cbn [visit_entries]. unfold visit_entry at 1.
  fold (obj_relative_path dir n). rewrite Hn. simpl. rewrite IH. done.
Qed.

End Skipped.

Lemma path_isdir_exists fs p : path_isdir fs p = true -> path_exists fs p = true.
Proof.
  unfold path_isdir, path_exists. destruct (stat fs p); [|done].
  intros _. by rewrite bool_decide_eq_true_2.
Qed.

(** The path [traverse] recomputes for an entry is the join of the root
    with the entry's path, which already starts with the normalised root.
    For an absolute root this is the entry's own path.  For a relative
    root of at least one component it is [root/root/name]; when nothing
    exists at these duplicated paths every entry is skipped and the
    operation is never called. *)
Lemma recomputed_entry_path (fuel : nat) (dir format : string)
    (func : @operation V) (var1 var2 var3 : V) (recursive : bool)
    (fs : filesystem) (names : list string) :
  Path_is_dir fs (parse dir) = true ->
  listdir fs (str (parse dir)) = Ok names ->
  (Str.starts_with_char sep dir = true ->
   forall n, obj_relative_path dir n = str (child (parse dir) n)) /\
  (Str.starts_with_char sep dir = false -> tail (parse dir) <> [] ->
   (forall n, str (child (parse dir) n) = str (parse dir) +:+ "/" +:+ n /\
              obj_relative_path dir n = join dir (str (parse dir)) +:+ "/" +:+ n) /\
   (Forall (fun n => path_exists fs (join dir (str (parse dir)) +:+ "/" +:+ n) = false)
           names ->
    traverse (S fuel) dir format func var1 var2 var3 recursive fs
    = Some (fs, Visit (str (parse dir))
                  :: map (fun n => SkippingGone (join dir (str (parse dir)) +:+ "/" +:+ n))
                         names))).
Proof.
  intros Hd Hl. split; [intros Ha n; by apply obj_relative_path_absolute|].
  intros Hr Hne. split.
  { intros n. split; [by apply str_child | by apply obj_relative_path_relative]. }
  intros Hgone. simpl. unfold Path_exists.
  rewrite (path_isdir_exists _ _ Hd), Hd, Hl. simpl.
  rewrite visit_entries_all_gone.
  - simpl. do 3 f_equal. apply map_ext. intros n.
    by rewrite obj_relative_path_relative.
  - eapply Forall_impl; [exact Hgone|]. intros n Hn. simpl in Hn.
    by rewrite obj_relative_path_relative.
Qed.

End RecomputedPath.

Section RecomputedPathExamples.
Import os spec posixpath pathlib.

(** C1.  A non-recursive run over the relative root [a]: the direct child
    file [a/x.mp4] ends with the filter, is looked for at [a/a/x.mp4],
    reported as gone and never handed to the operation. *)
Lemma flat_run_relative_root :
  path_isfile examples.fs_relative "a/x.mp4" = true /\
  Str.endswith (Str.lower "x.mp4") (Str.lower ".mp4") = true /\
  traverse 1 "a" ".mp4" examples.noop tt tt tt false examples.fs_relative
  = Some (examples.fs_relative, [Visit "a"; SkippingGone "a/a/x.mp4"]).
Proof. repeat split. Qed.

(** C2.  A recursive run over the relative root [a]: the files [a/x.mp4]
    and [a/sub/y.mp4] end with the filter; the entries of [a] are looked
    for at [a/a/sub] and [a/a/x.mp4] and reported as gone, so [a/sub] is
    never listed and the operation is never called. *)
Lemma recursive_run_relative_root :
  path_isfile examples.fs_relative_deep "a/x.mp4" = true /\
  path_isfile examples.fs_relative_deep "a/sub/y.mp4" = true /\
  traverse 5 "a" ".mp4" examples.noop tt tt tt true examples.fs_relative_deep
  = Some (examples.fs_relative_deep,
          [Visit "a"; SkippingGone "a/a/sub"; SkippingGone "a/a/x.mp4"]).
Proof. repeat split. Qed.

(** C7.  A non-recursive run over the relative root [a] with an operation
    that raises for [a/A.mp4] only: neither [a/A.mp4] nor [a/B.mp4] is
    attempted, both are reported as gone. *)
Lemma failing_run_relative_root :
  path_isfile examples.fs_relative_pair "a/A.mp4" = true /\
  path_isfile examples.fs_relative_pair "a/B.mp4" = true /\
  traverse 1 "a" ".mp4" (examples.fails_on "a/A.mp4") tt tt tt false
    examples.fs_relative_pair
  = Some (examples.fs_relative_pair,
          [Visit "a"; SkippingGone "a/a/B.mp4"; SkippingGone "a/a/A.mp4"]).
Proof. repeat split. Qed.

(** C3.  For the relative root [a] the duplicated path [a/a/x.mp4] can
    exist: the entry [a/x.mp4] is then not skipped, and the operation is
    called on [a/a/x.mp4], a file a non-recursive run should not reach. *)
Lemma relative_root_still_invokes :
  Str.starts_with_char sep "a" = false /\ tail (parse "a") = ["a"] /\
  exists fs' log ctx fs1,
    traverse 1 "a" ".mp4" examples.noop tt tt tt false examples.fs_nested
      = Some (fs', log) /\
    In (Invoke ctx fs1) log /\ FileContext.original_file ctx = "a/a/x.mp4".
Proof.
  split; [reflexivity|]. split; [reflexivity|].
  eexists _, _, _, _. split; [vm_compute; reflexivity|].
  split; [do 2 right; left; reflexivity | reflexivity].
Qed.

End RecomputedPathExamples.

(** ** Directory listings and the extension test *)

Section ListingFacts.
Import os spec posixpath pathlib FileContext.

Lemma child_name_Some loc k n : child_name loc k = Some n <-> k = loc ++ [n].
Proof.
  unfold child_name. split.
  - destruct (drop (List.length loc) k) as [|m [|? ?]] eqn:E; try done.
    case_bool_decide as Ht; [|done]. intros [= ->].
    by rewrite <- (take_drop (List.length loc) k), Ht, E.
  - intros ->. rewrite drop_app_length, take_app_length.
    by rewrite bool_decide_eq_true_2.
Qed.

Lemma elem_of_entries t loc n : n ∈ entries t loc <-> is_Some (t !! (loc ++ [n])).
Proof.
  unfold entries. rewrite list_elem_of_omap. split.
  - intros (k & Hk & ->%child_name_Some).
    apply list_elem_of_fmap in Hk as ([k' x] & -> & Hx).
    apply elem_of_map_to_list in Hx. eauto.
  - intros [x Hx]. exists (loc ++ [n]). split; [|by apply child_name_Some].
    apply list_elem_of_fmap. exists (loc ++ [n], x). split; [done|].
    by apply elem_of_map_to_list.
Qed.

Lemma NoDup_omap_inj {A B} (f : A -> option B) (l : list A) :
  (forall x y z, f x = Some z -> f y = Some z -> x = y) ->
  NoDup l -> NoDup (omap f l).
Proof.
  intros Hinj. induction 1 as [|x l Hx Hl IH]; simpl; [constructor|].
  destruct (f x) as [z|] eqn:E; [|done]. constructor; [|done].
  intros (y & Hy & Hfy)%list_elem_of_omap.
  by rewrite (Hinj _ _ _ E Hfy) in Hx.
Qed.

Lemma NoDup_entries t loc : NoDup (entries t loc).
Proof.
  apply NoDup_omap_inj; [|apply NoDup_fst_map_to_list].
  intros x y z ->%child_name_Some ->%child_name_Some. done.
Qed.

Lemma entries_valid t loc : wf_names t -> Forall valid_name (entries t loc).
Proof.
  intros Hwf. apply Forall_forall. intros n [x Hx]%elem_of_entries.
  specialize (Hwf _ _ Hx). simpl in Hwf.
  apply Forall_app in Hwf as [_ Hn]. by inversion Hn.
Qed.

Lemma valid_name_named n : valid_name n -> named n = true.
Proof.
  intros (H1 & H2 & H3 & _). unfold named.
  rewrite !bool_decide_eq_false_2; [done|done|]. by intros [?|?].
Qed.

End ListingFacts.

Section LowerFacts.
Import posixpath.

Lemma lower_app x y : Str.lower (x +:+ y) = Str.lower x +:+ Str.lower y.
Proof.
  induction x as [|a x IH]; [done|]. rewrite append_cons. simpl.
  by rewrite IH.
Qed.

Lemma lower_ascii_sep a : Str.lower_ascii a = sep <-> a = sep.
Proof.
  destruct a as [[] [] [] [] [] [] [] []]; vm_compute; split; congruence.
Qed.

Lemma lower_ascii_dot a : Str.lower_ascii a = "."%char <-> a = "."%char.
Proof.
  destruct a as [[] [] [] [] [] [] [] []]; vm_compute; split; congruence.
Qed.

Lemma contains_sep_lower s : Str.contains sep (Str.lower s) = Str.contains sep s.
Proof.
  induction s as [|a s IH]; [done|]. simpl. rewrite IH. f_equal.
  apply bool_decide_ext, lower_ascii_sep.
Qed.

(** A suffix without a slash lies within the last component. *)
Lemma endswith_child x y f :
  Str.contains sep f = false ->
  Str.endswith (x +:+ "/" +:+ y) f = Str.endswith y f.
Proof.
  intros Hf.
  assert (Hne : forall z, String sep z <> f).
  { intros z <-. by vm_compute in Hf. }
  induction x as [|a x IH].
  - change ("" +:+ "/" +:+ y) with (String sep y). simpl.
    by rewrite bool_decide_eq_false_2.
  - rewrite append_cons. simpl. rewrite IH.
    rewrite bool_decide_eq_false_2; [done|]. intros <-.
    simpl in Hf. apply orb_false_iff in Hf as [_ Hf].
    rewrite contains_app in Hf. apply orb_false_iff in Hf as [_ Hf].
    by vm_compute in Hf.
Qed.

Lemma endswith_lower_child d n format :
  Str.contains sep format = false ->
  Str.endswith (Str.lower (d +:+ "/" +:+ n)) (Str.lower format)
  = Str.endswith (Str.lower n) (Str.lower format).
Proof.
  intros Hf. rewrite !lower_app. change (Str.lower "/") with "/".
  apply endswith_child. by rewrite contains_sep_lower.
Qed.

End LowerFacts.

(** ** Entries of an absolute root *)

Section AbsoluteRoot.
Import os spec posixpath pathlib FileContext.

Lemma endswith_sep_contains s :
  Str.endswith s "/" = true -> Str.contains sep s = true.
Proof.
  induction s as [|a s IH]; [done|]. simpl.
  case_bool_decide as E; [|intros H; by rewrite IH, orb_true_r].
  injection E as -> ->. done.
Qed.

Lemma join_last l :
  l <> [] -> exists pre z, Str.join "/" l = pre +:+ z /\ z ∈ l.
Proof.
  induction l as [|x l IH]; [done|]. intros _.
  destruct l as [|y l].
  - exists "", x. split; [done | by left].
  - destruct IH as (pre & z & Hj & Hz); [done|].
    exists (x +:+ "/" +:+ pre), z. split; [|by right].
    change (Str.join "/" (x :: y :: l)) with (x +:+ "/" +:+ Str.join "/" (y :: l)).
    by rewrite Hj, !append_assoc.
Qed.

Lemma str_parse_no_trailing dir :
  tail (parse dir) <> [] -> Str.endswith (str (parse dir)) "/" = false.
Proof.
  intros Hne. destruct (join_last _ Hne) as (pre & z & Hj & Hz).
  pose proof (tail_kept dir) as Hk. pose proof (tail_no_sep dir) as Hs.
  rewrite Forall_forall in Hk, Hs. destruct (Hk _ Hz) as [Hz1 _].
  specialize (Hs _ Hz).
  unfold str. rewrite Hj, <- append_assoc.
  rewrite bool_decide_eq_false_2
    by (intros [_ ?]%append_eq_nil; done).
  rewrite (endswith_char_app sep) by done.
  destruct (Str.endswith z "/") eqn:E; [|done].
  apply endswith_sep_contains in E. congruence.
Qed.

(** Below an absolute root, the recomputed path of an entry is the entry
    name put behind one directory path, which resolves to the root. *)
Lemma absolute_base fs dir loc :
  Str.starts_with_char sep dir = true -> dir_loc fs dir loc ->
  exists d, resolves_dir fs d loc /\
    (Str.all_char sep d = true \/ Str.endswith d "/" = false) /\
    forall n, n <> "" -> obj_relative_path dir n = d +:+ "/" +:+ n.
Proof.
  intros Ha Hl.
  destruct (decide (tail (parse dir) = [])) as [He|Hne].
  - assert (loc = []) as ->.
    { destruct Hl as [Hw _]. rewrite He in Hw. simpl in Hw.
      unfold start in Hw. rewrite Ha in Hw. congruence. }
    destruct (root_parse dir) as [[_ ?]|[[Hr|Hr] _]]; [congruence| |].
    + exists "". split; [by split|]. split; [by left|].
      intros n Hn. rewrite obj_relative_path_absolute, str_child_root, Hr by done.
      done.
    + exists "/". split; [by split|]. split; [by left|].
      intros n Hn. rewrite obj_relative_path_absolute, str_child_root, Hr by done.
      done.
  - exists (str (parse dir)).
    destruct (dir_loc_stat _ _ _ Hl) as [Hres _].
    destruct (split_str_parse dir) as (_ & _ & Hnn).
    split; [|split].
    + split; [|by destruct Hl]. unfold resolve in Hres.
      rewrite bool_decide_eq_false_2 in Hres by done.
      unfold start in *. by rewrite starts_with_char_app.
    + right. by apply str_parse_no_trailing.
    + intros n _. by rewrite obj_relative_path_absolute, str_child.
Qed.

(** Construction for the entry [n] of an existing directory. *)
Lemma init_child fs d loc n name ext :
  Str.all_char sep d = true \/ Str.endswith d "/" = false ->
  resolves_dir fs d loc -> Str.contains sep n = false ->
  Str.rsplit1 "." n = Some (name, ext) ->
  init (d +:+ "/" +:+ n) fs = (with_compressed fs loc, Ok (child_ctx d n name ext)).
Proof.
  intros Hd Hr Hn Hrs. unfold init.
  rewrite basename_child, Hrs by done.
  rewrite join_dirname_child by done.
  rewrite (ensure_dir fs d loc "compressed" Hr) by done.
  destruct (rsplit1_recompose _ _ _ _ Hrs) as [Hne Hf].
  assert (Hx : Str.contains sep (name +:+ "-temp." +:+ ext) = false).
  { rewrite Hne, contains_app in Hn. apply orb_false_iff in Hn as [Hn1 Hn2].
    simpl in Hn2. rewrite !contains_app, Hn1. simpl. exact Hn2. }
  rewrite !join_below;
    [| by destruct d | by apply endswith_slash_child | done
     | by destruct d | by apply endswith_slash_child | done].
  unfold with_compressed, child_ctx.
  by destruct (tree fs !! (loc ++ ["compressed"])).
Qed.

End AbsoluteRoot.

(** ** Normal paths *)

Section NormalPaths.
Import os spec posixpath pathlib FileContext.

Lemma splitroot_one c s : c <> sep -> splitroot (String sep (String c s)) = "/".
Proof. unfold sep. destruct c as [[] [] [] [] [] [] [] []]; done. Qed.

Lemma splitroot_two c s :
  c <> sep -> splitroot (String sep (String sep (String c s))) = "//".
Proof. unfold sep. destruct c as [[] [] [] [] [] [] [] []]; done. Qed.

Lemma filter_kept_id l : Forall kept l -> filter kept l = l.
Proof. induction 1 as [|x l Hx _ IH]; [done|]. by rewrite filter_cons_True, IH. Qed.

Lemma parse_normal dir : Str.starts_with_char sep dir = true -> normal (parse dir).
Proof.
  intros Ha. split; [|split; [apply tail_kept | apply tail_no_sep]].
  destruct (root_parse dir) as [[_ ?]|[? _]]; [congruence | done].
Qed.

(** Parsing what a normal path prints gives the path back. *)
Lemma parse_str P : normal P -> parse (str P) = P.
Proof.
  destruct P as [r t]. intros (Hr & Hk & Hs). simpl in *.
  unfold str. cbn [root tail].
  rewrite bool_decide_eq_false_2
    by (intros [? _]%append_eq_nil; destruct Hr; by subst).
  unfold parse. fold kept.
  destruct (decide (t = [])) as [->|Hne].
  - simpl Str.join. rewrite append_nil_r. by destruct Hr as [-> | ->].
  - destruct (join_kept_nonempty _ Hk Hne) as [Hj1 Hj2]. specialize (Hj2 Hs).
    destruct (Str.join "/" t) as [|c J] eqn:EJ; [done|].
    simpl in Hj2. apply bool_decide_eq_false in Hj2.
    destruct Hr as [-> | ->].
    + change ("/" +:+ String c J) with (String sep (String c J)).
      rewrite splitroot_one by done. f_equal.
      change (String sep (String c J)) with ("" +:+ "/" +:+ String c J).
      rewrite split_child, <- EJ, split_join by done.
      rewrite filter_app, (filter_kept_id t) by done. reflexivity.
    + change ("//" +:+ String c J) with (String sep (String sep (String c J))).
      rewrite splitroot_two by done. f_equal.
      change (String sep (String sep (String c J))) with ("/" +:+ "/" +:+ String c J).
      rewrite split_child, <- EJ, split_join by done.
      rewrite filter_app, (filter_kept_id t) by done. reflexivity.
Qed.

Lemma valid_name_kept n : valid_name n -> kept n.
Proof. by intros (? & ? & _). Qed.

Lemma normal_descend P r :
  normal P -> Forall valid_name r -> normal (descend P r).
Proof.
  intros (Hr & Hk & Hs) Hv. split; [done|]. simpl.
  split; apply Forall_app; split; try done.
  - eapply Forall_impl; [exact Hv|]. apply valid_name_kept.
  - eapply Forall_impl; [exact Hv|]. by intros n (_ & _ & _ & ?).
Qed.

Lemma descend_nil P : descend P [] = P.
Proof. destruct P. unfold descend. simpl. by rewrite app_nil_r. Qed.

Lemma descend_descend P r r' : descend (descend P r) r' = descend P (r ++ r').
Proof. unfold descend. simpl. by rewrite app_assoc. Qed.

Lemma child_descend P n : child P n = descend P [n].
Proof. done. Qed.

(** Different ways down print differently. *)
Lemma str_descend_inj P r r' :
  normal P -> Forall valid_name r -> Forall valid_name r' ->
  str (descend P r) = str (descend P r') -> r = r'.
Proof.
  intros HP Hr Hr' E.
  assert (H : descend P r = descend P r').
  { rewrite <- (parse_str (descend P r)), <- (parse_str (descend P r')), E;
      auto using normal_descend. }
  injection H as H. by apply app_inv_head in H.
Qed.

Lemma str_normal_absolute P : normal P -> Str.starts_with_char sep (str P) = true.
Proof.
  intros (Hr & _). unfold str.
  destruct Hr as [-> | ->]; by rewrite bool_decide_eq_false_2.
Qed.

End NormalPaths.

(** ** Kinds of nodes and confined changes *)

Section KindFacts.
Import os spec posixpath pathlib FileContext.

Lemma same_kind_refl a : same_kind a a.
Proof. by destruct a as [[]|]. Qed.

Lemma same_kind_trans a b c : same_kind a b -> same_kind b c -> same_kind a c.
Proof. by destruct a as [[]|], b as [[]|], c as [[]|]. Qed.

Lemma same_kind_is_file a b : same_kind a b -> is_file a = is_file b.
Proof. by destruct a as [[]|], b as [[]|]. Qed.

Lemma same_kind_is_Some a b : same_kind a b -> is_Some a <-> is_Some b.
Proof. destruct a as [[]|], b as [[]|]; try done; intros _; split; eauto. Qed.

Lemma same_kind_dir a b : same_kind a b -> a = Some Directory <-> b = Some Directory.
Proof. by destruct a as [[]|], b as [[]|]. Qed.

Lemma node_at_below t loc n r : node_at t (loc ++ n :: r) = t !! (loc ++ n :: r).
Proof. by destruct loc. Qed.

Lemma below_snoc loc n q : below (loc ++ [n]) q -> below loc q.
Proof. intros (m & r & ->). exists n, (m :: r). by rewrite <- app_assoc. Qed.

Lemma confined_refl loc fs : confined loc fs fs.
Proof. split; [done|]. split; [done|]. intros q _. apply same_kind_refl. Qed.

Lemma confined_trans loc fs1 fs2 fs3 :
  confined loc fs1 fs2 -> confined loc fs2 fs3 -> confined loc fs1 fs3.
Proof.
  intros (C1 & D1 & K1) (C2 & D2 & K2). split; [congruence|]. split; [auto|].
  intros q Hq. eapply same_kind_trans; eauto.
Qed.

Lemma confined_snoc loc n fs fs' : confined (loc ++ [n]) fs fs' -> confined loc fs fs'.
Proof.
  intros (C & D & K). split; [done|]. split; [done|].
  intros q Hq. apply K. intros H. by apply Hq, (below_snoc _ n).
Qed.

Lemma confined_resolves_dir loc' fs fs' d loc :
  confined loc' fs fs' -> resolves_dir fs d loc -> resolves_dir fs' d loc.
Proof.
  intros (C & D & _) [Hw Hd]. split; [|auto].
  unfold start in *. rewrite C. by eapply walk_mono.
Qed.

Lemma with_compressed_confined fs loc : confined loc fs (with_compressed fs loc).
Proof.
  unfold with_compressed.
  destruct (tree fs !! (loc ++ ["compressed"])) eqn:E; [apply confined_refl|].
  assert (G : grown (tree fs) (<[loc ++ ["compressed"] := Directory]> (tree fs))).
  { apply grown_insert. by rewrite node_at_snoc. }
  split; [done|]. split; [intros q; by apply grown_keeps|].
  intros q Hq. simpl. rewrite node_at_insert_ne; [apply same_kind_refl| |by destruct loc].
  intros <-. apply Hq. by exists "compressed", [].
Qed.

End KindFacts.

(** ** One entry of the listing *)

Section OneEntry.
Import os spec posixpath pathlib FileContext.
Context {V : Type}.

Variables (dir format : string) (func : @operation V) (var1 var2 var3 : V)
          (recursive : bool).
Variable recurse : string -> filesystem -> option (filesystem * list event).

(** The directory path [d] behind which the entries of [dir] are found,
    and the directory [loc] it resolves to. *)
Variables (d : string) (loc : location).
Hypothesis d_slash : Str.all_char sep d = true \/ Str.endswith d "/" = false.
Hypothesis d_entries : forall n, n <> "" -> obj_relative_path dir n = d +:+ "/" +:+ n.
Hypothesis format_no_sep : Str.contains sep format = false.

(** The loop body, by what the entry is. *)
Lemma visit_entry_eq fs n :
  resolves_dir fs d loc -> valid_name n ->
  visit_entry dir format func var1 var2 var3 recursive recurse n fs =
  match tree fs !! (loc ++ [n]) with
  | None => Some (fs, [SkippingGone (d +:+ "/" +:+ n)])
  | Some Directory =>
      if recursive then recurse (d +:+ "/" +:+ n) fs else Some (fs, [])
  | Some (File _) =>
      if Str.endswith (Str.lower n) (Str.lower format) then
        match Str.rsplit1 "." n with
        | None =>
            Some (fs, [ErrorProcessing (d +:+ "/" +:+ n)
                         (ValueError "not enough values to unpack (expected 2, got 1)")])
        | Some (name, ext) =>
            match func (child_ctx d n name ext) var1 var2 var3 (with_compressed fs loc) with
            | (fs2, Some e) =>
                Some (fs2, [Invoke (child_ctx d n name ext) (with_compressed fs loc);
                            ErrorProcessing (d +:+ "/" +:+ n) e])
            | (fs2, None) =>
                Some (fs2, [Invoke (child_ctx d n name ext) (with_compressed fs loc)])
            end
        end
      else Some (fs, [])
  end.
Proof.
  intros Hr Hn. pose proof Hn as (Hne & _ & _ & Hs).
  unfold visit_entry.
  change (join dir (str (child (parse dir) n))) with (obj_relative_path dir n).
  rewrite (d_entries n Hne).
  unfold path_exists, path_isfile.
  rewrite (stat_child fs d loc n Hr Hs (valid_name_named _ Hn)).
  destruct (tree fs !! (loc ++ [n])) as [[x|]|] eqn:E.
  - rewrite bool_decide_eq_true_2 by eauto. simpl.
    rewrite endswith_lower_child by done.
    destruct (Str.endswith (Str.lower n) (Str.lower format)); [|done].
    destruct (Str.rsplit1 "." n) as [[name ext]|] eqn:Ers.
    + by rewrite (init_child fs d loc n name ext).
    + unfold init. by rewrite basename_child, Ers.
  - by rewrite bool_decide_eq_true_2 by eauto.
  - by rewrite bool_decide_eq_false_2 by (by intros [? ?]).
Qed.

Hypothesis func_polite : polite func var1 var2 var3.

(** What a call for the entry [n] leaves alone. *)
Lemma call_confined fs n x name ext :
  resolves_dir fs d loc -> valid_name n ->
  tree fs !! (loc ++ [n]) = Some (File x) ->
  Str.rsplit1 "." n = Some (name, ext) ->
  let fs2 := (func (child_ctx d n name ext) var1 var2 var3 (with_compressed fs loc)).1 in
  confined loc fs fs2 /\
  forall n' r, n' <> n -> n' <> "compressed" ->
    same_kind (tree fs !! (loc ++ n' :: r)) (tree fs2 !! (loc ++ n' :: r)).
Proof.
  intros Hr Hn Hnode Hrs fs2. pose proof Hn as (Hne & _ & _ & Hs).
  assert (Hfile : path_isfile fs (d +:+ "/" +:+ n) = true).
  { unfold path_isfile.
    by rewrite (stat_child fs d loc n Hr Hs (valid_name_named _ Hn)), Hnode. }
  set (fs1 := with_compressed fs loc) in *.
  pose proof (with_compressed_confined fs loc) as Hc1. fold fs1 in Hc1.
  pose proof (confined_resolves_dir _ _ _ _ _ Hc1 Hr) as Hr1.
  destruct (func_polite _ _ _ _ Hfile (init_child fs d loc n name ext d_slash Hr Hs Hrs))
    as (Hcwd & Hdirs & Hkind).
  fold fs1 in Hcwd, Hdirs, Hkind.
  fold fs2 in Hcwd, Hdirs, Hkind.
  assert (Ho : resolve fs1 (original_file (child_ctx d n name ext)) = Some (loc ++ [n])).
  { simpl. rewrite (resolve_child fs1 d loc n Hr1 Hs).
    by rewrite (step_named _ _ (valid_name_named _ Hn)). }
  assert (Hx : Str.contains sep (name +:+ "-temp." +:+ ext) = false).
  { destruct (rsplit1_recompose _ _ _ _ Hrs) as [Hnm _].
    rewrite Hnm, contains_app in Hs. apply orb_false_iff in Hs as [Hs1 Hs2].
    simpl in Hs2. rewrite !contains_app, Hs1. simpl. exact Hs2. }
  assert (Ht : resolve fs1 (dirname (temp_file (child_ctx d n name ext)))
               = Some (loc ++ ["compressed"])).
  { simpl. rewrite dirname_child;
      [| by destruct d | by apply endswith_slash_child | done].
    by rewrite (resolve_child fs1 d loc "compressed" Hr1). }
  assert (Hfrom1 : forall q, q <> loc ++ [n] -> ~ (loc ++ ["compressed"]) `prefix_of` q ->
            same_kind (node_at (tree fs1) q) (node_at (tree fs2) q)).
  { intros q H1 H2. apply Hkind; [congruence|]. intros s. rewrite Ht.
    by intros [= <-]. }
  split.
  - eapply confined_trans; [exact Hc1|]. split; [done|]. split; [done|].
    intros q Hq. apply Hfrom1.
    + intros ->. apply Hq. by exists n, [].
    + intros [k ->]. apply Hq. exists "compressed", k. by rewrite <- app_assoc.
  - intros n' r Hn1 Hn2. rewrite <- !node_at_below.
    eapply same_kind_trans.
    + destruct Hc1 as (_ & _ & K). unfold fs1, with_compressed in *.
      destruct (tree fs !! (loc ++ ["compressed"])); [apply same_kind_refl|].
      simpl. rewrite node_at_insert_ne; [apply same_kind_refl| |by destruct loc].
      intros H. apply app_inv_head in H. congruence.
    + apply Hfrom1.
      * intros H. apply app_inv_head in H. congruence.
      * intros [k H]. rewrite <- app_assoc in H. apply app_inv_head in H.
        simpl in H. congruence.
Qed.

End OneEntry.

(** ** Logs *)

Section LogFacts.
Import os spec posixpath pathlib FileContext.

Variables (t0 : gmap location node) (format : string) (recursive : bool)
          (P : Path) (loc : location).
Hypothesis P_normal : normal P.
Hypothesis wf0 : wf_names t0.

Lemma invoked_app l1 l2 : invoked (l1 ++ l2) = invoked l1 ++ invoked l2.
Proof. apply omap_app. Qed.

Lemma visited_app l1 l2 : visited (l1 ++ l2) = visited l1 ++ visited l2.
Proof. apply omap_app. Qed.

Lemma is_file_Some o : is_file o = true -> is_Some o.
Proof. destruct o as [[]|]; [eauto|done|done]. Qed.

Lemma target_valid r : target t0 format recursive loc r -> Forall valid_name r.
Proof.
  intros (r' & n & -> & _ & Hf & _). apply is_file_Some in Hf as [x Hx].
  specialize (wf0 _ _ Hx). simpl in wf0. by apply Forall_app in wf0 as [_ ?].
Qed.

Lemma count_occ_absent (l : list string) p :
  p ∉ l -> count_occ string_dec l p = 0%nat.
Proof. intros H. apply count_occ_not_In. by rewrite <- list_elem_of_In. Qed.

(** Logs of different entries put one after the other. *)
Lemma log_ok_app (S1 S2 : string -> Prop) l1 l2 :
  (forall n, S1 n -> S2 n -> False) ->
  log_ok t0 format recursive P loc S1 l1 ->
  log_ok t0 format recursive P loc S2 l2 ->
  log_ok t0 format recursive P loc (fun n => S1 n \/ S2 n) (l1 ++ l2).
Proof.
  intros Hdis (A1 & B1 & C1 & D1) (A2 & B2 & C2 & D2).
  assert (Hsep : forall n r n' r', Forall valid_name (n :: r) ->
            Forall valid_name (n' :: r') ->
            str (descend P (n :: r)) = str (descend P (n' :: r')) -> n = n').
  { intros n r n' r' H1 H2 E.
    apply (str_descend_inj P) in E; [congruence|done..]. }
  split; [|split; [|split]].
  - intros n r [Hn|Hn] Ht; rewrite invoked_app, count_occ_app.
    + rewrite (A1 n r Hn Ht), count_occ_absent; [done|].
      intros (n' & r' & Hn' & Ht' & E)%B2.
      apply Hsep in E; [|by eapply target_valid..]. subst. eauto.
    + rewrite (A2 n r Hn Ht), count_occ_absent; [done|].
      intros (n' & r' & Hn' & Ht' & E)%B1.
      apply Hsep in E; [|by eapply target_valid..]. subst. eauto.
  - intros p. rewrite invoked_app, elem_of_app.
    intros [(n & r & ? & ? & ?)%B1|(n & r & ? & ? & ?)%B2]; exists n, r; auto.
  - rewrite visited_app. apply NoDup_app. split; [done|]. split; [|done].
    intros v (n & r & Hn & Hv & ->)%D1 (n' & r' & Hn' & Hv' & E)%D2.
    apply Hsep in E; [|done..]. subst. eauto.
  - intros v. rewrite visited_app, elem_of_app.
    intros [(n & r & ? & ? & ?)%D1|(n & r & ? & ? & ?)%D2]; exists n, r; auto.
Qed.

Lemma log_ok_ext (S S' : string -> Prop) l :
  (forall n, S n <-> S' n) ->
  log_ok t0 format recursive P loc S l -> log_ok t0 format recursive P loc S' l.
Proof.
  intros HS (A & B & C & D). split; [|split; [|split]].
  - intros n r Hn. apply A. by apply HS.
  - intros p (n & r & Hn & ?)%B. exists n, r. split; [by apply HS | done].
  - done.
  - intros v (n & r & Hn & ?)%D. exists n, r. split; [by apply HS | done].
Qed.

Lemma log_ok_nil : log_ok t0 format recursive P loc (fun n => n ∈ @nil string) [].
Proof.
  split; [|split; [|split]].
  - intros n r Hn. by apply elem_of_nil in Hn.
  - intros p Hp. by apply elem_of_nil in Hp.
  - constructor.
  - intros p Hp. by apply elem_of_nil in Hp.
Qed.

(** An entry with nothing to call the operation for. *)
Lemma log_ok_no_target n l :
  (forall r, ~ target t0 format recursive loc (n :: r)) ->
  invoked l = [] -> visited l = [] ->
  log_ok t0 format recursive P loc (fun m => m = n) l.
Proof.
  intros Hno Hi Hv. unfold log_ok. rewrite Hi, Hv. split; [|split; [|split]].
  - intros m r -> Ht. by apply Hno in Ht.
  - intros p Hp. by apply elem_of_nil in Hp.
  - constructor.
  - intros p Hp. by apply elem_of_nil in Hp.
Qed.

(** A file the operation is called for. *)
Lemma log_ok_one_target n l :
  (forall r, target t0 format recursive loc (n :: r) -> r = []) ->
  target t0 format recursive loc [n] ->
  invoked l = [str (descend P [n])] -> visited l = [] ->
  log_ok t0 format recursive P loc (fun m => m = n) l.
Proof.
  intros Honly Ht Hi Hv. unfold log_ok. rewrite Hi, Hv. split; [|split; [|split]].
  - intros m r -> Hr. rewrite (Honly r Hr). simpl.
    by destruct (string_dec _ _).
  - intros p ->%list_elem_of_singleton. by exists n, [].
  - constructor.
  - intros p Hp. by apply elem_of_nil in Hp.
Qed.

(** A subdirectory the run went into. *)
Lemma log_ok_subdir n l :
  valid_name n -> recursive = true -> t0 !! (loc ++ [n]) = Some Directory ->
  run_ok t0 format true (descend P [n]) (loc ++ [n]) l ->
  log_ok t0 format recursive P loc (fun m => m = n) l.
Proof.
  intros Hn -> Hd (A & B & C & D).
  assert (Hdd : forall r, descend (descend P [n]) r = descend P (n :: r)).
  { intros r. by rewrite descend_descend. }
  assert (Hloc : forall r, (loc ++ [n]) ++ r = loc ++ n :: r).
  { intros r. by rewrite <- app_assoc. }
  split; [|split; [|split]].
  - intros m r -> (r' & k & E & Hrec & Hf & Hm). rewrite <- Hdd. apply A.
    destruct r' as [|n' r'].
    + injection E as -> ->. rewrite Hd in Hf. done.
    + injection E as <- ->. exists r', k. rewrite Hloc. auto.
  - intros p (r & (r' & k & -> & _ & Hf & Hm) & ->)%B.
    exists n, (r' ++ [k]). split; [done|]. split; [|by rewrite Hdd].
    exists (n :: r'), k. rewrite Hloc in Hf. auto.
  - done.
  - intros v (r & Hr & ->)%D. exists n, r. rewrite Hdd. auto.
Qed.

End LogFacts.

(** ** The loop over a listing *)

Section Loop.
Import os spec posixpath pathlib FileContext.
Context {V : Type}.

Variables (dir format : string) (func : @operation V) (var1 var2 var3 : V)
          (recursive : bool).
Variable recurse : string -> filesystem -> option (filesystem * list event).
Variables (d : string) (loc : location) (t0 : gmap location node) (P : Path).

Hypothesis d_slash : Str.all_char sep d = true \/ Str.endswith d "/" = false.
Hypothesis d_entries : forall n, n <> "" -> obj_relative_path dir n = d +:+ "/" +:+ n.
Hypothesis d_paths : forall n, n <> "" -> d +:+ "/" +:+ n = str (descend P [n]).
Hypothesis format_no_sep : Str.contains sep format = false.
Hypothesis func_polite : polite func var1 var2 var3.
Hypothesis P_normal : normal P.
Hypothesis wf0 : wf_names t0.
Hypothesis par0 : recursive = true -> parents_ok t0.

(** What the recursive call does for a subdirectory that is as it was in
    [t0]. *)
Hypothesis recurse_ok :
  recursive = true ->
  forall n fs, valid_name n -> resolves_dir fs d loc ->
    t0 !! (loc ++ [n]) = Some Directory ->
    (forall r, same_kind (t0 !! (loc ++ n :: r)) (tree fs !! (loc ++ n :: r))) ->
    exists fs' log,
      recurse (d +:+ "/" +:+ n) fs = Some (fs', log) /\
      confined (loc ++ [n]) fs fs' /\
      run_ok t0 format true (descend P [n]) (loc ++ [n]) log.

Lemma if_true {A} (a b : A) : recursive = true -> (if recursive then a else b) = a.
Proof. by intros ->. Qed.

Lemma if_false {A} (a b : A) : recursive = false -> (if recursive then a else b) = b.
Proof. by intros ->. Qed.

Lemma ancestor_dir n r :
  parents_ok t0 -> is_Some (t0 !! (loc ++ n :: r)) -> r <> [] ->
  t0 !! (loc ++ [n]) = Some Directory.
Proof.
  intros Hp. induction r as [|m r IH] using rev_ind; [done|]. intros Hs _.
  assert (E : loc ++ n :: r ++ [m] = (loc ++ n :: r) ++ [m])
    by (by rewrite <- app_assoc).
  rewrite E in Hs. apply Hp in Hs. rewrite node_at_below in Hs.
  destruct r as [|k r]; [done|]. apply IH; [by rewrite Hs | done].
Qed.

Lemma target_inv n r :
  target t0 format recursive loc (n :: r) ->
  is_file (t0 !! (loc ++ n :: r)) = true /\
  (r = [] /\ matches format n = true \/
   r <> [] /\ t0 !! (loc ++ [n]) = Some Directory /\ recursive = true).
Proof.
  intros (r' & k & E & Hrec & Hf & Hm). split; [done|].
  destruct r' as [|n' r'].
  - injection E as -> ->. by left.
  - injection E as <- ->. right.
    destruct Hrec as [Hrec|?]; [|done].
    split; [by destruct r'|]. split; [|done].
    apply (ancestor_dir n (r' ++ [k])); [auto | by apply is_file_Some | by destruct r'].
Qed.

Lemma single_target n :
  is_file (t0 !! (loc ++ [n])) = true -> matches format n = true ->
  target t0 format recursive loc [n].
Proof. intros Hf Hm. exists [], n. auto. Qed.

(** One entry: the loop body succeeds, changes nothing outside and logs
    what it should. *)
Lemma visit_entry_ok fs n :
  resolves_dir fs d loc -> valid_name n ->
  (n = "compressed" -> recursive = false) ->
  (n <> "compressed" ->
   forall r, same_kind (t0 !! (loc ++ n :: r)) (tree fs !! (loc ++ n :: r))) ->
  exists fs' l,
    visit_entry dir format func var1 var2 var3 recursive recurse n fs = Some (fs', l) /\
    confined loc fs fs' /\
    (forall n' r, n' <> n -> n' <> "compressed" ->
       same_kind (tree fs !! (loc ++ n' :: r)) (tree fs' !! (loc ++ n' :: r))) /\
    log_ok t0 format recursive P loc (fun m => m = n) l.
Proof.
  intros Hr Hn Hc Hk. pose proof Hn as (Hne & _).
  rewrite (visit_entry_eq dir format func var1 var2 var3 recursive recurse d loc)
    by done.
  assert (Hstay : forall l, invoked l = [] -> visited l = [] ->
            (forall r, ~ target t0 format recursive loc (n :: r)) ->
            exists fs' l',
              Some (fs, l) = Some (fs', l') /\ confined loc fs fs' /\
              (forall n' r, n' <> n -> n' <> "compressed" ->
                 same_kind (tree fs !! (loc ++ n' :: r)) (tree fs' !! (loc ++ n' :: r))) /\
              log_ok t0 format recursive P loc (fun m => m = n) l').
  { intros l Hi Hv Hno. exists fs, l. split; [done|].
    split; [apply confined_refl|]. split; [intros; apply same_kind_refl|].
    by apply log_ok_no_target. }
  destruct (decide (n = "compressed")) as [->|Hnc].
  { (* the staging directory itself, in a flat run *)
    pose proof (Hc eq_refl) as Hrec.
    assert (Hno : forall r, ~ target t0 format recursive loc ("compressed" :: r)).
    { intros r [_ [[_ Hm]|(_ & _ & ?)]]%target_inv; [|congruence].
      apply andb_true_iff in Hm as [_ Hm]. by vm_compute in Hm. }
    destruct (tree fs !! (loc ++ ["compressed"])) as [[x|]|].
    - change (Str.rsplit1 "." "compressed") with (@None (string * string)).
      destruct (Str.endswith (Str.lower "compressed") (Str.lower format));
        by apply Hstay.
    - rewrite (if_false _ _ Hrec). by apply Hstay.
    - by apply Hstay. }
  specialize (Hk Hnc). pose proof (Hk []) as Hk0.
  destruct (tree fs !! (loc ++ [n])) as [[x|]|] eqn:E.
  - (* a file *)
    assert (Hf0 : is_file (t0 !! (loc ++ [n])) = true)
      by (by rewrite (same_kind_is_file _ _ Hk0)).
    assert (Honly : forall r, target t0 format recursive loc (n :: r) -> r = []).
    { intros r [_ [[? _]|(_ & Hd & _)]]%target_inv; [done|].
      by rewrite Hd in Hf0. }
    assert (Hmatch : forall r, target t0 format recursive loc (n :: r) ->
              matches format n = true).
    { intros r Ht. pose proof (Honly r Ht) as ->.
      by apply target_inv in Ht as [_ [[_ ?]|[? _]]]. }
    unfold matches in Hmatch.
    destruct (Str.endswith (Str.lower n) (Str.lower format)) eqn:Ee;
      [|apply Hstay; [done..|]; intros r Ht; by apply Hmatch in Ht].
    destruct (Str.rsplit1 "." n) as [[name ext]|] eqn:Ers.
    + assert (Hdot : Str.contains "." n = true).
      { destruct (Str.contains "." n) eqn:Ed; [done|].
        apply rsplit1_none in Ed. congruence. }
      destruct (call_confined dir func var1 var2 var3 d loc d_slash d_entries
                  func_polite fs n x name ext Hr Hn E Ers) as [Hconf Hsib].
      assert (Hlog : forall l,
                invoked l = [str (descend P [n])] -> visited l = [] ->
                log_ok t0 format recursive P loc (fun m => m = n) l).
      { intros l Hi Hv. apply log_ok_one_target; try done.
        apply single_target; [done|]. unfold matches. by rewrite Ee, Hdot. }
      destruct (func (child_ctx d n name ext) var1 var2 var3 (with_compressed fs loc))
        as [fs2 [e|]]; simpl in Hconf, Hsib; eexists _, _;
        (split; [done|]); (split; [done|]); (split; [done|]);
        apply Hlog; simpl; by rewrite ?d_paths.
    + apply Hstay; [done..|]. intros r Ht. apply Hmatch in Ht.
      apply rsplit1_none in Ers. rewrite Ers in Ht. by rewrite andb_comm in Ht.
  - (* a directory *)
    assert (Hd0 : t0 !! (loc ++ [n]) = Some Directory)
      by (by apply (same_kind_dir _ _ Hk0)).
    destruct (decide (recursive = true)) as [Erec|Erec%not_true_is_false].
    + rewrite (if_true _ _ Erec).
      destruct (recurse_ok Erec n fs Hn Hr Hd0 Hk) as (fs' & l & -> & Hconf & Hrun).
      exists fs', l. split; [done|]. split; [by eapply confined_snoc|].
      split.
      * intros n' r Hn1 _. rewrite <- !node_at_below.
        destruct Hconf as (_ & _ & K). apply K.
        intros (m & k & H). rewrite <- app_assoc in H.
        apply app_inv_head in H. simpl in H. congruence.
      * by apply log_ok_subdir.
    + rewrite (if_false _ _ Erec). apply Hstay; [done..|].
      intros r [Hf [[-> _]|(_ & _ & ?)]]%target_inv; [|congruence].
      by rewrite Hd0 in Hf.
  - (* gone *)
    assert (H0 : t0 !! (loc ++ [n]) = None).
    { destruct (t0 !! (loc ++ [n])) as [[]|]; done. }
    apply Hstay; [done..|].
    intros r [Hf [[-> _]|(_ & Hd & _)]]%target_inv.
    + by rewrite H0 in Hf.
    + congruence.
Qed.

(** The whole loop over a listing without repetitions. *)
Lemma visit_entries_ok names fs :
  NoDup names -> Forall valid_name names ->
  (recursive = true -> "compressed" ∉ names) ->
  resolves_dir fs d loc ->
  (forall n, n ∈ names -> n <> "compressed" ->
     forall r, same_kind (t0 !! (loc ++ n :: r)) (tree fs !! (loc ++ n :: r))) ->
  exists fs' log,
    visit_entries dir format func var1 var2 var3 recursive recurse names fs
      = Some (fs', log) /\
    confined loc fs fs' /\
    log_ok t0 format recursive P loc (fun n => n ∈ names) log.
Proof.
  intros Hnd. revert fs. induction Hnd as [|n rest Hn Hnd IH]; intros fs Hv Hc Hr Hk.
  - exists fs, []. split; [done|]. split; [apply confined_refl|].
    apply log_ok_nil.
  - apply Forall_cons in Hv as [Hvn Hv].
    destruct (visit_entry_ok fs n Hr Hvn) as (fs1 & l1 & E1 & C1 & S1 & L1).
    { intros -> . destruct recursive eqn:E; [|done].
      exfalso. apply (Hc eq_refl). by left. }
    { intros Hnc. apply Hk; [by left | done]. }
    destruct (IH fs1 Hv) as (fs2 & l2 & E2 & C2 & L2).
    { intros H Hin. apply (Hc H). by right. }
    { by eapply confined_resolves_dir. }
    { intros m Hm Hmc r. eapply same_kind_trans; [apply Hk; [by right|done]|].
      apply S1; [|done]. intros ->. done. }
    exists fs2, (l1 ++ l2). split; [|split].
    + simpl. rewrite E1. simpl. rewrite E2. done.
    + by eapply confined_trans.
    + eapply log_ok_ext; [|eapply log_ok_app; [done|done| |exact L1|exact L2]].
      * intros m. simpl. rewrite elem_of_cons. done.
      * intros m -> Hm. done.
Qed.

End Loop.

(** ** A run over an absolute root *)

Section Walk.
Import os spec posixpath pathlib FileContext.
Context {V : Type}.

Variables (format : string) (func : @operation V) (var1 var2 var3 : V)
          (recursive : bool) (t0 : gmap location node).

Hypothesis format_no_sep : Str.contains sep format = false.
Hypothesis func_polite : polite func var1 var2 var3.
Hypothesis wf0 : wf_names t0.
Hypothesis par0 : recursive = true -> parents_ok t0.

Lemma dir_loc_child fs d loc n :
  resolves_dir fs d loc -> valid_name n ->
  tree fs !! (loc ++ [n]) = Some Directory ->
  dir_loc fs (d +:+ "/" +:+ n) (loc ++ [n]).
Proof.
  intros Hr Hn Hd. pose proof Hn as (_ & _ & _ & Hs).
  apply (leads_to_dir_filter _ _ (Str.split sep (d +:+ "/" +:+ n))).
  pose proof (resolve_child fs d loc n Hr Hs) as Hres.
  unfold resolve in Hres. rewrite bool_decide_eq_false_2 in Hres by (by destruct d).
  rewrite (step_named _ _ (valid_name_named _ Hn)) in Hres.
  split; [done|]. by rewrite node_at_snoc.
Qed.

Lemma fits_child loc n fuel :
  is_Some (t0 !! (loc ++ [n])) -> fits t0 loc (S fuel) -> fits t0 (loc ++ [n]) fuel.
Proof.
  intros Hn [_ Hf]. split.
  - specialize (Hf [n] Hn). simpl in Hf. lia.
  - intros r Hr. rewrite <- app_assoc in Hr. specialize (Hf _ Hr). simpl in Hf. lia.
Qed.

Lemma fresh_child loc n : fresh t0 loc -> fresh t0 (loc ++ [n]).
Proof.
  intros Hf r Hr Hin. rewrite <- app_assoc in Hr. apply (Hf _ Hr). by right.
Qed.

Lemma invoked_visit d log : invoked (Visit d :: log) = invoked log.
Proof. done. Qed.

Lemma visited_visit d log : visited (Visit d :: log) = d :: visited log.
Proof. done. Qed.

(** A run over an absolute root whose tree is as in [t0]. *)
Lemma traverse_ok fuel : forall dir loc fs,
  Str.starts_with_char sep dir = true ->
  dir_loc fs dir loc ->
  (forall n r, same_kind (t0 !! (loc ++ n :: r)) (tree fs !! (loc ++ n :: r))) ->
  (0 < fuel)%nat ->
  (recursive = true -> fits t0 loc fuel /\ fresh t0 loc) ->
  exists fs' log,
    traverse fuel dir format func var1 var2 var3 recursive fs = Some (fs', log) /\
    confined loc fs fs' /\
    run_ok t0 format recursive (parse dir) loc log.
Proof.
  induction fuel as [|fuel IH]; intros dir loc fs Ha Hl Hk Hpos Hrec; [lia|].
  pose proof (parse_normal dir Ha) as HP.
  destruct (absolute_base fs dir loc Ha Hl) as (d & Hr & Hds & Hde).
  assert (Hdp : forall n, n <> "" -> d +:+ "/" +:+ n = str (descend (parse dir) [n])).
  { intros n Hn. rewrite <- (Hde n Hn). by apply obj_relative_path_absolute. }
  destruct (dir_loc_stat _ _ _ Hl) as [Hres Hstat].
  set (names := entries (tree fs) loc).
  assert (Hnames : forall n, n ∈ names <-> is_Some (t0 !! (loc ++ [n]))).
  { intros n. unfold names. rewrite elem_of_entries. symmetry.
    apply same_kind_is_Some, (Hk n []). }
  assert (Hvalid : Forall valid_name names).
  { apply Forall_forall. intros n [x Hx]%Hnames.
    pose proof (wf0 _ _ Hx) as Hw. simpl in Hw.
    apply Forall_app in Hw as [_ H]. by inversion H. }
  edestruct (visit_entries_ok dir format func var1 var2 var3 recursive
               (fun d' => traverse fuel d' format func var1 var2 var3 recursive)
               d loc t0 (parse dir) Hds Hde Hdp format_no_sep func_polite HP wf0 par0)
    with (names := names) (fs := fs) as (fs' & log & E & C & L).
  - (* the recursive calls *)
    intros Erec n fs1 Hn Hr1 Hd0 Hk1.
    destruct (Hrec Erec) as [Hfit Hfresh]. pose proof Hn as (Hne & _).
    assert (Hd1 : tree fs1 !! (loc ++ [n]) = Some Directory)
      by (by apply (same_kind_dir _ _ (Hk1 []))).
    assert (Hfit1 : fits t0 (loc ++ [n]) fuel)
      by (apply fits_child; [by rewrite Hd0 | done]).
    destruct (IH (d +:+ "/" +:+ n) (loc ++ [n]) fs1) as (fs2 & l & E2 & C2 & R2).
    + rewrite (Hdp n Hne). apply str_normal_absolute, normal_descend; auto.
    + by apply dir_loc_child.
    + intros m r. rewrite <- app_assoc. apply Hk1.
    + by destruct Hfit1.
    + intros _. split; [done | by apply fresh_child].
    + exists fs2, l. split; [done|]. split; [done|].
      rewrite (Hdp n Hne), parse_str in R2 by (apply normal_descend; auto).
      by rewrite Erec in R2.
  - apply NoDup_entries.
  - done.
  - intros Erec Hin. apply Hnames in Hin.
    destruct (Hrec Erec) as [_ Hfresh]. apply (Hfresh _ Hin). by left.
  - done.
  - intros n _ _ r. apply Hk.
  - exists fs', (Visit (str (parse dir)) :: log).
    split; [|split; [done|]].
    + simpl. unfold Path_exists, Path_is_dir, path_exists, path_isdir, listdir.
      rewrite Hstat, Hres. rewrite bool_decide_eq_true_2 by eauto. simpl.
      destruct Hl as [_ Hnode]. rewrite Hnode. fold names. rewrite E. done.
    + destruct L as (A & B & Cn & D).
      assert (Hfirst : forall r, target t0 format recursive loc r ->
                exists n r', r = n :: r' /\ n ∈ names).
      { intros r Ht. destruct r as [|n r'].
        - destruct Ht as (r' & k & Hnil & _). by destruct r'.
        - exists n, r'. split; [done|]. apply Hnames.
          destruct (target_inv format recursive loc t0 par0 n r' Ht)
            as [Hf [[-> _]|(_ & Hd & _)]].
          + by apply is_file_Some.
          + by rewrite Hd. }
      split; [|split; [|split]].
      * intros r Ht. destruct (Hfirst r Ht) as (n & r' & -> & Hn).
        rewrite invoked_visit. by apply A.
      * intros p Hp. rewrite invoked_visit in Hp.
        apply B in Hp as (n & r & _ & Ht & ->). eauto.
      * rewrite visited_visit. constructor; [|done].
        intros (n & r & _ & Hv & E')%D.
        rewrite <- (descend_nil (parse dir)) in E' at 1.
        apply (str_descend_inj (parse dir)) in E'; [done|done|constructor|done].
      * intros v. rewrite visited_visit, elem_of_cons.
        intros [->|(n & r & _ & Hv & ->)%D].
        -- exists []. by rewrite descend_nil.
        -- eauto.
Qed.

End Walk.

(** ** Failures of the operation *)

Section Failures.
Import os spec posixpath pathlib FileContext.
Context {V : Type}.
Variables (format : string) (func : @operation V) (var1 var2 var3 : V)
          (recursive : bool).

Lemma failures_logged_app l1 l2 :
  failures_logged func var1 var2 var3 l1 -> failures_logged func var1 var2 var3 l2 ->
  failures_logged func var1 var2 var3 (l1 ++ l2).
Proof.
  intros H1 H2 ctx fs1 [Hin|Hin]%elem_of_app e He; apply elem_of_app.
  - left. by eapply H1.
  - right. by eapply H2.
Qed.

Lemma failures_logged_quiet l :
  (forall ctx fs1, Invoke ctx fs1 ∉ l) -> failures_logged func var1 var2 var3 l.
Proof. intros H ctx fs1 Hin. by apply H in Hin. Qed.

Lemma visit_entry_failures_logged dir recurse name fs fs' l :
  (forall d fs1 fs2 l', recurse d fs1 = Some (fs2, l') ->
     failures_logged func var1 var2 var3 l') ->
  visit_entry dir format func var1 var2 var3 recursive recurse name fs = Some (fs', l) ->
  failures_logged func var1 var2 var3 l.
Proof.
  intros Hrec. unfold visit_entry.
  destruct (negb (path_exists fs _)).
  { intros [= _ <-]. apply failures_logged_quiet.
    intros ctx fsc ?%list_elem_of_singleton. done. }
  destruct (negb (path_isfile fs _)).
  { destruct recursive; [apply Hrec|]. intros [= _ <-].
    apply failures_logged_quiet. intros ctx fsc ?%elem_of_nil. done. }
  destruct (Str.endswith _ _).
  2:{ intros [= _ <-]. apply failures_logged_quiet. intros ctx fsc ?%elem_of_nil. done. }
  destruct (FileContext.init _ fs) as [fs1 [ctx|e]] eqn:Ei.
  - apply init_ok in Ei as (name' & fmt & _ & Hctx).
    assert (Ho : original_file ctx = join dir (str (child (parse dir) name)))
      by (by rewrite Hctx).
    destruct (func ctx var1 var2 var3 fs1) as [fs2 [e|]] eqn:Ef; intros [= _ <-].
    + intros c fsc Hc. apply elem_of_cons in Hc as [[= <- <-]|Hc].
      * rewrite Ef. intros e' [= <-]. rewrite Ho. right. by left.
      * apply list_elem_of_singleton in Hc. done.
    + intros c fsc ?%list_elem_of_singleton. injection H as <- <-.
      rewrite Ef. simpl. intros e He. discriminate He.
  - intros [= _ <-]. apply failures_logged_quiet.
    intros c fsc ?%list_elem_of_singleton. done.
Qed.

Lemma visit_entries_failures_logged dir recurse names fs fs' l :
  (forall d fs1 fs2 l', recurse d fs1 = Some (fs2, l') ->
     failures_logged func var1 var2 var3 l') ->
  visit_entries dir format func var1 var2 var3 recursive recurse names fs = Some (fs', l) ->
  failures_logged func var1 var2 var3 l.
Proof.
  intros Hrec. revert fs l. induction names as [|n names IH]; intros fs l; simpl.
  - intros [= _ <-]. apply failures_logged_quiet. intros c fsc ?%elem_of_nil. done.
  - destruct (visit_entry _ _ _ _ _ _ _ _ n fs) as [[fs1 l1]|] eqn:E1; [|done].
    simpl. destruct (visit_entries _ _ _ _ _ _ _ _ names fs1) as [[fs2 l2]|] eqn:E2; [|done].
    simpl. intros [= <- <-]. apply failures_logged_app.
    + by eapply visit_entry_failures_logged.
    + by eapply IH.
Qed.

(** In every run, a call that raises is followed by its error line. *)
Lemma traverse_failures_logged fuel dir fs fs' log :
  traverse fuel dir format func var1 var2 var3 recursive fs = Some (fs', log) ->
  failures_logged func var1 var2 var3 log.
Proof.
  revert dir fs fs' log. induction fuel as [|fuel IH]; intros dir fs fs' log; [done|].
  simpl.
  assert (Hq : forall e, failures_logged func var1 var2 var3 [e] \/
                         exists c fsc, e = Invoke c fsc).
  { intros e. destruct e; eauto; left; apply failures_logged_quiet;
      intros c fsc ?%list_elem_of_singleton; done. }
  destruct (negb (Path_exists fs _)).
  { intros [= _ <-]. by destruct (Hq (DirectoryNotFound (str (parse dir)))) as [?|(? & ? & ?)]. }
  destruct (negb (Path_is_dir fs _)).
  { intros [= _ <-]. by destruct (Hq (NotADirectory (str (parse dir)))) as [?|(? & ? & ?)]. }
  destruct (listdir fs _) as [names|e].
  2:{ intros [= _ <-].
      by destruct (Hq (CannotAccessDirectory (str (parse dir)) e)) as [?|(? & ? & ?)]. }
  destruct (visit_entries _ _ _ _ _ _ _ _ names fs) as [[fs1 log1]|] eqn:E; [|done].
  simpl. intros [= _ <-].
  apply (failures_logged_app [Visit (str (parse dir))] log1).
  - by destruct (Hq (Visit (str (parse dir)))) as [?|(? & ? & ?)].
  - eapply visit_entries_failures_logged; [|exact E]. intros d fs1' fs2 l. apply IH.
Qed.

(** An operation that leaves the file system alone meets the contract. *)
Lemma polite_pure :
  (forall ctx fs, (func ctx var1 var2 var3 fs).1 = fs) -> polite func var1 var2 var3.
Proof.
  intros H p fs0 ctx fs _ _. rewrite H. split; [done|]. split; [done|].
  intros. apply same_kind_refl.
Qed.

End Failures.

(** ** Checking a concrete tree *)

Section Checkers.
Import os spec posixpath pathlib FileContext.
Implicit Types (t : gmap location node) (loc : location).

Lemma valid_nameb_sound n : valid_nameb n = true -> valid_name n.
Proof.
  unfold valid_nameb, valid_name. rewrite !andb_true_iff, !negb_true_iff.
  intros [[[H1 H2] H3] H4].
  repeat split; try done; intros E; by rewrite bool_decide_eq_true_2 in * by done.
Qed.

Lemma forallb_keys t (f : location * node -> bool) q x :
  forallb f (map_to_list t) = true -> t !! q = Some x -> f (q, x) = true.
Proof.
  intros H Hq. apply elem_of_map_to_list, list_elem_of_In in Hq.
  by apply (proj1 (forallb_forall f _) H) in Hq.
Qed.

Lemma wf_namesb_sound t : wf_namesb t = true -> wf_names t.
Proof.
  intros H q x Hq. apply (forallb_keys _ _ _ _ H) in Hq. simpl in Hq.
  apply Forall_forall. intros n Hn%list_elem_of_In.
  apply valid_nameb_sound. by apply (proj1 (forallb_forall _ _) Hq).
Qed.

Lemma parents_okb_sound t : parents_okb t = true -> parents_ok t.
Proof.
  intros H q n [x Hq]. apply (forallb_keys _ _ _ _ H) in Hq. simpl in Hq.
  rewrite removelast_last in Hq. by destruct (node_at t q) as [[]|].
Qed.

Lemma is_below_app loc r : is_below loc (loc ++ r) = true.
Proof.
  unfold is_below. apply bool_decide_eq_true_2. by rewrite take_app_length.
Qed.

Lemma fitsb_sound t loc fuel : fitsb t loc fuel = true -> fits t loc fuel.
Proof.
  unfold fitsb. rewrite andb_true_iff. intros [H0 H]. split.
  - by apply bool_decide_eq_true_1 in H0.
  - intros r [x Hq]. apply (forallb_keys _ _ _ _ H) in Hq. simpl in Hq.
    rewrite is_below_app in Hq. simpl in Hq. apply bool_decide_eq_true_1 in Hq.
    rewrite length_app in Hq. lia.
Qed.

Lemma freshb_sound t loc : freshb t loc = true -> fresh t loc.
Proof.
  intros H r [x Hq]. apply (forallb_keys _ _ _ _ H) in Hq. simpl in Hq.
  rewrite is_below_app in Hq. simpl in Hq. apply negb_true_iff in Hq.
  apply bool_decide_eq_false_1 in Hq. by rewrite drop_app_length in Hq.
Qed.

End Checkers.

(** ** Flat runs *)

Section Unpack.
Import os spec posixpath pathlib FileContext.
Context {V : Type}.

Variables (dir format : string) (func : @operation V) (var1 var2 var3 : V).
Variable recurse : string -> filesystem -> option (filesystem * list event).
Variables (d : string) (loc : location) (t0 : gmap location node) (P : Path).

Hypothesis d_slash : Str.all_char sep d = true \/ Str.endswith d "/" = false.
Hypothesis d_entries : forall n, n <> "" -> obj_relative_path dir n = d +:+ "/" +:+ n.
Hypothesis d_paths : forall n, n <> "" -> d +:+ "/" +:+ n = str (descend P [n]).
Hypothesis format_no_sep : Str.contains sep format = false.
Hypothesis func_polite : polite func var1 var2 var3.

(** In a flat run a matching file without a dot in its name is reached
    as it was, and the constructor's failure is logged. *)
Lemma visit_entries_unpack names : forall fs,
  NoDup names -> Forall valid_name names ->
  resolves_dir fs d loc ->
  (forall n, n ∈ names -> n <> "compressed" ->
     forall r, same_kind (t0 !! (loc ++ n :: r)) (tree fs !! (loc ++ n :: r))) ->
  forall fs' log,
    visit_entries dir format func var1 var2 var3 false recurse names fs
      = Some (fs', log) ->
    forall n, n ∈ names -> n <> "compressed" ->
      is_file (t0 !! (loc ++ [n])) = true ->
      Str.endswith (Str.lower n) (Str.lower format) = true ->
      Str.contains "." n = false ->
      unpack_logged (d +:+ "/" +:+ n) log.
Proof.
  induction names as [|m rest IH]; intros fs Hnd Hv Hr Hk fs' log E n Hin Hnc Hf He Hd.
  { by apply elem_of_nil in Hin. }
  apply NoDup_cons in Hnd as [Hm Hnd]. apply Forall_cons in Hv as [Hvm Hv].
  destruct (visit_entry_ok dir format func var1 var2 var3 false recurse d loc t0 P
              d_slash d_entries d_paths format_no_sep func_polite
              (fun H => False_ind _ (diff_false_true H))
              (fun H => False_ind _ (diff_false_true H)) fs m Hr Hvm)
    as (fs1 & l1 & E1 & C1 & S1 & _).
  { done. }
  { intros Hmc. apply Hk; [by left | done]. }
  simpl in E. rewrite E1 in E. simpl in E.
  destruct (visit_entries dir format func var1 var2 var3 false recurse rest fs1)
    as [[fs2 l2]|] eqn:E2; [|done].
  simpl in E. injection E as <- <-.
  apply elem_of_cons in Hin as [->|Hin].
  - rewrite (visit_entry_eq dir format func var1 var2 var3 false recurse d loc)
      in E1 by done.
    pose proof (Hk m ltac:(by left) Hnc []) as Hk0.
    rewrite (same_kind_is_file _ _ Hk0) in Hf.
    destruct (tree fs !! (loc ++ [m])) as [[x|]|]; try done.
    rewrite He in E1. apply rsplit1_none in Hd. rewrite Hd in E1.
    injection E1 as <- <-. eexists. apply elem_of_app. left. by left.
  - destruct (IH fs1 Hnd Hv) with (fs' := fs2) (log := l2) (n := n) as [msg H];
      try done.
    + by eapply confined_resolves_dir.
    + intros k Hkin Hkc r. eapply same_kind_trans; [apply Hk; [by right|done]|].
      apply S1; [|done]. by intros ->.
    + exists msg. apply elem_of_app. by right.
Qed.

End Unpack.

Section Flat.
Import os spec posixpath pathlib FileContext.
Context {V : Type}.
Variables (format : string) (func : @operation V) (var1 var2 var3 : V).
Hypothesis format_no_sep : Str.contains sep format = false.
Hypothesis func_polite : polite func var1 var2 var3.

(** A flat run over an absolute root: it returns, and its log is as the
    tree it started from demands. *)
Lemma traverse_flat_ok fuel dir loc fs :
  Str.starts_with_char sep dir = true ->
  wf_names (tree fs) ->
  dir_loc fs dir loc ->
  exists fs' log,
    traverse (S fuel) dir format func var1 var2 var3 false fs = Some (fs', log) /\
    run_ok (tree fs) format false (parse dir) loc log /\
    failures_logged func var1 var2 var3 log /\
    (forall n, n <> "compressed" ->
       is_file (tree fs !! (loc ++ [n])) = true ->
       Str.endswith (Str.lower n) (Str.lower format) = true ->
       Str.contains "." n = false ->
       unpack_logged (str (child (parse dir) n)) log).
Proof.
  intros Ha Hwf Hl.
  destruct (traverse_ok format func var1 var2 var3 false (tree fs) format_no_sep
              func_polite Hwf (fun H => False_ind _ (diff_false_true H))
              (S fuel) dir loc fs Ha Hl)
    as (fs' & log & E & _ & Hrun).
  { intros n r. apply same_kind_refl. }
  { lia. }
  { intros H. discriminate H. }
  exists fs', log. split; [done|]. split; [done|].
  split; [by eapply traverse_failures_logged|].
  intros n Hnc Hf He Hd.
  destruct (absolute_base fs dir loc Ha Hl) as (d & Hr & Hds & Hde).
  assert (Hdp : forall n, n <> "" -> d +:+ "/" +:+ n = str (descend (parse dir) [n])).
  { intros k Hk. rewrite <- (Hde k Hk). by apply obj_relative_path_absolute. }
  destruct (dir_loc_stat _ _ _ Hl) as [Hres Hstat].
  simpl in E. unfold Path_exists, Path_is_dir, path_exists, path_isdir, listdir in E.
  rewrite Hstat, Hres in E. rewrite bool_decide_eq_true_2 in E by eauto. simpl in E.
  destruct Hl as [Hwalk Hnode]. rewrite Hnode in E.
  destruct (visit_entries dir format func var1 var2 var3 false
              (fun d' => traverse fuel d' format func var1 var2 var3 false)
              (entries (tree fs) loc) fs) as [[fs1 l1]|] eqn:E1; [|done].
  simpl in E. injection E as <- <-.
  assert (Hin : n ∈ entries (tree fs) loc).
  { apply elem_of_entries. by apply is_file_Some. }
  assert (Hvalid : Forall valid_name (entries (tree fs) loc)).
  { apply Forall_forall. intros k [x Hx]%elem_of_entries.
    pose proof (Hwf _ _ Hx) as Hw. simpl in Hw.
    apply Forall_app in Hw as [_ H]. by inversion H. }
  assert (Hn : n <> "").
  { apply (proj1 (Forall_forall _ _) Hvalid) in Hin. by destruct Hin. }
  destruct (visit_entries_unpack dir format func var1 var2 var3 _ d loc (tree fs)
              (parse dir) Hds Hde Hdp format_no_sep func_polite
              (entries (tree fs) loc) fs (NoDup_entries _ _) Hvalid Hr
              (fun _ _ _ _ => same_kind_refl _) fs1 l1 E1 n Hin Hnc Hf He Hd)
    as [msg Hmsg].
  exists msg. rewrite child_descend, <- (Hdp n Hn). by right.
Qed.

End Flat.

(** ** Which files a run hands to the operation *)

Section Runs.
Import os spec posixpath pathlib FileContext.
Context {V : Type}.




End Runs.

Section RunsExamples.
Import os spec posixpath pathlib FileContext examples.

Lemma wf_batch : wf_names (tree fs_batch).
Proof. apply wf_namesb_sound. vm_compute. reflexivity. Qed.

Lemma dir_loc_batch : dir_loc fs_batch "/d" ["d"].
Proof. split; vm_compute; reflexivity. Qed.

Lemma parents_batch : parents_ok (tree fs_batch).
Proof. apply parents_okb_sound. vm_compute. reflexivity. Qed.

Lemma fits_batch : fits (tree fs_batch) ["d"] 3.
Proof. apply fitsb_sound. vm_compute. reflexivity. Qed.

Lemma fresh_batch : fresh (tree fs_batch) ["d"].
Proof. apply freshb_sound. vm_compute. reflexivity. Qed.

Lemma polite_noop : polite noop tt tt tt.
Proof. by apply polite_pure. Qed.

Lemma polite_fails_on p : polite (fails_on p) tt tt tt.
Proof. by apply polite_pure. Qed.


(** The match is on the path and the constructor wants a dot: [README] ends with the filter
    [me] and is never handed to the operation, while [clip.MOV] does not
    end with the filter [d/clip.mov] and is handed to it. *)
Lemma flat_run_matches_path_not_name :
  (is_file (tree fs_readme !! ["d"; "README"]) = true /\
   Str.endswith (Str.lower "README") (Str.lower "me") = true /\
   exists fs' log,
     traverse 1 "/d" "me" noop tt tt tt false fs_readme = Some (fs', log) /\
     invoked log = []) /\
  (is_file (tree fs_clip !! ["d"; "clip.MOV"]) = true /\
   Str.endswith (Str.lower "clip.MOV") (Str.lower "d/clip.mov") = false /\
   exists fs' log,
     traverse 1 "/d" "d/clip.mov" noop tt tt tt false fs_clip = Some (fs', log) /\
     invoked log = ["/d/clip.MOV"]).
Proof.
  split; (split; [reflexivity|]); (split; [reflexivity|]);
    eexists _, _; (split; [vm_compute; reflexivity|]); reflexivity.
Qed.



(** The same at depth: [/d/sub/README] ends with the filter [me], and a
    recursive run lists both directories without ever calling the
    operation. *)
Lemma recursive_run_skips_dotless :
  is_file (tree fs_deep !! ["d"; "sub"; "README"]) = true /\
  Str.endswith (Str.lower "README") (Str.lower "me") = true /\
  exists fs' log,
    traverse 2 "/d" "me" noop tt tt tt true fs_deep = Some (fs', log) /\
    visited log = ["/d"; "/d/sub"] /\ invoked log = [].
Proof.
  split; [reflexivity|]. split; [reflexivity|].
  eexists _, _. split; [vm_compute; reflexivity|]. split; reflexivity.
Qed.

End RunsExamples.

(** ** Constructing a transaction and changing its format *)

Section Construction.
Import os spec posixpath pathlib FileContext.

Lemma makedirs_ok_isdir p fs fs' :
  makedirs p fs = (fs', Ok tt) -> path_isdir fs' p = true.
Proof.
  unfold makedirs. case_bool_decide as Hp; [done|].
  destruct (makedirs_walk p (tree fs) (start fs p) false (Str.split sep p))
    as [t r] eqn:E.
  intros [= <- ->].
  destruct (makedirs_walk_ok _ _ _ _ _ _ E) as (loc & Hw & Hn); [done|].
  unfold path_isdir, stat, resolve. rewrite bool_decide_eq_false_2 by done.
  change (start (with_tree fs t) p) with (start fs p). simpl.
  rewrite Hw. simpl. by rewrite Hn.
Qed.

Lemma makedirs_walk_no_value_error p t cur made comps t' msg :
  makedirs_walk p t cur made comps <> (t', Raise (ValueError msg)).
Proof.
  revert t cur made. induction comps as [|c cs IH]; intros t cur made; simpl.
  - by destruct made.
  - destruct (node_at t cur) as [[x|]|]; try done.
    destruct (named c); [|apply IH].
    destruct (node_at t (cur ++ [c])); apply IH.
Qed.

(** Constructing a transaction a second time changes nothing and gives the
    same transaction. *)
Theorem FileContext_init_again (p : string) (fs fs' : filesystem) (ctx : FileContext.t) :
  init p fs = (fs', Ok ctx) -> init p fs' = (fs', Ok ctx).
Proof.
  unfold init. destruct (Str.rsplit1 "." (basename p)) as [[name ext]|]; [|done].
  cbv zeta. set (cd := join (dirname p) "compressed").
  destruct (path_exists fs cd) eqn:Ex; simpl.
  - intros [= <- <-]. by rewrite Ex.
  - destruct (makedirs cd fs) as [fs1 [[]|e]] eqn:Em; [|done].
    intros [= <- <-].
    by rewrite (path_isdir_exists _ _ (makedirs_ok_isdir _ _ _ Em)).
Qed.

(** For a path whose base name has no dot the constructor raises the
    [ValueError] of the failed unpacking, and it has touched nothing. *)
Theorem FileContext_init_value_error (p : string) (fs : filesystem) :
  Str.contains "." (basename p) = false ->
  exists msg, init p fs = (fs, Raise (ValueError msg)).
Proof. intros Hd%rsplit1_none. unfold init. rewrite Hd. eauto. Qed.

(** For a file [name.ext] next to which the constructor returns, whatever
    the name: the staging path is [d/compressed/name-temp.ext], the final
    path keeps the file name, [d/compressed] exists afterwards and nothing
    but directories was added. *)
Theorem FileContext_init_paths (fs fs' : filesystem) (d name ext : string)
    (ctx : FileContext.t) :
  Str.all_char sep d = true \/ Str.endswith d "/" = false ->
  Str.contains sep name = false -> Str.contains sep ext = false ->
  Str.contains "." ext = false ->
  init (d +:+ "/" +:+ name +:+ "." +:+ ext) fs = (fs', Ok ctx) ->
  temp_file ctx = d +:+ "/compressed/" +:+ name +:+ "-temp." +:+ ext /\
  final_file ctx = d +:+ "/compressed/" +:+ name +:+ "." +:+ ext /\
  original_file ctx = d +:+ "/" +:+ name +:+ "." +:+ ext /\
  path_exists fs' (d +:+ "/compressed") = true /\
  only_dirs_added fs fs'.
Proof.
  intros Hd Hn He Hdot Hi.
  assert (Hs : Str.contains sep (name +:+ "." +:+ ext) = false).
  { rewrite contains_app, Hn. simpl. by rewrite append_nil_l. }
  assert (Hrs : Str.rsplit1 "." (name +:+ "." +:+ ext) = Some (name, ext)).
  { change (name +:+ "." +:+ ext) with (name +:+ String "." ext).
    rewrite rsplit1_app. apply rsplit1_none in Hdot. by rewrite Hdot. }
  assert (Hx : Str.contains sep (name +:+ "-temp." +:+ ext) = false).
  { rewrite contains_app, Hn. simpl. by rewrite append_nil_l. }
  pose proof (init_only_dirs _ _ _ _ Hi) as Hgrow.
  revert Hi. unfold init. rewrite basename_child, Hrs by done. cbv zeta.
  rewrite join_dirname_child by done.
  destruct (join_compressed (dirname (d +:+ "/" +:+ name +:+ "." +:+ ext))) as [Hc1 Hc2].
  rewrite (join_dirname_child d _ "compressed" Hd Hs eq_refl) in Hc1, Hc2.
  rewrite !join_below by done.
  destruct (path_exists fs (d +:+ "/" +:+ "compressed")) eqn:Ex; simpl.
  - intros [= <- <-]. simpl. by rewrite !append_assoc.
  - destruct (makedirs _ fs) as [fs1 [[]|e]] eqn:Em; [|done].
    intros [= <- <-]. simpl. rewrite !append_assoc.
    split; [done|]. split; [done|]. split; [done|]. split; [|done].
    apply path_isdir_exists.
    change (d +:+ "/compressed") with (d +:+ "/" +:+ "compressed").
    by eapply makedirs_ok_isdir.
Qed.

(** After construction and any slash-free format changes, a format change
    to [f] (no slash, no dot) followed by one to [g] is the format change
    to [g]. *)
Theorem set_format_last_wins (p : string) (fs fs' : filesystem) (ctx0 : FileContext.t)
    (formats : list string) (f g : string) :
  init p fs = (fs', Ok ctx0) ->
  Forall (fun x => Str.contains sep x = false) formats ->
  Str.contains sep f = false -> Str.contains "." f = false ->
  set_format (set_format (foldl set_format ctx0 formats) f) g
  = set_format (foldl set_format ctx0 formats) g.
Proof.
  intros Hi Hfs Hf Hdot.
  pose proof (foldl_set_format_staged _ formats ctx0 Hfs (init_staged _ _ _ _ Hi)) as Hst.
  set (ctx := foldl set_format ctx0 formats) in *. clearbody ctx.
  set (cd := join (dirname p) "compressed") in *. clearbody cd.
  destruct Hst as (Hne & Hes & x & y & Hx & Hy & Et & Ef & _).
  destruct (set_format_paths cd ctx x f Hne Hes Hx Hf Et) as [Et1 _].
  assert (Hstem : Str.contains sep (rsplit_head x +:+ "." +:+ f) = false).
  { rewrite contains_app, (rsplit_head_no_sep _ Hx). simpl.
    by rewrite append_nil_l. }
  assert (Hhead : rsplit_head (rsplit_head x +:+ "." +:+ f) = rsplit_head x).
  { unfold rsplit_head at 1.
    change (rsplit_head x +:+ "." +:+ f) with (rsplit_head x +:+ String "." f).
    rewrite rsplit1_app. apply rsplit1_none in Hdot. by rewrite Hdot. }
  unfold set_format at 1 3. rewrite Et1. simpl original_file. simpl original_file_name.
  rewrite Et.
  rewrite !dirname_child, !basename_child by done.
  by rewrite Hhead.
Qed.

End Construction.

Section ConstructionExamples.
Import os spec posixpath pathlib FileContext examples.

Lemma FileContext_init_again_witness :
  exists fs' ctx,
    init "/d/clip.MOV" fs_clip = (fs', Ok ctx) /\
    init "/d/clip.MOV" fs' = (fs', Ok ctx).
Proof.
  eexists _, _. split; [vm_compute; reflexivity|].
  apply (FileContext_init_again "/d/clip.MOV" fs_clip). vm_compute. reflexivity.
Defined.

Lemma dir_loc_clip : resolves_dir fs_clip "/d" ["d"].
Proof. split; vm_compute; reflexivity. Qed.

Lemma FileContext_init_paths_witness :
  exists fs' ctx,
    init "/d/clip.MOV" fs_clip = (fs', Ok ctx) /\
    temp_file ctx = "/d/compressed/clip-temp.MOV" /\
    final_file ctx = "/d/compressed/clip.MOV" /\
    original_file ctx = "/d/clip.MOV" /\
    path_exists fs' "/d/compressed" = true /\
    only_dirs_added fs_clip fs'.
Proof.
  eexists _, _.
  assert (E : init "/d/clip.MOV" fs_clip = (_, Ok _)) by (vm_compute; reflexivity).
  split; [exact E|].
  exact (FileContext_init_paths fs_clip _ "/d" "clip" "MOV" _
           (or_intror eq_refl) eq_refl eq_refl eq_refl E).
Defined.

Lemma FileContext_init_value_error_witness :
  exists msg, init "/d/README" fs_readme = (fs_readme, Raise (ValueError msg)).
Proof. exact (FileContext_init_value_error "/d/README" fs_readme eq_refl). Defined.

Lemma set_format_last_wins_witness :
  exists fs' ctx,
    init "/d/clip.MOV" fs_clip = (fs', Ok ctx) /\
    set_format (set_format (set_format ctx "avi") "mkv") "mp4"
    = set_format (set_format ctx "avi") "mp4".
Proof.
  eexists _, _. split; [vm_compute; reflexivity|].
  refine (set_format_last_wins "/d/clip.MOV" fs_clip _ _ ["avi"] "mkv" "mp4"
            _ _ eq_refl eq_refl).
  - vm_compute. reflexivity.
  - repeat constructor.
Defined.

(** With a dot in the first format the staging name keeps a piece of it:
    the two changes are not the one change. *)
Lemma set_format_dotted_stays :
  exists fs' ctx,
    init "/d/clip.MOV" fs_clip = (fs', Ok ctx) /\
    temp_file (set_format (set_format ctx "tar.gz") "mp4")
      = "/d/compressed/clip-temp.tar.mp4" /\
    temp_file (set_format ctx "mp4") = "/d/compressed/clip-temp.mp4".
Proof.
  eexists _, _. split; [vm_compute; reflexivity|]. split; reflexivity.
Qed.

End ConstructionExamples.

(** ** Discarding the original and finalizing *)

Section Commit.
Import os spec posixpath pathlib FileContext.

Lemma walk_same_dirs t t' cur comps :
  (forall q, node_at t q = Some Directory <-> node_at t' q = Some Directory) ->
  walk t cur comps = walk t' cur comps.
Proof.
  intros H. revert cur. induction comps as [|c cs IH]; intros cur; [done|]. simpl.
  destruct (node_at t cur) as [[x|]|] eqn:E, (node_at t' cur) as [[y|]|] eqn:E';
    try done; try (apply H in E; congruence); apply H in E'; congruence.
Qed.

Lemma dirs_delete_file t loc x q :
  t !! loc = Some (File x) ->
  node_at (delete loc t) q = Some Directory <-> node_at t q = Some Directory.
Proof.
  intros Hl. destruct q as [|a q]; [done|]. simpl.
  destruct (decide (loc = a :: q)) as [->|Hne].
  - rewrite lookup_delete_eq, Hl. done.
  - by rewrite lookup_delete_ne.
Qed.

Lemma dirs_insert_file t loc x q :
  node_at t loc <> Some Directory ->
  node_at (<[loc := File x]> t) q = Some Directory <-> node_at t q = Some Directory.
Proof.
  intros Hl. destruct q as [|a q]; [done|]. simpl.
  destruct (decide (loc = a :: q)) as [->|Hne].
  - rewrite lookup_insert_eq. simpl in Hl. split; [done|]. intros; done.
  - by rewrite lookup_insert_ne.
Qed.

Lemma resolve_same_dirs fs fs' p :
  cwd fs' = cwd fs ->
  (forall q, node_at (tree fs) q = Some Directory <->
             node_at (tree fs') q = Some Directory) ->
  resolve fs' p = resolve fs p.
Proof.
  intros Hc H. unfold resolve, start. rewrite Hc.
  case_bool_decide; [done|]. symmetry. by apply walk_same_dirs.
Qed.

(** Discarding the original: when the call returns, the file is gone,
    nothing else has changed, and a second call does nothing. *)
Theorem delete_original_file_twice (ctx : FileContext.t) (fs fs' : filesystem) :
  delete_original_file ctx fs = (fs', Ok tt) ->
  path_exists fs' (original_file ctx) = false /\
  delete_original_file ctx fs' = (fs', Ok tt) /\
  cwd fs' = cwd fs /\
  (forall q, resolve fs (original_file ctx) <> Some q ->
             tree fs' !! q = tree fs !! q).
Proof.
  unfold delete_original_file.
  destruct (path_exists fs (original_file ctx)) eqn:Ex.
  - unfold path_exists in Ex. apply bool_decide_eq_true_1 in Ex as [v Hs].
    unfold stat in Hs. unfold remove.
    destruct (resolve fs (original_file ctx)) as [loc|] eqn:Er; [|done].
    simpl in Hs. rewrite Hs. destruct v as [x|]; [|done].
    intros [= <-].
    assert (Hl : tree fs !! loc = Some (File x)) by (by destruct loc).
    set (fs' := with_tree fs (delete loc (tree fs))).
    assert (Er' : resolve fs' (original_file ctx) = Some loc).
    { rewrite <- Er. apply resolve_same_dirs; [done|].
      intros q. symmetry. by apply (dirs_delete_file _ _ x). }
    assert (Ex' : path_exists fs' (original_file ctx) = false).
    { unfold path_exists, stat. rewrite Er'. simpl.
      apply bool_decide_eq_false_2. intros [v Hv].
      destruct loc; [done|]. simpl in Hv. by rewrite lookup_delete_eq in Hv. }
    split; [done|]. rewrite Ex'.
    split; [done|]. split; [done|].
    intros q Hq. simpl. apply lookup_delete_ne. congruence.
  - intros [= <-]. by rewrite Ex.
Qed.

Lemma resolves_dir_child fs d loc m :
  resolves_dir fs d loc -> Str.contains sep m = false -> named m = true ->
  tree fs !! (loc ++ [m]) = Some Directory ->
  resolves_dir fs (d +:+ "/" +:+ m) (loc ++ [m]).
Proof.
  intros [Hw Hd] Hm Hn Ht. split; [|by rewrite node_at_snoc].
  assert (Hs : start fs ((d +:+ "/" +:+ m) +:+ "/") = start fs (d +:+ "/"))
    by (unfold start; by destruct d).
  rewrite Hs, split_child, walk_app, Hw. simpl.
  rewrite (split_plain _ _ Hm). simpl. by rewrite Hd, (step_named _ _ Hn).
Qed.

Lemma stat_below_dir fs d loc m x :
  resolves_dir fs d loc -> Str.contains sep m = false -> named m = true ->
  Str.contains sep x = false ->
  is_Some (stat fs ((d +:+ "/" +:+ m) +:+ "/" +:+ x)) ->
  tree fs !! (loc ++ [m]) = Some Directory.
Proof.
  intros [Hw Hd] Hm Hn Hx [v Hv]. revert Hv. unfold stat, resolve.
  rewrite bool_decide_eq_false_2 by (by destruct d).
  assert (Hs : start fs ((d +:+ "/" +:+ m) +:+ "/" +:+ x) = start fs (d +:+ "/"))
    by (unfold start; by destruct d).
  rewrite Hs, !split_child, <- app_assoc, walk_app, Hw. simpl.
  rewrite (split_plain _ _ Hm), (split_plain _ _ Hx). simpl.
  rewrite Hd, (step_named _ _ Hn), node_at_snoc.
  by destruct (tree fs !! (loc ++ [m])) as [[]|].
Qed.

Lemma named_contains c x :
  Str.contains c x = true -> c <> "."%char -> named x = true.
Proof.
  intros Hc Hne. unfold named. apply andb_true_iff. split; apply negb_true_iff;
    apply bool_decide_eq_false_2.
  - intros [->| ->]; [done|]. simpl in Hc. rewrite orb_false_r in Hc.
    apply bool_decide_eq_true_1 in Hc. congruence.
  - intros ->. simpl in Hc. rewrite orb_false_r in Hc.
    apply orb_true_iff in Hc as [Hc|Hc]; apply bool_decide_eq_true_1 in Hc; congruence.
Qed.

(** Finalizing: for a transaction constructed for [d/n] whose staging
    file is there, a rename that returns has moved the staged data to the
    final path: the final path holds it, the staging path is gone and the
    original is as it was. *)
Theorem rename_temp_file_commits (fs0 fs1 fs fs' : filesystem) (d n : string)
    (loc : location) (ctx : FileContext.t) (data : string) :
  Str.all_char sep d = true \/ Str.endswith d "/" = false ->
  valid_name n ->
  init (d +:+ "/" +:+ n) fs0 = (fs1, Ok ctx) ->
  resolves_dir fs d loc ->
  stat fs (temp_file ctx) = Some (File data) ->
  rename_temp_file ctx fs = (fs', Ok tt) ->
  stat fs' (final_file ctx) = Some (File data) /\
  path_exists fs' (temp_file ctx) = false /\
  stat fs' (original_file ctx) = stat fs (original_file ctx).
Proof.
  intros Hd Hn Hi Hr Ht Hren. pose proof Hn as (Hne & _ & _ & Hs).
  destruct (init_ok _ _ _ _ Hi) as (name & ext & Hrs & ->).
  rewrite basename_child in Hrs by done.
  destruct (rsplit1_recompose _ _ _ _ Hrs) as [En _].
  assert (Hparts : Str.contains sep name = false /\ Str.contains sep ext = false).
  { rewrite En, contains_app in Hs. apply orb_false_iff in Hs as [? Hs].
    simpl in Hs. done. }
  destruct Hparts as [Hname Hext].
  set (x := name +:+ "-temp." +:+ ext) in *.
  assert (Hx : Str.contains sep x = false).
  { unfold x. rewrite contains_app, Hname. simpl. by rewrite append_nil_l. }
  assert (Hxn : named x = true).
  { apply (named_contains "-"); [|done]. unfold x. rewrite contains_app.
    apply orb_true_iff. right. done. }
  assert (Hxne : x <> n).
  { unfold x. rewrite En. intros E%(inj (String.append name)). discriminate E. }
  cbv zeta in *. simpl in *.
  rewrite basename_child in * by done.
  destruct (join_compressed (dirname (d +:+ "/" +:+ n))) as [Hc1 Hc2].
  rewrite (join_below _ x Hc1 Hc2 Hx) in *.
  rewrite (join_below _ n Hc1 Hc2 Hs) in *.
  rewrite (join_dirname_child d n "compressed" Hd Hs eq_refl) in *.
  pose proof (stat_below_dir fs d loc "compressed" x Hr eq_refl eq_refl Hx
                ltac:(by rewrite Ht)) as Hcd.
  pose proof (resolves_dir_child fs d loc "compressed" Hr eq_refl eq_refl Hcd) as Hrc.
  set (cd := d +:+ "/" +:+ "compressed") in *.
  set (cloc := loc ++ ["compressed"]) in *.
  rewrite (stat_child fs cd cloc x Hrc Hx Hxn) in Ht.
  revert Hren. unfold rename_temp_file, rename. simpl.
  rewrite (resolve_child fs cd cloc x Hrc Hx), (step_named _ _ Hxn), node_at_snoc, Ht.
  rewrite (resolve_child fs cd cloc n Hrc Hs),
    (step_named _ _ (valid_name_named _ Hn)), node_at_snoc.
  set (t' := <[cloc ++ [n] := File data]> (delete (cloc ++ [x]) (tree fs))).
  intros Hren.
  assert (Hf : tree fs !! (cloc ++ [n]) <> Some Directory).
  { intros E. by rewrite E in Hren. }
  assert (Hfs : fs' = with_tree fs t').
  { by destruct (tree fs !! (cloc ++ [n])) as [[]|]; injection Hren as <-. }
  subst fs'. clear Hren.
  assert (Hdirs : forall q, node_at (tree fs) q = Some Directory <->
                            node_at t' q = Some Directory).
  { intros q. unfold t'. rewrite dirs_insert_file, (dirs_delete_file _ _ data); [done..|].
    rewrite node_at_snoc.
    rewrite lookup_delete_ne by (intros E%app_inv_head; congruence).
    by destruct (tree fs !! (cloc ++ [n])) as [[]|]. }
  assert (Hres : forall p, resolve (with_tree fs t') p = resolve fs p)
    by (intros p; by apply resolve_same_dirs).
  assert (Hrc' : resolves_dir (with_tree fs t') cd cloc).
  { destruct Hrc as [Hw Hnode]. split; [|by apply Hdirs].
    rewrite <- Hw. symmetry. by apply walk_same_dirs. }
  assert (Hr' : resolves_dir (with_tree fs t') d loc).
  { destruct Hr as [Hw Hnode]. split; [|by apply Hdirs].
    rewrite <- Hw. symmetry. by apply walk_same_dirs. }
  split; [|split].
  - rewrite (stat_child _ cd cloc n Hrc' Hs (valid_name_named _ Hn)).
    unfold t'. simpl. by rewrite lookup_insert_eq.
  - unfold path_exists. rewrite (stat_child _ cd cloc x Hrc' Hx Hxn).
    apply bool_decide_eq_false_2. unfold t'. simpl.
    rewrite lookup_insert_ne by (intros E%app_inv_head; congruence).
    rewrite lookup_delete_eq. by intros [? ?].
  - rewrite (stat_child _ d loc n Hr' Hs (valid_name_named _ Hn)),
      (stat_child _ d loc n Hr Hs (valid_name_named _ Hn)).
    unfold t', cloc. simpl. rewrite <- !app_assoc. simpl.
    rewrite lookup_insert_ne by (intros E%app_inv_head; discriminate E).
    rewrite lookup_delete_ne by (intros E%app_inv_head; discriminate E). done.
Qed.

End Commit.

Section CommitExamples.
Import os spec posixpath pathlib FileContext examples.

Lemma delete_original_file_twice_witness :
  path_exists (with_tree fs_clip (delete ["d"; "clip.MOV"] (tree fs_clip))) "/d/clip.MOV"
    = false /\
  delete_original_file (child_ctx "/d" "clip.MOV" "clip" "MOV")
    (with_tree fs_clip (delete ["d"; "clip.MOV"] (tree fs_clip)))
  = (with_tree fs_clip (delete ["d"; "clip.MOV"] (tree fs_clip)), Ok tt).
Proof.
  destruct (delete_original_file_twice (child_ctx "/d" "clip.MOV" "clip" "MOV")
              fs_clip _ eq_refl) as (A & B & _).
  split; [exact A | exact B].
Defined.

Lemma rename_temp_file_commits_witness :
  exists fs1 ctx fs',
    init "/d/clip.MOV" fs_clip = (fs1, Ok ctx) /\
    rename_temp_file ctx fs_staged = (fs', Ok tt) /\
    stat fs' "/d/compressed/clip.MOV" = Some (File "encoded") /\
    path_exists fs' "/d/compressed/clip-temp.MOV" = false /\
    stat fs' "/d/clip.MOV" = Some (File "raw").
Proof.
  eexists _, _, _.
  assert (E : init "/d/clip.MOV" fs_clip = (_, Ok _)) by (vm_compute; reflexivity).
  assert (R : rename_temp_file (child_ctx "/d" "clip.MOV" "clip" "MOV") fs_staged
              = (_, Ok tt)) by (vm_compute; reflexivity).
  split; [exact E|]. split; [exact R|].
  exact (rename_temp_file_commits fs_clip _ fs_staged _ "/d" "clip.MOV" ["d"] _
           "encoded" (or_intror eq_refl)
           ltac:(repeat split; discriminate) E
           ltac:(split; vm_compute; reflexivity) eq_refl R).
Defined.

End CommitExamples.

(** ** Escaped file names *)

Section Escaping.
Import FileContext.

Lemma convert_nil : convert_file_name "" = "".
Proof. reflexivity. Qed.

Lemma convert_space s :
  convert_file_name (String " " s) = String "\" (String " " (convert_file_name s)).
Proof. reflexivity. Qed.

Lemma convert_quote s :
  convert_file_name (String "'" s) = String "\" (String "'" (convert_file_name s)).
Proof. reflexivity. Qed.

Lemma convert_other a s :
  a <> " "%char -> a <> "'"%char ->
  convert_file_name (String a s) = String a (convert_file_name s).
Proof.
  intros H1 H2. unfold convert_file_name. simpl.
  rewrite (bool_decide_eq_false_2 _ H1). simpl.
  by rewrite (bool_decide_eq_false_2 _ H2).
Qed.

Lemma convert_head s c t :
  convert_file_name s = String c t -> c <> " "%char /\ c <> "'"%char.
Proof.
  destruct s as [|a s]; [done|].
  destruct (decide (a = " "%char)) as [->|H1].
  { rewrite convert_space. by intros [= <- _]. }
  destruct (decide (a = "'"%char)) as [->|H2].
  { rewrite convert_quote. by intros [= <- _]. }
  rewrite convert_other by done. by intros [= <- _].
Qed.

(** Escaping loses nothing: two names with one escaped form are one name. *)
Theorem convert_file_name_inj (a b : string) :
  convert_file_name a = convert_file_name b -> a = b.
Proof.
  revert b. induction a as [|x a IH]; intros b.
  - destruct b as [|y b]; [done|]. rewrite convert_nil.
    destruct (decide (y = " "%char)) as [->|H1]; [by rewrite convert_space|].
    destruct (decide (y = "'"%char)) as [->|H2]; [by rewrite convert_quote|].
    by rewrite convert_other.
  - assert (Hstep : forall y b,
              y = x -> convert_file_name a = convert_file_name b ->
              String x a = String y b).
    { intros y b' -> E. by rewrite (IH _ E). }
    destruct b as [|y b].
    { rewrite convert_nil.
      destruct (decide (x = " "%char)) as [->|H1]; [by rewrite convert_space|].
      destruct (decide (x = "'"%char)) as [->|H2]; [by rewrite convert_quote|].
      by rewrite convert_other. }
    destruct (decide (x = " "%char)) as [->|Hx1];
      [rewrite convert_space
      |destruct (decide (x = "'"%char)) as [->|Hx2];
       [rewrite convert_quote | rewrite (convert_other x) by done]];
    (destruct (decide (y = " "%char)) as [->|Hy1];
      [rewrite convert_space
      |destruct (decide (y = "'"%char)) as [->|Hy2];
       [rewrite convert_quote | rewrite (convert_other y) by done]]);
    intros E; injection E; clear E; intros; subst;
      try (by apply Hstep); try done;
      match goal with
      | H : String _ _ = convert_file_name _ |- _ =>
          symmetry in H; apply convert_head in H; by destruct H
      | H : convert_file_name _ = String _ _ |- _ =>
          apply convert_head in H; by destruct H
      end.
Qed.

(** Every space and every single quote of the escaped form has a backslash
    right before it. *)
Theorem convert_file_name_escapes (s pre post : string) (c : ascii) :
  convert_file_name s = pre +:+ String c post ->
  c = " "%char \/ c = "'"%char ->
  exists pre', pre = pre' +:+ "\".
Proof.
  revert pre. induction s as [|a s IH]; intros pre E Hc.
  { rewrite convert_nil in E. by destruct pre. }
  assert (Hrest : forall pre2, convert_file_name s = pre2 +:+ String c post ->
            forall h, exists pre', h +:+ pre2 = pre' +:+ "\").
  { intros pre2 E2 h. destruct (IH pre2 E2 Hc) as [p' ->].
    exists (h +:+ p'). by rewrite append_assoc. }
  destruct (decide (a = " "%char)) as [->|H1];
    [rewrite convert_space in E
    |destruct (decide (a = "'"%char)) as [->|H2];
     [rewrite convert_quote in E | rewrite convert_other in E by done]].
  - destruct pre as [|p1 pre]; [injection E as <- _; by destruct Hc|].
    injection E as <- E.
    destruct pre as [|p2 pre]; [by exists ""|].
    injection E as <- E. apply (Hrest pre E "\ ").
  - destruct pre as [|p1 pre]; [injection E as <- _; by destruct Hc|].
    injection E as <- E.
    destruct pre as [|p2 pre]; [by exists ""|].
    injection E as <- E. apply (Hrest pre E "\'").
  - destruct pre as [|p1 pre]; [injection E as <- _; by destruct Hc|].
    injection E as <- E. apply (Hrest pre E (String a "")).
Qed.

(** A name without a space and without a single quote is its own escaped
    form. *)
Theorem convert_file_name_plain (s : string) :
  Str.contains " " s = false -> Str.contains "'" s = false ->
  convert_file_name s = s.
Proof.
  induction s as [|a s IH]; [done|]. simpl.
  intros [H1 Hs1]%orb_false_iff [H2 Hs2]%orb_false_iff.
  apply bool_decide_eq_false_1 in H1, H2.
  rewrite convert_other by done. by rewrite IH.
Qed.

End Escaping.

Section EscapingExamples.
Import FileContext.

Lemma convert_file_name_inj_witness :
  convert_file_name "my clip.mp4" = "my\ clip.mp4" /\
  forall b, convert_file_name b = "my\ clip.mp4" -> b = "my clip.mp4".
Proof.
  split; [reflexivity|]. intros b E. symmetry.
  apply (convert_file_name_inj "my clip.mp4" b). rewrite E. reflexivity.
Defined.

Lemma convert_file_name_escapes_witness :
  convert_file_name "it's a clip.mp4" = "it\'s\ a\ clip.mp4" /\
  exists pre', "it\'s\" = pre' +:+ "\".
Proof.
  split; [reflexivity|].
  apply (convert_file_name_escapes "it's a clip.mp4" "it\'s\" "a\ clip.mp4" " ");
    [reflexivity | by left].
Defined.

Lemma convert_file_name_plain_witness :
  convert_file_name "/d/clip.MOV" = "/d/clip.MOV".
Proof. apply convert_file_name_plain; reflexivity. Defined.

End EscapingExamples.

(** ** What every run does *)

Section EveryRun.
Import os spec posixpath pathlib FileContext.
Context {V : Type}.
Variables (func : @operation V) (var1 var2 var3 : V).

Lemma visit_entry_handed dir format recursive recurse name fs fs' l :
  (forall d fs1 fs2 l', recurse d fs1 = Some (fs2, l') -> Forall (handed_ok format) l') ->
  visit_entry dir format func var1 var2 var3 recursive recurse name fs = Some (fs', l) ->
  Forall (handed_ok format) l.
Proof.
  intros Hrec. unfold visit_entry.
  destruct (negb (path_exists fs _)).
  { intros [= _ <-]. by repeat constructor. }
  destruct (negb (path_isfile fs _)).
  { destruct recursive; [apply Hrec|]. intros [= _ <-]. constructor. }
  destruct (Str.endswith _ _) eqn:Ee.
  2:{ intros [= _ <-]. constructor. }
  destruct (FileContext.init _ fs) as [fs1 [ctx|e]] eqn:Ei.
  - pose proof Ei as (name' & fmt & _ & Hctx)%init_ok.
    assert (Ho : original_file ctx = join dir (str (child (parse dir) name)))
      by (by rewrite Hctx).
    assert (H : handed_ok format (Invoke ctx fs1)).
    { simpl. rewrite Ho. split; [done|]. by exists fs. }
    destruct (func ctx var1 var2 var3 fs1) as [fs2 [e|]]; intros [= _ <-];
      repeat (apply List.Forall_cons; [first [exact H | exact I]|]);
      apply List.Forall_nil.
  - intros [= _ <-]. by repeat constructor.
Qed.

Lemma visit_entries_handed dir format recursive recurse names : forall fs fs' l,
  (forall d fs1 fs2 l', recurse d fs1 = Some (fs2, l') -> Forall (handed_ok format) l') ->
  visit_entries dir format func var1 var2 var3 recursive recurse names fs = Some (fs', l) ->
  Forall (handed_ok format) l.
Proof.
  induction names as [|n names IH]; intros fs fs' l Hrec; simpl.
  - intros [= _ <-]. constructor.
  - destruct (visit_entry _ _ _ _ _ _ _ _ n fs) as [[fs1 l1]|] eqn:E1; [|done].
    simpl. destruct (visit_entries _ _ _ _ _ _ _ _ names fs1) as [[fs2 l2]|] eqn:E2; [|done].
    simpl. intros [= <- <-]. apply Forall_app. split.
    + by eapply visit_entry_handed.
    + by eapply IH.
Qed.

Lemma traverse_handed fuel : forall dir format recursive fs fs' log,
  traverse fuel dir format func var1 var2 var3 recursive fs = Some (fs', log) ->
  Forall (handed_ok format) log.
Proof.
  induction fuel as [|fuel IH]; intros dir format recursive fs fs' log; [done|].
  simpl.
  destruct (negb (Path_exists fs _)); [intros [= _ <-]; by repeat constructor|].
  destruct (negb (Path_is_dir fs _)); [intros [= _ <-]; by repeat constructor|].
  destruct (listdir fs _) as [names|e]; [|intros [= _ <-]; by repeat constructor].
  destruct (visit_entries _ _ _ _ _ _ _ _ names fs) as [[fs1 log1]|] eqn:E; [|done].
  simpl. intros [= _ <-]. constructor; [done|].
  eapply visit_entries_handed; [|exact E]. intros d fs1' fs2 l. apply IH.
Qed.

(** In every run, whatever the root, the operation and the flag: the
    operation is always called with the transaction the constructor built
    for the path it is called for, on the file system the constructor
    left; and when that path and the filter are ASCII strings, the path
    ends with the filter (case-insensitively). *)
Theorem traverse_hands_constructed (fuel : nat) (dir format : string)
    (recursive : bool) (fs fs' : filesystem) (log : list event) (ctx : FileContext.t)
    (fs1 : filesystem) :
  traverse fuel dir format func var1 var2 var3 recursive fs = Some (fs', log) ->
  Invoke ctx fs1 ∈ log ->
  (exists fs0, init (original_file ctx) fs0 = (fs1, Ok ctx)) /\
  (Str.isascii (original_file ctx) = true -> Str.isascii format = true ->
   Str.endswith (Str.lower (original_file ctx)) (Str.lower format) = true).
Proof.
  intros E%traverse_handed Hin.
  apply (proj1 (Forall_forall _ _) E) in Hin as [H1 H2]. by split.
Qed.

Lemma visit_entry_format dir f1 f2 recursive rec1 rec2 name fs :
  Str.lower f1 = Str.lower f2 ->
  (forall d fs1, rec1 d fs1 = rec2 d fs1) ->
  visit_entry dir f1 func var1 var2 var3 recursive rec1 name fs
  = visit_entry dir f2 func var1 var2 var3 recursive rec2 name fs.
Proof. intros Hf Hrec. unfold visit_entry. by rewrite Hf, Hrec. Qed.

Lemma visit_entries_format dir f1 f2 recursive rec1 rec2 names : forall fs,
  Str.lower f1 = Str.lower f2 ->
  (forall d fs1, rec1 d fs1 = rec2 d fs1) ->
  visit_entries dir f1 func var1 var2 var3 recursive rec1 names fs
  = visit_entries dir f2 func var1 var2 var3 recursive rec2 names fs.
Proof.
  induction names as [|n names IH]; intros fs Hf Hrec; [done|]. simpl.
  rewrite (visit_entry_format dir f1 f2 recursive rec1 rec2 n fs Hf Hrec).
  destruct (visit_entry _ _ _ _ _ _ _ _ n fs) as [[fs1 l1]|]; [|done]. simpl.
  by rewrite IH.
Qed.

(** The filter is compared without regard to case: two filters that differ
    in case only give the same run. *)
Theorem traverse_filter_case (fuel : nat) (dir f1 f2 : string) (recursive : bool)
    (fs : filesystem) :
  Str.lower f1 = Str.lower f2 ->
  traverse fuel dir f1 func var1 var2 var3 recursive fs
  = traverse fuel dir f2 func var1 var2 var3 recursive fs.
Proof.
  intros Hf. revert dir fs. induction fuel as [|fuel IH]; intros dir fs; [done|].
  simpl.
  destruct (negb (Path_exists fs _)); [done|].
  destruct (negb (Path_is_dir fs _)); [done|].
  destruct (listdir fs _) as [names|e]; [|done].
  by rewrite (visit_entries_format dir f1 f2 recursive _
                (fun d => traverse fuel d f2 func var1 var2 var3 recursive) names fs Hf).
Qed.

Lemma visit_entries_flat_quiet dir format recurse names : forall fs fs' l,
  visit_entries dir format func var1 var2 var3 false recurse names fs = Some (fs', l) ->
  visited l = [].
Proof.
  induction names as [|n names IH]; intros fs fs' l; simpl.
  - by intros [= _ <-].
  - destruct (visit_entry _ _ _ _ _ _ _ _ n fs) as [[fs1 l1]|] eqn:E1; [|done].
    simpl. destruct (visit_entries _ _ _ _ _ _ _ _ names fs1) as [[fs2 l2]|] eqn:E2; [|done].
    simpl. intros [= <- <-]. rewrite visited_app, (IH _ _ _ E2), app_nil_r.
    revert E1. unfold visit_entry.
    destruct (negb (path_exists fs _)); [by intros [= _ <-]|].
    destruct (negb (path_isfile fs _)); [by intros [= _ <-]|].
    destruct (Str.endswith _ _); [|by intros [= _ <-]].
    destruct (FileContext.init _ fs) as [fs1' [ctx|e]]; [|by intros [= _ <-]].
    by destruct (func ctx var1 var2 var3 fs1') as [fs2' [e|]]; intros [= _ <-].
Qed.

Lemma traverse_flat_once (fuel : nat) (dir format : string)
    (fs fs' : filesystem) (log : list event) :
  traverse fuel dir format func var1 var2 var3 false fs = Some (fs', log) ->
  traverse 1 dir format func var1 var2 var3 false fs = Some (fs', log) /\
  forall v, v ∈ visited log -> v = str (parse dir).
Proof.
  assert (Hsame : forall f1 f2 names fs0,
            visit_entries dir format func var1 var2 var3 false f1 names fs0
            = visit_entries dir format func var1 var2 var3 false f2 names fs0).
  { intros f1 f2 names. induction names as [|n names IH]; intros fs0; [done|].
    simpl. assert (E : visit_entry dir format func var1 var2 var3 false f1 n fs0
                       = visit_entry dir format func var1 var2 var3 false f2 n fs0)
      by done.
    rewrite E. destruct (visit_entry _ _ _ _ _ _ _ _ n fs0) as [[fs1 l1]|]; [|done].
    simpl. by rewrite IH. }
  destruct fuel as [|fuel]; [done|]. intros E.
  assert (E1 : traverse 1 dir format func var1 var2 var3 false fs = Some (fs', log)).
  { rewrite <- E. simpl.
    destruct (negb (Path_exists fs _)); [done|].
    destruct (negb (Path_is_dir fs _)); [done|].
    destruct (listdir fs _) as [names|e]; [|done].
    by rewrite (Hsame _ (fun d => traverse fuel d format func var1 var2 var3 false)). }
  split; [exact E1|]. clear E. revert E1. simpl.
  destruct (negb (Path_exists fs _)); [intros [= _ <-]; by intros v ?%elem_of_nil|].
  destruct (negb (Path_is_dir fs _)); [intros [= _ <-]; by intros v ?%elem_of_nil|].
  destruct (listdir fs _) as [names|e]; [|intros [= _ <-]; by intros v ?%elem_of_nil].
  destruct (visit_entries _ _ _ _ _ _ _ _ names fs) as [[fs1 l1]|] eqn:E; [|done].
  simpl. intros [= _ <-]. simpl.
  rewrite (visit_entries_flat_quiet _ _ _ _ _ _ _ E).
  by intros v ?%list_elem_of_singleton.
Qed.

(** A non-recursive run that returns has listed no directory but its
    root, and has needed no more than one level of the recursion. *)
Theorem traverse_flat_lists_root_only (fuel : nat) (dir format : string)
    (fs fs' : filesystem) (log : list event) :
  traverse fuel dir format func var1 var2 var3 false fs = Some (fs', log) ->
  traverse 1 dir format func var1 var2 var3 false fs = Some (fs', log) /\
  forall v, v ∈ visited log -> v = str (parse dir).
Proof. apply traverse_flat_once. Qed.

End EveryRun.

Section Confinement.
Import os spec posixpath pathlib FileContext.
Context {V : Type}.


End Confinement.

(** ** An operation that writes *)

Section Discard.
Import os spec posixpath pathlib FileContext examples.

Lemma delete_original_file_effect ctx fs :
  (delete_original_file ctx fs).1 = fs \/
  exists loc x,
    resolve fs (original_file ctx) = Some loc /\
    node_at (tree fs) loc = Some (File x) /\
    (delete_original_file ctx fs).1 = with_tree fs (delete loc (tree fs)).
Proof.
  unfold delete_original_file.
  destruct (path_exists fs (original_file ctx)); [|by left].
  unfold remove.
  destruct (resolve fs (original_file ctx)) as [loc|] eqn:Er; [|by left].
  destruct (node_at (tree fs) loc) as [[x|]|] eqn:En; [|by left..].
  right. by exists loc, x.
Qed.

(** Discarding the original keeps to the contract. *)
Lemma polite_discard : polite discard tt tt tt.
Proof.
  intros p fs0 ctx fs _ _. unfold discard. cbn [fst].
  destruct (delete_original_file_effect ctx fs) as [->|(loc & x & Er & En & ->)].
  { split; [done|]. split; [done|]. intros. apply same_kind_refl. }
  assert (Hl : tree fs !! loc = Some (File x)) by (by destruct loc).
  split; [done|]. split.
  - intros q Hq. simpl. by apply (dirs_delete_file _ _ x).
  - intros q Hq _. simpl.
    assert (q <> loc) by congruence.
    destruct q as [|a q]; [apply same_kind_refl|]. simpl.
    rewrite lookup_delete_ne by done. apply same_kind_refl.
Qed.

End Discard.

(** ** What a run does to the file system (C10) *)

Section EngineSteps.
Import os spec posixpath pathlib FileContext.
Context {V : Type}.
Variables (format : string) (func : @operation V) (var1 var2 var3 : V)
          (recursive : bool).

Local Abbreviation steps := (rtc (engine_step format func var1 var2 var3)).

Lemma visit_entry_steps dir recurse name fs fs' log :
  (forall d fs1 fs2 l, recurse d fs1 = Some (fs2, l) -> steps fs1 fs2) ->
  visit_entry dir format func var1 var2 var3 recursive recurse name fs = Some (fs', log) ->
  steps fs fs'.
Proof.
  intros Hrec. unfold visit_entry.
  destruct (negb (path_exists fs _)); [by intros [= <- _]|].
  destruct (path_isfile fs _) eqn:Ef; cbn [negb].
  2:{ destruct recursive; [apply Hrec | by intros [= <- _]]. }
  destruct (Str.endswith _ _) eqn:Ee; [|by intros [= <- _]].
  pose proof (staging_step format func var1 var2 var3 _ fs Ef Ee) as Hs.
  destruct (FileContext.init _ fs) as [fs1 [ctx|e]] eqn:Ei; simpl in Hs.
  - pose proof (operation_step format func var1 var2 var3 _ _ _ _ Ei) as Ho.
    destruct (func ctx var1 var2 var3 fs1) as [fs2 [e|]]; intros [= <- _];
      simpl in Ho; by eapply rtc_l; [exact Hs | apply rtc_once].
  - intros [= <- _]. by apply rtc_once.
Qed.

Lemma visit_entries_steps dir recurse names fs fs' log :
  (forall d fs1 fs2 l, recurse d fs1 = Some (fs2, l) -> steps fs1 fs2) ->
  visit_entries dir format func var1 var2 var3 recursive recurse names fs = Some (fs', log) ->
  steps fs fs'.
Proof.
  intros Hrec. revert fs log. induction names as [|n names IH]; intros fs log; simpl.
  - by intros [= <- _].
  - destruct (visit_entry _ _ _ _ _ _ _ _ n fs) as [[fs1 log1]|] eqn:E1; [|done].
    simpl. destruct (visit_entries _ _ _ _ _ _ _ _ names fs1) as [[fs2 log2]|] eqn:E2; [|done].
    simpl. intros [= <- _]. etrans.
    + by eapply visit_entry_steps.
    + by eapply IH.
Qed.

Lemma traverse_steps fuel dir fs fs' log :
  traverse fuel dir format func var1 var2 var3 recursive fs = Some (fs', log) ->
  steps fs fs'.
Proof.
  revert dir fs fs' log. induction fuel as [|fuel IH]; intros dir fs fs' log; [done|].
  simpl. destruct (negb (Path_exists fs _)); [by intros [= <- _]|].
  destruct (negb (Path_is_dir fs _)); [by intros [= <- _]|].
  destruct (listdir fs _) as [names|e]; [|by intros [= <- _]].
  destruct (visit_entries _ _ _ _ _ _ _ _ names fs) as [[fs1 log1]|] eqn:E; [|done].
  simpl. intros [= <- _]. eapply visit_entries_steps; [|exact E].
  intros d fs1' fs2 l. apply IH.
Qed.

(** What the constructor does for the entry [n] of the directory [d]:
    nothing, or the one directory [compressed] in [d]. *)
Lemma init_effect fs d loc n :
  Str.all_char sep d = true \/ Str.endswith d "/" = false ->
  resolves_dir fs d loc -> Str.contains sep n = false ->
  (init (d +:+ "/" +:+ n) fs).1 = with_compressed fs loc \/
  (init (d +:+ "/" +:+ n) fs).1 = fs.
Proof.
  intros Hd Hr Hn.
  destruct (Str.rsplit1 "." n) as [[name ext]|] eqn:Ers.
  - left. by rewrite (init_child fs d loc n name ext).
  - right. unfold init. by rewrite basename_child, Ers.
Qed.


End EngineSteps.

Section EngineStepsExamples.
Import os spec posixpath pathlib FileContext examples.


End EngineStepsExamples.

Section EveryRunExamples.
Import os spec posixpath pathlib FileContext examples.

Lemma traverse_hands_constructed_witness :
  exists fs' log ctx fs1,
    traverse 1 "/d" ".mp4" noop tt tt tt false fs_batch = Some (fs', log) /\
    Invoke ctx fs1 ∈ log /\
    original_file ctx = "/d/a.mp4" /\
    (exists fs0, init (original_file ctx) fs0 = (fs1, Ok ctx)) /\
    (Str.isascii (original_file ctx) = true -> Str.isascii ".mp4" = true ->
     Str.endswith (Str.lower (original_file ctx)) (Str.lower ".mp4") = true).
Proof.
  eexists _, _, _, _.
  assert (E : traverse 1 "/d" ".mp4" noop tt tt tt false fs_batch = Some (_, _))
    by (vm_compute; reflexivity).
  split; [exact E|].
  match goal with
  | |- _ ∈ ?l /\ _ =>
      assert (Hin : Invoke (child_ctx "/d" "a.mp4" "a" "mp4")
                           (with_compressed fs_batch ["d"]) ∈ l)
        by (apply list_elem_of_In; right; left; reflexivity)
  end.
  split; [exact Hin|]. split; [reflexivity|].
  exact (traverse_hands_constructed noop tt tt tt 1 "/d" ".mp4" false fs_batch _ _ _ _ E Hin).
Defined.

Lemma traverse_flat_lists_root_only_witness :
  exists fs' log,
    traverse 3 "/d" ".mp4" noop tt tt tt false fs_batch = Some (fs', log) /\
    traverse 1 "/d" ".mp4" noop tt tt tt false fs_batch = Some (fs', log) /\
    forall v, v ∈ visited log -> v = "/d".
Proof.
  eexists _, _.
  assert (E : traverse 3 "/d" ".mp4" noop tt tt tt false fs_batch = Some (_, _))
    by (vm_compute; reflexivity).
  split; [exact E|].
  exact (traverse_flat_lists_root_only noop tt tt tt 3 "/d" ".mp4" fs_batch _ _ E).
Defined.

Lemma traverse_filter_case_witness :
  traverse 1 "/d" ".MP4" noop tt tt tt false fs_batch
  = traverse 1 "/d" ".mp4" noop tt tt tt false fs_batch.
Proof. exact (traverse_filter_case noop tt tt tt 1 "/d" ".MP4" ".mp4" false fs_batch eq_refl). Defined.


End EveryRunExamples.

(** ** The command-line caller *)

Section Script.
Import os spec posixpath pathlib FileContext drone_video.

Lemma lstrip_head cs s a t : lstrip cs s = String a t -> cs a = false.
Proof.
  induction s as [|b s IH]; [done|]. simpl.
  destruct (cs b) eqn:E; [done|]. by intros [= <- _].
Qed.

Lemma rstrip_last cs s t a : rstrip cs s = t +:+ String a "" -> cs a = false.
Proof.
  revert t. induction s as [|b s IH]; intros t; simpl.
  - by destruct t.
  - destruct (rstrip cs s) as [|c r] eqn:E.
    + destruct (cs b) eqn:Eb; [by destruct t|].
      destruct t as [|x t]; [by intros [= <-]|]. intros [= _ H]. by destruct t.
    + destruct t as [|x t]; [done|]. intros [= _ H]. by apply (IH t).
Qed.

Lemma rstrip_head cs s a t :
  rstrip cs s = String a t -> exists t', s = String a t'.
Proof.
  destruct s as [|b s]; [done|]. simpl.
  destruct (rstrip cs s); [destruct (cs b)|]; intros [= <- _]; eauto.
Qed.

Lemma strip_ends cs s :
  (forall a t, strip cs s = String a t -> cs a = false) /\
  (forall t a, strip cs s = t +:+ String a "" -> cs a = false).
Proof.
  split.
  - intros a t [t' H]%rstrip_head. by apply lstrip_head in H.
  - intros t a. apply rstrip_last.
Qed.

(** The cleaned answer neither begins nor ends with a double quote. *)
Theorem clean_no_double_quote (answer : string) :
  (forall t, clean answer <> String double_quote t) /\
  (forall t, clean answer <> t +:+ String double_quote "").
Proof.
  destruct (strip_ends (Ascii.eqb double_quote)
              (strip (Ascii.eqb single_quote) (strip is_space answer))) as [H1 H2].
  split; intros t E.
  - by apply H1 in E.
  - by apply H2 in E.
Qed.

Lemma visit_entries_flat_total {V} dir format (func : @operation V) var1 var2 var3
    recurse names : forall fs,
  is_Some (visit_entries dir format func var1 var2 var3 false recurse names fs).
Proof.
  induction names as [|n names IH]; intros fs; [by eexists|]. simpl.
  assert (E : is_Some (visit_entry dir format func var1 var2 var3 false recurse n fs)).
  { unfold visit_entry.
    destruct (negb (path_exists fs _)); [by eexists|].
    destruct (negb (path_isfile fs _)); [by eexists|].
    destruct (Str.endswith _ _); [|by eexists].
    destruct (FileContext.init _ fs) as [fs1 [ctx|e]]; [|by eexists].
    destruct (func ctx var1 var2 var3 fs1) as [fs2 [e|]]; by eexists. }
  destruct E as [[fs1 l1] ->]. simpl.
  destruct (IH fs1) as [[fs2 l2] ->]. by eexists.
Qed.

(** The script as a whole, for an ASCII answer.  It ends with status 1,
    before anything is done, exactly when the cleaned answer is not an
    existing directory; otherwise the run lists no directory but that one,
    hands the compressor only transactions the constructor built, for
    paths that (when ASCII) end with [.mp4] in any case, and the status is
    0 whatever failed on the way. *)
Theorem main_run (answer : string) (compress_drone_video : @operation (option string))
    (fs : filesystem) (o : outcome) :
  Str.isascii answer = true ->
  main answer compress_drone_video fs = Some o ->
  (exit_status o = 1 <-> path_isdir fs (clean answer) = false) /\
  (forall fs' log, o = ProcessingCompleted fs' log ->
     (forall v, v ∈ visited log -> v = str (parse (clean answer))) /\
     forall ctx fs1, Invoke ctx fs1 ∈ log ->
       exists fs0, init (original_file ctx) fs0 = (fs1, Ok ctx) /\
         (Str.isascii (original_file ctx) = true ->
          Str.endswith (Str.lower (original_file ctx)) ".mp4" = true)).
Proof.
  intros _. unfold main. cbv zeta. set (dir := clean answer).
  destruct (path_exists fs dir) eqn:Ex; cbn [negb].
  2:{ intros [= <-]. split; [|done]. split; [|done]. intros _.
      destruct (path_isdir fs dir) eqn:Ed; [|done].
      apply path_isdir_exists in Ed. congruence. }
  destruct (path_isdir fs dir) eqn:Ed; cbn [negb].
  2:{ intros [= <-]. split; [|done]. done. }
  destruct (traverse 1 dir ".mp4" compress_drone_video (Some "1920:1080") (Some "15M")
              None false fs) as [[fs1 l1]|] eqn:E; [|done].
  cbn [mbind option_bind]. intros [= <-]. split; [done|].
  intros fs' log [= <- <-]. split.
  - by apply (traverse_flat_once _ _ _ _ _ _ _ _ _ _ E).
  - intros ctx fsc Hin.
    pose proof (traverse_handed _ _ _ _ _ _ _ _ _ _ _ E) as Hall.
    apply (proj1 (Forall_forall _ _) Hall) in Hin as [H1 [fs0 H2]].
    exists fs0. by split.
Qed.

End Script.

Section ScriptExamples.
Import os spec posixpath pathlib FileContext drone_video examples.

(** Single quotes inside double quotes stay: the order of the three
    strips matters. *)
Lemma clean_examples :
  clean "  '/d'  " = "/d" /\
  clean (String double_quote "/d" +:+ String double_quote "") = "/d" /\
  clean (String double_quote "'/d'" +:+ String double_quote "") = "'/d'".
Proof. repeat split. Qed.

Lemma main_run_example :
  exists fs' log,
    main " '/d' " noop_compress fs_batch = Some (ProcessingCompleted fs' log) /\
    invoked log = ["/d/a.mp4"; "/d/B.MP4"].
Proof. eexists _, _. split; [vm_compute; reflexivity | reflexivity]. Qed.

Lemma main_run_witness :
  exists fs' log,
    main " '/d' " noop_compress fs_batch = Some (ProcessingCompleted fs' log) /\
    exit_status (ProcessingCompleted fs' log) = 0 /\
    forall v, v ∈ visited log -> v = "/d".
Proof.
  eexists _, _.
  assert (E : main " '/d' " noop_compress fs_batch = Some (ProcessingCompleted _ _))
    by (vm_compute; reflexivity).
  split; [exact E|]. split; [reflexivity|].
  exact (proj1 (proj2 (main_run " '/d' " noop_compress fs_batch _ eq_refl E) _ _ eq_refl)).
Defined.

End ScriptExamples.

(** ** Copying the featured files *)

Section FeaturedPaths.
Import os spec posixpath pathlib featured.

Lemma normal_child fs P loc n :
  normal P -> dir_loc fs (str P) loc -> valid_name n ->
  resolve fs (str (child P n)) = Some (loc ++ [n]) /\
  stat fs (str (child P n)) = tree fs !! (loc ++ [n]) /\
  normal (child P n) /\
  (tree fs !! (loc ++ [n]) = Some Directory ->
   dir_loc fs (str (child P n)) (loc ++ [n])).
Proof.
  intros HP Hl Hn. pose proof Hn as (Hne & _ & _ & Hs).
  destruct (absolute_base fs (str P) loc (str_normal_absolute _ HP) Hl)
    as (d & Hr & Hds & Hde).
  assert (E : str (child P n) = d +:+ "/" +:+ n).
  { rewrite <- (Hde n Hne), (obj_relative_path_absolute _ _ (str_normal_absolute _ HP)).
    by rewrite (parse_str _ HP). }
  rewrite E. split; [|split; [|split]].
  - by rewrite (resolve_child _ _ _ _ Hr Hs), (step_named _ _ (valid_name_named _ Hn)).
  - by apply stat_child; [| |apply valid_name_named].
  - rewrite child_descend. apply normal_descend; [done|by constructor].
  - intros Hd. by apply dir_loc_child.
Qed.

Lemma name_child P n : name (child P n) = n.
Proof. unfold name. simpl. by rewrite last_snoc. Qed.

Lemma iterdir_dir fs P loc :
  normal P -> dir_loc fs (str P) loc ->
  iterdir fs P = Ok (child P <$> entries (tree fs) loc).
Proof.
  intros HP Hl. unfold iterdir, listdir.
  rewrite <- (parse_str _ HP) at 1 2.
  destruct (dir_loc_stat _ _ _ Hl) as [-> _].
  destruct Hl as [_ Hn]. rewrite Hn. by rewrite (parse_str _ HP).
Qed.

End FeaturedPaths.

Section FeaturedSearch.
Import os spec posixpath pathlib featured.
Variables (fs : filesystem) (base_dir : Path) (bloc : location).
Hypothesis base_normal : normal base_dir.
Hypothesis base_dir_loc : dir_loc fs (str base_dir) bloc.
Hypothesis wf : wf_names (tree fs).

(** What a listed file of the directory [P] at [loc] is to [file_stem]. *)
Lemma file_stem_child P loc n s :
  normal P -> dir_loc fs (str P) loc -> valid_name n ->
  file_stem fs (child P n) = Some s ->
  (exists x, tree fs !! (loc ++ [n]) = Some (File x)) /\
  s = Str.lower (stem n) /\ Str.starts_with_char "." s = false.
Proof.
  intros HP Hl Hn. unfold file_stem, is_file, path_isfile.
  destruct (normal_child fs P loc n HP Hl Hn) as (_ & -> & _).
  rewrite name_child.
  destruct (tree fs !! (loc ++ [n])) as [[x|]|]; try done.
  destruct (Str.starts_with_char "." (Str.lower (stem n))) eqn:E; [done|].
  intros [= <-]. eauto.
Qed.

Lemma search_dir_files P loc (names : gset string) f :
  normal P -> dir_loc fs (str P) loc ->
  f ∈ List.filter (fun f => match file_stem fs f with
                            | Some s => bool_decide (s ∈ names)
                            | None => false
                            end) (child P <$> entries (tree fs) loc) ->
  exists n x, f = child P n /\ valid_name n /\
    resolve fs (str f) = Some (loc ++ [n]) /\
    tree fs !! (loc ++ [n]) = Some (File x) /\
    Str.lower (stem n) ∈ names /\
    Str.starts_with_char "." (Str.lower (stem n)) = false.
Proof.
  intros HP Hl Hf. apply list_elem_of_In, filter_In in Hf as [Hin Hs].
  apply list_elem_of_In, list_elem_of_fmap in Hin as (n & -> & Hn).
  assert (Hv : valid_name n).
  { by apply (proj1 (Forall_forall _ _) (entries_valid _ loc wf)). }
  destruct (file_stem fs (child P n)) as [s|] eqn:E; [|done].
  apply bool_decide_eq_true_1 in Hs.
  destruct (file_stem_child P loc n s HP Hl Hv E) as ([x Hx] & -> & Hdot).
  destruct (normal_child fs P loc n HP Hl Hv) as (Hres & _).
  by exists n, x.
Qed.

Lemma search_ok (names : gset string) subdir :
  subdir = "" \/ valid_name subdir ->
  exists l, search fs base_dir names subdir = Ok l /\
    forall f, f ∈ l ->
      exists n x, f = child (if bool_decide (subdir = "") then base_dir
                             else child base_dir subdir) n /\
        valid_name n /\
        resolve fs (str f) = Some (bloc ++ subloc subdir ++ [n]) /\
        tree fs !! (bloc ++ subloc subdir ++ [n]) = Some (File x) /\
        Str.lower (stem n) ∈ names /\
        Str.starts_with_char "." (Str.lower (stem n)) = false.
Proof.
  intros Hsub. unfold search, subloc. cbv zeta.
  assert (Hnone : forall l : list Path, l = [] ->
            exists l', Ok l = Ok l' /\ forall f, f ∈ l' ->
              exists n x, f = child (if bool_decide (subdir = "") then base_dir
                                     else child base_dir subdir) n /\
                valid_name n /\
                resolve fs (str f)
                  = Some (bloc ++ (if bool_decide (subdir = "") then [] else [subdir])
                               ++ [n]) /\
                tree fs !! (bloc ++ (if bool_decide (subdir = "") then [] else [subdir])
                                 ++ [n]) = Some (File x) /\
                Str.lower (stem n) ∈ names /\
                Str.starts_with_char "." (Str.lower (stem n)) = false).
  { intros l ->. exists []. split; [done|]. by intros f ?%elem_of_nil. }
  case_bool_decide as Es.
  - (* the base directory itself *)
    destruct (negb (Path_exists fs base_dir) || negb (Path_is_dir fs base_dir));
      [by apply Hnone|].
    case_bool_decide; [by apply Hnone|].
    rewrite (iterdir_dir fs base_dir bloc base_normal base_dir_loc).
    eexists. split; [done|]. intros f Hf. simpl.
    by apply (search_dir_files base_dir bloc names f).
  - destruct Hsub as [?|Hv]; [done|].
    destruct (normal_child fs base_dir bloc subdir base_normal base_dir_loc Hv)
      as (_ & Hst & Hnorm & Hdir).
    unfold Path_exists, Path_is_dir, path_exists, path_isdir. rewrite Hst.
    destruct (tree fs !! (bloc ++ [subdir])) as [[x|]|] eqn:E.
    + rewrite bool_decide_eq_true_2 by eauto. by apply Hnone.
    + rewrite bool_decide_eq_true_2 by eauto. simpl.
      case_bool_decide; [by apply Hnone|].
      rewrite (iterdir_dir fs _ (bloc ++ [subdir]) Hnorm (Hdir eq_refl)).
      eexists. split; [done|]. intros f Hf.
      destruct (search_dir_files (child base_dir subdir) (bloc ++ [subdir]) names f
                  Hnorm (Hdir eq_refl) Hf) as (n & y & Hfn & Hvn & Hres & Hy & Hrest).
      rewrite <- app_assoc in Hy, Hres. by exists n, y.
    + rewrite bool_decide_eq_false_2 by (by intros [? ?]). by apply Hnone.
Qed.

Lemma search_all_ok (names : gset string) subdirs :
  Forall (fun s => s = "" \/ valid_name s) subdirs ->
  exists l, search_all fs base_dir names subdirs = Ok l /\
    forall f, f ∈ l ->
      exists subdir n x, subdir ∈ subdirs /\
        f = child (if bool_decide (subdir = "") then base_dir
                   else child base_dir subdir) n /\
        valid_name n /\
        resolve fs (str f) = Some (bloc ++ subloc subdir ++ [n]) /\
        tree fs !! (bloc ++ subloc subdir ++ [n]) = Some (File x) /\
        Str.lower (stem n) ∈ names /\
        Str.starts_with_char "." (Str.lower (stem n)) = false.
Proof.
  induction 1 as [|s subdirs Hs Hrest IH]; simpl.
  { exists []. split; [done|]. by intros f ?%elem_of_nil. }
  destruct (search_ok names s Hs) as (l1 & -> & H1).
  destruct IH as (l2 & -> & H2).
  exists (l1 ++ l2). split; [done|].
  intros f [Hf|Hf]%elem_of_app.
  - destruct (H1 f Hf) as (n & x & ?). exists s, n, x. split; [by left|done].
  - destruct (H2 f Hf) as (s' & n & x & ? & ?). exists s', n, x. split; [by right|done].
Qed.

Lemma image_subdirs_valid : Forall (fun s => s = "" \/ valid_name s) IMAGE_SUBDIRS.
Proof.
  unfold IMAGE_SUBDIRS. apply Forall_forall. intros s Hs.
  repeat (apply elem_of_cons in Hs as [->|Hs]);
    [by left | right; repeat split; done .. | by apply elem_of_nil in Hs].
Qed.

End FeaturedSearch.

Section FeaturedCopy.
Import os spec posixpath pathlib featured.

Lemma resolve_extends fs fs' p l :
  cwd fs' = cwd fs ->
  (forall q v, tree fs !! q = Some v -> tree fs' !! q = Some v) ->
  resolve fs p = Some l -> resolve fs' p = Some l.
Proof.
  intros Hc Hsub. unfold resolve, start. rewrite Hc.
  case_bool_decide; [done|]. apply walk_mono.
  intros [|a q]; [done|]. simpl. apply Hsub.
Qed.

Lemma dir_loc_extends fs fs' dir loc :
  cwd fs' = cwd fs ->
  (forall q v, tree fs !! q = Some v -> tree fs' !! q = Some v) ->
  dir_loc fs dir loc -> dir_loc fs' dir loc.
Proof.
  intros Hc Hsub [Hw Hn]. unfold dir_loc, leads_to_dir, start. rewrite Hc.
  assert (Hd : forall q, node_at (tree fs) q = Some Directory ->
                         node_at (tree fs') q = Some Directory).
  { intros [|a q]; [done|]. simpl. apply Hsub. }
  split; [|by apply Hd]. by apply (walk_mono (tree fs)).
Qed.

Variables (featured_dir : Path) (floc : location).
Variable Src : string -> string -> Prop.
Hypothesis featured_normal : normal featured_dir.

Lemma copy_all_effect files : forall fs c fs2 c2,
  dir_loc fs (str featured_dir) floc ->
  Forall (ready Src fs) files ->
  copy_all featured_dir files fs c = (fs2, c2) ->
  cwd fs2 = cwd fs /\
  (forall q v, tree fs !! q = Some v -> tree fs2 !! q = Some v) /\
  (forall q v, tree fs !! q = None -> tree fs2 !! q = Some v ->
     exists n x, q = floc ++ [n] /\ v = File x /\ Src n x) /\
  (c <= c2)%nat /\
  ((c < c2)%nat <-> exists q, tree fs !! q = None /\ is_Some (tree fs2 !! q)) /\
  (forall f, f ∈ files -> is_Some (tree fs2 !! (floc ++ [name f]))).
Proof.
  induction files as [|f files IH]; intros fs c fs2 c2 Hl Hall; simpl.
  { intros [= <- <-]. split; [done|]. split; [done|].
    split; [intros q v H1 H2; congruence|]. split; [done|].
    split; [|by intros f ?%elem_of_nil].
    split; [lia|]. intros (q & H1 & [v H2]). congruence. }
  apply Forall_cons in Hall as [(Hvn & sloc & x & Hres & Hx & Hsrc) Hall].
  destruct (normal_child fs featured_dir floc (name f) featured_normal Hl Hvn)
    as (Hdres & Hdst & _).
  unfold Path_exists, path_exists. rewrite Hdst.
  destruct (tree fs !! (floc ++ [name f])) as [v|] eqn:Ed.
  - (* already there: skipped *)
    rewrite bool_decide_eq_true_2 by eauto. intros E.
    destruct (IH fs c fs2 c2 Hl Hall E) as (A & B & C & D & F & G).
    repeat (split; [done|]).
    intros g [->|Hg]%elem_of_cons; [|by apply G].
    exists v. by apply B.
  - rewrite bool_decide_eq_false_2 by (by intros [? ?]).
    unfold copy2. rewrite Hres, Hx. unfold path_isdir. rewrite Hdst, Hdres.
    assert (Hne : floc ++ [name f] <> sloc).
    { intros <-. rewrite node_at_snoc in Hx. congruence. }
    rewrite (bool_decide_eq_false_2 _ Hne), node_at_snoc, Ed.
    set (fs1 := with_tree fs (<[floc ++ [name f] := File x]> (tree fs))).
    assert (Hsub : forall q v, tree fs !! q = Some v -> tree fs1 !! q = Some v).
    { intros q v Hq. simpl. rewrite lookup_insert_ne; [done|congruence]. }
    intros E.
    destruct (IH fs1 (S c) fs2 c2) as (A & B & C & D & F & G); [| |done|].
    { by apply (dir_loc_extends fs). }
    { eapply Forall_impl; [exact Hall|].
      intros g (Hg & sl & y & H1 & H2 & H3). split; [done|].
      exists sl, y. split; [by apply (resolve_extends fs)|]. split; [|done].
      destruct sl; [done|]. by apply Hsub. }
    assert (Hnew : tree fs2 !! (floc ++ [name f]) = Some (File x)).
    { apply B. simpl. by rewrite lookup_insert_eq. }
    split; [done|]. split; [auto|]. split; [|split; [lia|split]].
    + intros q v Hq Hv.
      destruct (decide (q = floc ++ [name f])) as [->|Hqn].
      * exists (name f), x. split; [done|]. split; [congruence|done].
      * apply (C q v); [|done]. simpl. by rewrite lookup_insert_ne.
    + split; [|lia]. intros _. exists (floc ++ [name f]). by rewrite Hnew.
    + intros g [->|Hg]%elem_of_cons; [by rewrite Hnew | by apply G].
Qed.

End FeaturedCopy.

Section FeaturedRun.
Import os spec posixpath pathlib featured.

Lemma scan_elem fs P loc s :
  wf_names (tree fs) -> normal P -> dir_loc fs (str P) loc ->
  s ∈ scan fs (child P <$> entries (tree fs) loc) ->
  exists m y, tree fs !! (loc ++ [m]) = Some (File y) /\ s = Str.lower (stem m).
Proof.
  intros Hwf HP Hl. unfold scan. rewrite elem_of_list_to_set, list_elem_of_omap.
  intros (f & (m & -> & Hm)%list_elem_of_fmap & Hs).
  assert (Hv : valid_name m)
    by (by apply (proj1 (Forall_forall _ _) (entries_valid _ loc Hwf))).
  destruct (file_stem_child fs P loc m s HP Hl Hv Hs) as ([y Hy] & -> & _).
  eauto.
Qed.

Lemma find_export fs P loc E :
  wf_names (tree fs) -> normal P -> dir_loc fs (str P) loc ->
  List.find (fun subdir => Path_is_dir fs subdir
                           && bool_decide (Str.lower (name subdir) = "export"))
            (child P <$> entries (tree fs) loc) = Some E ->
  exists e, E = child P e /\ valid_name e /\ Str.lower e = "export" /\
            tree fs !! (loc ++ [e]) = Some Directory.
Proof.
  intros Hwf HP Hl [Hin Hp]%find_some.
  apply list_elem_of_In, list_elem_of_fmap in Hin as (e & -> & He).
  assert (Hv : valid_name e)
    by (by apply (proj1 (Forall_forall _ _) (entries_valid _ loc Hwf))).
  apply andb_true_iff in Hp as [Hd Hn]. apply bool_decide_eq_true_1 in Hn.
  rewrite name_child in Hn.
  destruct (normal_child fs P loc e HP Hl Hv) as (_ & Hst & _).
  unfold Path_is_dir, path_isdir in Hd. rewrite Hst in Hd.
  exists e. repeat (split; [done|]).
  by destruct (tree fs !! (loc ++ [e])) as [[]|].
Qed.

(** What [process_files] does, for a base directory given by its absolute
    normal path. *)
Lemma process_files_effect fs base_dir bloc fs' r :
  normal base_dir -> dir_loc fs (str base_dir) bloc -> wf_names (tree fs) ->
  process_files base_dir fs = (fs', r) ->
  cwd fs' = cwd fs /\
  (forall q v, tree fs !! q = Some v -> tree fs' !! q = Some v) /\
  (forall q v, tree fs !! q = None -> tree fs' !! q = Some v ->
     (q = bloc ++ ["featured"] /\ v = Directory) \/
     (exists n x, q = bloc ++ ["featured"; n] /\ v = File x /\ copied_from fs bloc n x)) /\
  (forall e, r = Raise e ->
     fs' = fs /\ exists x, tree fs !! (bloc ++ ["raw"]) = Some (File x)) /\
  (forall b, r = Ok b ->
     (b = true <-> exists n, tree fs !! (bloc ++ ["featured"; n]) = None /\
                             is_Some (tree fs' !! (bloc ++ ["featured"; n])))).
Proof.
  intros HP Hl Hwf. unfold process_files. cbv zeta.
  assert (Hquiet : forall b : bool, b = false ->
    (fs, @Ok bool b) = (fs', r) ->
    cwd fs' = cwd fs /\
    (forall q v, tree fs !! q = Some v -> tree fs' !! q = Some v) /\
    (forall q v, tree fs !! q = None -> tree fs' !! q = Some v ->
       (q = bloc ++ ["featured"] /\ v = Directory) \/
       (exists n x, q = bloc ++ ["featured"; n] /\ v = File x /\ copied_from fs bloc n x)) /\
    (forall e, r = Raise e ->
       fs' = fs /\ exists x, tree fs !! (bloc ++ ["raw"]) = Some (File x)) /\
    (forall b, r = Ok b ->
       (b = true <-> exists n, tree fs !! (bloc ++ ["featured"; n]) = None /\
                               is_Some (tree fs' !! (bloc ++ ["featured"; n]))))).
  { intros b -> [= <- <-]. split; [done|]. split; [done|].
    split; [intros q v H1 H2; congruence|]. split; [done|].
    intros b [= <-]. split; [done|]. intros (n & H1 & [v H2]). congruence. }
  destruct (normal_child fs base_dir bloc "raw" HP Hl ltac:(repeat split; done))
    as (Hrres & Hrst & Hrnorm & Hrdir).
  unfold Path_exists at 1. unfold path_exists.
  assert (Hcases : (exists x, tree fs !! (bloc ++ ["raw"]) = Some (File x)) \/
                   tree fs !! (bloc ++ ["raw"]) = Some Directory \/
                   tree fs !! (bloc ++ ["raw"]) = None).
  { destruct (tree fs !! (bloc ++ ["raw"])) as [[x|]|]; eauto. }
  destruct Hcases as [[x Eraw]|[Eraw|Eraw]]; rewrite Eraw in Hrst; rewrite Hrst.
  3:{ rewrite bool_decide_eq_false_2 by (by intros [? ?]). by apply Hquiet. }
  - (* raw is a regular file: the listing raises *)
    rewrite bool_decide_eq_true_2 by eauto. cbn [negb].
    unfold iterdir, listdir. rewrite Hrres, node_at_snoc, Eraw.
    intros [= <- <-]. split; [done|]. split; [done|].
    split; [intros q v H1 H2; congruence|]. split; [eauto|]. done.
  - rewrite bool_decide_eq_true_2 by eauto. cbn [negb].
    rewrite (iterdir_dir fs _ _ Hrnorm (Hrdir Eraw)).
    destruct (List.find _ _) as [E|] eqn:Efind; [|by apply Hquiet].
    destruct (find_export fs _ _ E Hwf Hrnorm (Hrdir Eraw) Efind)
      as (e & -> & Hve & Hexp & Hed).
    destruct (normal_child fs _ _ e Hrnorm (Hrdir Eraw) Hve)
      as (_ & _ & Henorm & Hedir).
    rewrite (iterdir_dir fs _ _ Henorm (Hedir Hed)).
    case_bool_decide as Hnames; [by apply Hquiet|].
    match goal with
    | |- context [search_all fs base_dir ?nm IMAGE_SUBDIRS] => set (names := nm) in *
    end.
    destruct (search_all_ok fs base_dir bloc HP Hl Hwf names IMAGE_SUBDIRS
                image_subdirs_valid) as (files & -> & Hfiles).
    case_bool_decide as Hmatch; [by apply Hquiet|].
    destruct (normal_child fs base_dir bloc "featured" HP Hl ltac:(repeat split; done))
      as (Hfres & Hfst & Hfnorm & Hfdir).
    unfold mkdir_exist_ok. rewrite Hfres, node_at_snoc.
    set (floc := bloc ++ ["featured"]) in *.
    assert (Hsrc : forall f, f ∈ files ->
              valid_name (name f) /\
              exists sloc x, resolve fs (str f) = Some sloc /\
                node_at (tree fs) sloc = Some (File x) /\
                copied_from fs bloc (name f) x).
    { intros f (subdir & n & x & Hsub & -> & Hvn & Hres & Hx & Hin & Hdot)%Hfiles.
      rewrite name_child. split; [done|].
      exists (bloc ++ subloc subdir ++ [n]), x. split; [done|].
      split; [by rewrite app_assoc, node_at_snoc, <- app_assoc|].
      destruct (scan_elem fs _ _ _ Hwf Henorm (Hedir Hed) Hin) as (m & y & Hm & Hstem).
      exists subdir, e, m, y. rewrite <- !app_assoc in Hm, Hed. simpl in Hm, Hed.
      repeat (split; [done|]).
      split; [by rewrite <- app_assoc in Hm|]. done. }
    assert (Hloop : forall fs1,
              cwd fs1 = cwd fs ->
              (forall q v, tree fs !! q = Some v -> tree fs1 !! q = Some v) ->
              (forall q v, tree fs !! q = None -> tree fs1 !! q = Some v ->
                 q = floc /\ v = Directory) ->
              tree fs1 !! floc = Some Directory ->
              (let '(fs2, copied_count) := copy_all (child base_dir "featured") files fs1 0 in
               (fs2, @Ok bool (bool_decide (0 < copied_count)%nat))) = (fs', r) ->
              cwd fs' = cwd fs /\
              (forall q v, tree fs !! q = Some v -> tree fs' !! q = Some v) /\
              (forall q v, tree fs !! q = None -> tree fs' !! q = Some v ->
                 (q = floc /\ v = Directory) \/
                 (exists n x, q = bloc ++ ["featured"; n] /\ v = File x /\
                              copied_from fs bloc n x)) /\
              (forall e, r = Raise e ->
                 fs' = fs /\ exists x, tree fs !! (bloc ++ ["raw"]) = Some (File x)) /\
              (forall b, r = Ok b ->
                 (b = true <-> exists n, tree fs !! (bloc ++ ["featured"; n]) = None /\
                                 is_Some (tree fs' !! (bloc ++ ["featured"; n]))))).
    { intros fs1 Hc Hsub Hnew Hfd.
      destruct (copy_all (child base_dir "featured") files fs1 0) as [fs2 c2] eqn:Ecopy.
      intros [= <- <-].
      assert (Hl1 : dir_loc fs1 (str base_dir) bloc) by (by apply (dir_loc_extends fs)).
      destruct (normal_child fs1 base_dir bloc "featured" HP Hl1 ltac:(repeat split; done))
        as (_ & _ & _ & Hfdir1).
      destruct (copy_all_effect (child base_dir "featured") floc (copied_from fs bloc)
                  Hfnorm files fs1 0 fs2 c2 (Hfdir1 Hfd)) as (A & B & C & D & F & _);
        [|done|].
      { apply Forall_forall. intros f (Hvn & sloc & x & H1 & H2 & H3)%Hsrc.
        split; [done|]. exists sloc, x. split; [by apply (resolve_extends fs)|].
        split; [|done]. destruct sloc; [done|]. by apply Hsub. }
      split; [congruence|]. split; [auto|]. split; [|split; [done|]].
      - intros q v Hq Hv. destruct (tree fs1 !! q) as [w|] eqn:E1.
        + left. destruct (Hnew q w Hq E1) as [-> ->]. split; [done|].
          rewrite (B _ _ E1) in Hv. congruence.
        + right. destruct (C q v E1 Hv) as (n & x & -> & -> & Hcf).
          exists n, x. unfold floc. rewrite <- app_assoc. done.
      - intros b [= <-]. rewrite bool_decide_eq_true. rewrite F. split.
        + intros (q & Hq1 & [v Hq2]). destruct (C q v Hq1 Hq2) as (n & x & -> & -> & _).
          exists n. unfold floc in *. rewrite <- app_assoc in Hq1, Hq2. simpl in *.
          split; [|by rewrite Hq2].
          destruct (tree fs !! (bloc ++ ["featured"; n])) as [w|] eqn:E0; [|done].
          apply Hsub in E0. congruence.
        + intros (n & H1 & H2). exists (bloc ++ ["featured"; n]). split; [|done].
          destruct (tree fs1 !! (bloc ++ ["featured"; n])) as [w|] eqn:E1; [|done].
          destruct (Hnew _ _ H1 E1) as [Hq _]. unfold floc in Hq.
          apply (f_equal List.length) in Hq. rewrite !length_app in Hq. simpl in Hq. lia. }
    destruct (tree fs !! floc) as [[x|]|] eqn:Ef.
    + by apply Hquiet.
    + apply Hloop; [done|done| |done]. intros q v H1 H2. congruence.
    + apply Hloop; [done| | |].
      * intros q v Hq. simpl. rewrite lookup_insert_ne; [done|congruence].
      * intros q v Hq. simpl. destruct (decide (q = floc)) as [->|Hne].
        -- rewrite lookup_insert_eq. by intros [= <-].
        -- rewrite lookup_insert_ne by done. congruence.
      * simpl. by rewrite lookup_insert_eq.
Qed.

End FeaturedRun.

Section FeaturedTheorems.
Import os spec posixpath pathlib featured.

(** [process_files] only adds: the working directory stays, nothing that
    exists is changed or removed (in particular nothing in [featured] is
    overwritten), and whatever is new lies at or below [featured] in the
    base directory. *)
Theorem process_files_only_adds (fs fs' : filesystem) (base_dir : Path)
    (bloc : location) (r : result bool) :
  normal base_dir -> dir_loc fs (str base_dir) bloc -> wf_names (tree fs) ->
  process_files base_dir fs = (fs', r) ->
  cwd fs' = cwd fs /\
  (forall q v, tree fs !! q = Some v -> tree fs' !! q = Some v) /\
  (forall q, tree fs !! q = None -> is_Some (tree fs' !! q) ->
             (bloc ++ ["featured"]) `prefix_of` q).
Proof.
  intros HP Hl Hwf E.
  destruct (process_files_effect fs base_dir bloc fs' r HP Hl Hwf E) as (A & B & C & _).
  split; [done|]. split; [done|].
  intros q Hq [v Hv]. destruct (C q v Hq Hv) as [[-> _]|(n & x & -> & _)].
  - done.
  - exists [n]. by rewrite <- app_assoc.
Qed.

(** With ASCII names, every file [process_files] adds to [featured] is the
    copy of a file of the same name from the base directory or one of the
    image subdirectories, and its stem is, up to case, the stem of a
    regular file in an [export] directory below [raw]; hidden stems are
    never copied. *)
Theorem process_files_copies_matches (fs fs' : filesystem) (base_dir : Path)
    (bloc : location) (r : result bool) (n : string) (v : node) :
  normal base_dir -> dir_loc fs (str base_dir) bloc -> wf_names (tree fs) ->
  ascii_names (tree fs) = true ->
  process_files base_dir fs = (fs', r) ->
  tree fs !! (bloc ++ ["featured"; n]) = None ->
  tree fs' !! (bloc ++ ["featured"; n]) = Some v ->
  exists x, v = File x /\ copied_from fs bloc n x.
Proof.
  intros HP Hl Hwf _ E Hq Hv.
  destruct (process_files_effect fs base_dir bloc fs' r HP Hl Hwf E) as (_ & _ & C & _).
  destruct (C _ v Hq Hv) as [[Hlen _]|(n' & x & Hn & -> & Hc)].
  - apply (f_equal List.length) in Hlen. rewrite !length_app in Hlen. simpl in Hlen. lia.
  - apply app_inv_head in Hn. injection Hn as <-. eauto.
Qed.

(** The value of [process_files]: it returns [True] exactly when it has
    copied at least one file; and when an exception leaves it, nothing has
    been written. *)
Theorem process_files_result (fs fs' : filesystem) (base_dir : Path)
    (bloc : location) (r : result bool) :
  normal base_dir -> dir_loc fs (str base_dir) bloc -> wf_names (tree fs) ->
  process_files base_dir fs = (fs', r) ->
  (forall b, r = Ok b ->
     (b = true <-> exists n, tree fs !! (bloc ++ ["featured"; n]) = None /\
                             is_Some (tree fs' !! (bloc ++ ["featured"; n])))) /\
  (forall e, r = Raise e -> fs' = fs).
Proof.
  intros HP Hl Hwf E.
  destruct (process_files_effect fs base_dir bloc fs' r HP Hl Hwf E)
    as (_ & _ & _ & D & F).
  split; [exact F|]. intros e He. by destruct (D e He).
Qed.

End FeaturedTheorems.

Section FeaturedExamples.
Import os spec posixpath pathlib featured examples.

Lemma shoot_normal : normal (parse "/p").
Proof. by apply parse_normal. Qed.

Lemma shoot_dir_loc : dir_loc fs_shoot (str (parse "/p")) ["p"].
Proof. split; vm_compute; reflexivity. Qed.

Lemma shoot_wf : wf_names (tree fs_shoot).
Proof. apply wf_namesb_sound. vm_compute. reflexivity. Qed.

Lemma process_files_only_adds_witness :
  exists fs' r,
    process_files (parse "/p") fs_shoot = (fs', r) /\
    tree fs' !! ["p"; "IMG_1.jpg"] = Some (File "base1") /\
    tree fs' !! ["p"; "raw"; "Export"; "IMG_1.dng"] = Some (File "r1").
Proof.
  destruct (process_files (parse "/p") fs_shoot) as [fs' r] eqn:E.
  destruct (process_files_only_adds fs_shoot fs' (parse "/p") ["p"] r
              shoot_normal shoot_dir_loc shoot_wf E) as (_ & B & _).
  exists fs', r. split; [reflexivity|]. split; apply B; reflexivity.
Defined.

Lemma process_files_copies_matches_witness :
  exists fs' r,
    process_files (parse "/p") fs_shoot = (fs', r) /\
    tree fs' !! ["p"; "featured"; "IMG_2.JPG"] = Some (File "sub2") /\
    copied_from fs_shoot ["p"] "IMG_2.JPG" "sub2".
Proof.
  destruct (process_files (parse "/p") fs_shoot) as [fs' r] eqn:E.
  assert (Hv : tree fs' !! ["p"; "featured"; "IMG_2.JPG"] = Some (File "sub2")).
  { vm_compute in E. injection E as <- _. vm_compute. reflexivity. }
  destruct (process_files_copies_matches fs_shoot fs' (parse "/p") ["p"] r
              "IMG_2.JPG" (File "sub2") shoot_normal shoot_dir_loc shoot_wf eq_refl E
              eq_refl Hv) as (x & [= <-] & Hc).
  exists fs', r. split; [reflexivity|]. split; [exact Hv | exact Hc].
Defined.

Lemma process_files_result_witness :
  exists fs',
    process_files (parse "/p") fs_shoot = (fs', Ok true) /\
    exists n, tree fs_shoot !! ["p"; "featured"; n] = None /\
              is_Some (tree fs' !! ["p"; "featured"; n]).
Proof.
  destruct (process_files (parse "/p") fs_shoot) as [fs' r] eqn:E.
  assert (Hr : r = Ok true) by (vm_compute in E; by injection E as _ <-).
  destruct (process_files_result fs_shoot fs' (parse "/p") ["p"] r
              shoot_normal shoot_dir_loc shoot_wf E) as [A _].
  exists fs'. split; [by rewrite Hr|]. by apply (A true Hr).
Defined.

(** The first match wins: [IMG_1.jpg] of the base directory is copied and
    the one in [jpg] is skipped. *)
Lemma process_files_first_match :
  exists fs',
    process_files (parse "/p") fs_shoot = (fs', Ok true) /\
    tree fs' !! ["p"; "featured"; "IMG_1.jpg"] = Some (File "base1") /\
    tree fs' !! ["p"; "featured"; "IMG_3.jpg"] = None.
Proof. eexists. split; [vm_compute; reflexivity|]. split; reflexivity. Qed.

End FeaturedExamples.
